(** * can_signal_tracker: grouping, deduplication and bit-change tracking

    A shallow embedding of [examples/can_signal_tracker.py] and the proofs
    of the properties its specification states.

    Conventions of the embedding.
    - A Python [dict] is an association list in insertion order
      ([dict_get], [dict_set], [dict_mem]): the tracker iterates its
      dictionaries and relies on that order.
    - A Python [int] is a [Z]; [^], [|] and [&] are [Z.lxor], [Z.lor] and
      [Z.land], which agree with Python on negative numbers too.
    - Code that can raise returns a [result]; [Raise e] is the exception
      leaving the function.
    - Python built-ins the program calls but does not define ([float],
      [int], [int(_, 16)] and the [.3f] format) are variables of the
      section; the examples instantiate them with small parsers that agree
      with Python on the strings used there.
    - A time stamp is a Python [float]; the program only compares time
      stamps and uses them as dictionary keys, so they are members of a type
      [Ts] with decidable equality and a strict order test: the values of
      [float] other than NaN, which is not a time.
    - An object is the value of its fields. The one field the program
      changes after [__init__] of a [Message] is [bit_changes], and it is
      read only in the sequence that the method setting it returns. *)

From Stdlib Require Import List String Ascii ZArith Bool Lia Arith.
From Stdlib Require Import DecimalString HexadecimalString.
Import ListNotations.
Local Open Scope string_scope.
Local Open Scope list_scope.

Set Implicit Arguments.

(** ** Exceptions *)

Inductive exn : Set :=
| ValueError | AttributeError | KeyError | IndexError | TypeError | SystemExit.

Inductive result (A : Type) : Type :=
| Ok (a : A)
| Raise (e : exn).
Arguments Ok {A} a.
Arguments Raise {A} e.

Definition bind {A B : Type} (r : result A) (k : A -> result B) : result B :=
  match r with
  | Ok a => k a
  | Raise e => Raise e
  end.

Notation "'let*' x ':=' r 'in' k" := (bind r (fun x => k))
  (at level 10, x pattern, r at level 100, k at level 200).

Definition of_option {A : Type} (e : exn) (o : option A) : result A :=
  match o with
  | Some a => Ok a
  | None => Raise e
  end.

(** [for x in l: acc = f acc x], an exception ending the loop. *)
Fixpoint foldM {A B : Type} (f : A -> B -> result A) (l : list B) (acc : A)
  : result A :=
  match l with
  | [] => Ok acc
  | x :: l' => let* acc' := f acc x in foldM f l' acc'
  end.

(** ** Insertion-ordered dictionaries *)

Section Dict.
Variables K V : Type.
Variable K_eq_dec : forall a b : K, {a = b} + {a <> b}.

Definition dict := list (K * V).

Fixpoint dict_get (d : dict) (k : K) : option V :=
  match d with
  | [] => None
  | (k', v) :: d' => if K_eq_dec k' k then Some v else dict_get d' k
  end.

Definition dict_mem (d : dict) (k : K) : bool :=
  match dict_get d k with
  | Some _ => true
  | None => false
  end.

(** [d[k] = v]: an existing key keeps its place, a new one goes last. *)
Fixpoint dict_set (d : dict) (k : K) (v : V) : dict :=
  match d with
  | [] => [(k, v)]
  | (k', v') :: d' =>
      if K_eq_dec k' k then (k', v) :: d' else (k', v') :: dict_set d' k v
  end.

Definition dict_keys (d : dict) : list K := map fst d.
Definition dict_values (d : dict) : list V := map snd d.
End Dict.

Arguments dict_get {K V} K_eq_dec d k.
Arguments dict_mem {K V} K_eq_dec d k.
Arguments dict_set {K V} K_eq_dec d k v.
Arguments dict_keys {K V} d.
Arguments dict_values {K V} d.

(** ** Strings and numbers of the Python run time *)

(** [s[n:]] *)
Fixpoint string_drop (n : nat) (s : string) : string :=
  match n, s with
  | O, _ => s
  | S n', String _ s' => string_drop n' s'
  | S _, EmptyString => EmptyString
  end.

(** [s.startswith(p)] *)
Definition startswith (s p : string) : bool := String.prefix p s.

(** [hex(n)]: lower-case digits after [0x], the sign in front. *)
Definition py_hex (n : Z) : string :=
  if (n <? 0)%Z
  then ("-0x" ++ NilZero.string_of_uint (N.to_hex_uint (Z.to_N (- n))))%string
  else ("0x" ++ NilZero.string_of_uint (N.to_hex_uint (Z.to_N n)))%string.

(** [f'{x:02d}'] *)
Definition fmt_02d (x : Z) : string :=
  let s := DecimalString.NilZero.string_of_int (Z.to_int x) in
  if (String.length s <? 2)%nat then ("0" ++ s)%string else s.

(** ["|".join(l)] *)
Fixpoint join (sep : string) (l : list string) : string :=
  match l with
  | [] => ""
  | [x] => x
  | x :: l' => (x ++ sep ++ join sep l')%string
  end.

(** [range(64, 0, -1)] *)
Definition range_64_down : list Z :=
  map (fun k => (64 - Z.of_nat k)%Z) (seq 0 64).

(** [s.split(sep)] for a one-character separator. *)
Fixpoint split_on (sep : ascii) (s : string) : list string :=
  match s with
  | EmptyString => [""]
  | String c s' =>
      if Ascii.eqb c sep then "" :: split_on sep s'
      else match split_on sep s' with
           | [] => [String c ""]
           | w :: ws => String c w :: ws
           end
  end.

(** ** The program *)

Section Program.

Variable Ts : Type.
Variable Ts_eq_dec : forall a b : Ts, {a = b} + {a <> b}.
Variable Ts_ltb : Ts -> Ts -> bool.

(** [float(s)], [int(s)], [int(s, 16)] and [f'{t:.3f}']; [None] is
    [ValueError]. *)
Variable py_float : string -> option Ts.
Variable py_int : string -> option Z.
Variable hex_int : string -> option Z.
Variable fmt_3f : Ts -> string.

(** *** class Message *)

Record Message : Type := {
  msg_id : string;        (* "BusId:CANId" *)
  msg_ts : Ts;
  msg_data : string;      (* payload, in hex *)
  msg_bit_changes : Z
}.

Definition Message_init (message_id : string) (ts : Ts) (data : string)
  : Message :=
  {| msg_id := message_id; msg_ts := ts; msg_data := data;
     msg_bit_changes := 0 |}.

Definition bit_changes_from (self : Message) (ref_message : option Message)
  : result Z :=
  match ref_message with
  | None => Ok 0%Z
  | Some r =>
      let* a := of_option ValueError (hex_int (msg_data self)) in
      let* b := of_option ValueError (hex_int (msg_data r)) in
      Ok (Z.lxor a b)
  end.

(** The method sets the field of the object and returns the object; here it
    returns the message with the field set. *)
Definition with_bit_changes (self : Message) (ref_message : option Message)
  : result Message :=
  let* c := bit_changes_from self ref_message in
  Ok {| msg_id := msg_id self; msg_ts := msg_ts self;
        msg_data := msg_data self; msg_bit_changes := c |}.

(** *** class MessageTypeCollection *)

Record MessageTypeCollection : Type := {
  mtc_id : string;
  mtc_messages : list Message
}.

Definition MessageTypeCollection_init (message_id : string)
  : MessageTypeCollection :=
  {| mtc_id := message_id; mtc_messages := [] |}.

Definition MessageTypeCollection_add (self : MessageTypeCollection)
  (message : Message) : MessageTypeCollection :=
  {| mtc_id := mtc_id self; mtc_messages := mtc_messages self ++ [message] |}.

(** The body of the [lambda] given to [functools.reduce]. [ret[-1]] is
    [last ret message]: it is only read when [ret] is not empty. *)
Definition keep_changed (ret : list Message) (message : Message)
  : list Message :=
  if Nat.eqb (List.length ret) 0
     || negb (String.eqb (msg_data message) (msg_data (last ret message)))
  then ret ++ [message]
  else ret.

Definition messages_with_change (self : MessageTypeCollection)
  : list Message :=
  fold_left keep_changed (mtc_messages self) [].

Definition MessageTypeCollection_count (self : MessageTypeCollection) : nat :=
  List.length (mtc_messages self).

(** *** class MessageGroup *)

Record MessageGroup : Type := {
  grp_ts : Ts;
  grp_ref_message : Message;
  grp_message_type_collections : dict string MessageTypeCollection
}.

Definition MessageGroup_init (ts : Ts) (ref_message : Message) : MessageGroup :=
  {| grp_ts := ts; grp_ref_message := ref_message;
     grp_message_type_collections := [] |}.

Definition message_ids (self : MessageGroup) : list string :=
  dict_keys (grp_message_type_collections self).

(** A collection is created on the first message of its id, then the
    message is appended to the collection found under the id. *)
Definition MessageGroup_add (self : MessageGroup) (message : Message)
  : MessageGroup :=
  let cs := grp_message_type_collections self in
  let c := match dict_get string_dec cs (msg_id message) with
           | Some c => c
           | None => MessageTypeCollection_init (msg_id message)
           end in
  {| grp_ts := grp_ts self; grp_ref_message := grp_ref_message self;
     grp_message_type_collections :=
       dict_set string_dec cs (msg_id message)
         (MessageTypeCollection_add c message) |}.

(** [with_id] returns the collection of the id or, by the default of
    [dict.get], the empty Python list. *)
Inductive collection_or_list : Type :=
| IsCollection (c : MessageTypeCollection)
| IsList (l : list Message).

Definition with_id (self : MessageGroup) (message_id : string)
  : collection_or_list :=
  match dict_get string_dec (grp_message_type_collections self) message_id with
  | Some c => IsCollection c
  | None => IsList []
  end.

Definition appearing_once (self : MessageGroup) : list Message :=
  fold_left
    (fun ret collection =>
       if Nat.eqb (MessageTypeCollection_count collection) 1
       then ret ++ mtc_messages collection else ret)
    (dict_values (grp_message_type_collections self)) [].

(** *** class MessageGroups *)

(** The state of the loop of [load]: [self.groups] and [current_group]. *)
Definition load_state : Type := (list MessageGroup * option MessageGroup)%type.

(** Lines 141-144: the message id of a row, without its [0x]; an id in
    decimal is turned to hexadecimal. *)
Definition row_message_id (field : string) : result string :=
  if startswith field "0x" then Ok (string_drop 2 field)
  else let* n := of_option ValueError (py_int field) in
       Ok (string_drop 2 (py_hex n)).

(** Lines 128-154: what a row yields. [None] is a row the loop passes over
    with [continue]; otherwise the message id, the time and the message. *)
Definition read_row (ref_bus : string) (start end_ : Ts) (row : list string)
  : result (option (string * Ts * Message)) :=
  match row with
  | [] => Ok None
  | row0 :: _ =>
      let* time := of_option ValueError (py_float row0) in
      if Ts_ltb time start || Ts_ltb end_ time then Ok None else
      match nth_error row 2 with
      | None => Ok None                     (* IndexError, caught *)
      | Some bus =>
          match py_int bus with
          | None => Ok None                 (* ValueError, caught *)
          | Some _ =>
              let* message_id := row_message_id (nth 1 row "") in
              if negb (String.eqb bus ref_bus) then Ok None else
              let mess_bus_id := (bus ++ ":" ++ message_id)%string in
              let* row3 := of_option IndexError (nth_error row 3) in
              let data := if startswith row3 "0x" then string_drop 2 row3
                          else row3 in
              let message := Message_init mess_bus_id time data in
              Ok (Some (message_id, time, message))
          end
      end
  end.

(** Lines 156-161: a reference message seals the open group and opens the
    next one; any other message goes to the open group, if there is one. *)
Definition dispatch (ref_message_id : string) (st : load_state)
  (entry : string * Ts * Message) : load_state :=
  let '(message_id, time, message) := entry in
  let '(groups, current_group) := st in
  if String.eqb message_id ref_message_id then
    (match current_group with
     | Some g => groups ++ [g]
     | None => groups
     end, Some (MessageGroup_init time message))
  else
    match current_group with
    | Some g => (groups, Some (MessageGroup_add g message))
    | None => st
    end.

(** One turn of the loop over the rows. *)
Definition load_row (ref_message_id ref_bus : string) (start end_ : Ts)
  (st : load_state) (row : list string) : result load_state :=
  let* entry := read_row ref_bus start end_ row in
  match entry with
  | None => Ok st
  | Some e => Ok (dispatch ref_message_id st e)
  end.

(** [load], on the rows [csv.reader] yields for the file. The groups of
    [self] are the result; the group still open at the end is dropped. *)
Definition load (self : list MessageGroup) (rows : list (list string))
  (ref_message_id ref_bus : string) (start end_ : Ts)
  : result (list MessageGroup) :=
  match rows with
  | [] => Raise TypeError                   (* header is None *)
  | header :: rows' =>
      match header with
      | [] => Raise IndexError
      | h0 :: _ =>
          if negb (String.eqb h0 "time") then Raise SystemExit
          else
            let* st := foldM (load_row ref_message_id ref_bus start end_)
                             rows' (self, None) in
            Ok (fst st)
      end
  end.

(** *** class MessageChangeTracker *)

Record MessageChangeTracker : Type := {
  mct_bit_comparers : list Z;
  mct_base_message : option Message;
  mct_ref_message : Message;
  mct_bit_changes_count : list Z;
  mct_group_ts : Ts;
  mct_id : string
}.

Definition MessageChangeTracker_init (group_ts : Ts) (message_id : string)
  (ref_message : Message) (base_message : option Message)
  : MessageChangeTracker :=
  {| mct_bit_comparers := map (fun i => (2 ^ (i - 1))%Z) range_64_down;
     mct_base_message := base_message;
     mct_ref_message := ref_message;
     mct_bit_changes_count := repeat 0%Z 64;
     mct_group_ts := group_ts;
     mct_id := message_id |}.

Definition track_changes_to (self : MessageChangeTracker) (message : Message)
  : result MessageChangeTracker :=
  let* bit_change := bit_changes_from message (mct_base_message self) in
  let changes :=
    map (fun comparer =>
           if (Z.land comparer bit_change =? 0)%Z then 0%Z else 1%Z)
        (mct_bit_comparers self) in
  Ok {| mct_bit_comparers := mct_bit_comparers self;
        mct_base_message := Some message;
        mct_ref_message := mct_ref_message self;
        mct_bit_changes_count :=
          map (fun x => (fst x + snd x)%Z)
              (combine (mct_bit_changes_count self) changes);
        mct_group_ts := mct_group_ts self;
        mct_id := mct_id self |}.

Definition desc_with_less_than (self : MessageChangeTracker) (count : Z)
  : string :=
  let count_str :=
    fold_left
      (fun ret x =>
         if (0 <? x)%Z && (x <? count)%Z
         then (ret ++ fmt_02d x ++ "|")%string
         else (ret ++ "--|")%string)
      (mct_bit_changes_count self) "" in
  (fmt_3f (mct_group_ts self) ++ " - "
   ++ msg_data (mct_ref_message self) ++ " - " ++ count_str)%string.

(** *** class MessageTracker *)

Record MessageTracker : Type := {
  trk_id : string;
  trk_messages : dict Ts (list Message);     (* keyed by group ts *)
  trk_ref_messages : dict Ts Message;        (* keyed by group ts *)
  trk_group_count : Z
}.

Definition MessageTracker_init (message_id : string) (group_count : Z)
  : MessageTracker :=
  {| trk_id := message_id; trk_messages := []; trk_ref_messages := [];
     trk_group_count := group_count |}.

(** Lines 198-200 of [add]: a group seen for the first time gets an empty
    list and its reference message. *)
Definition enter_group (self : MessageTracker) (message_group : MessageGroup)
  : MessageTracker :=
  if dict_mem Ts_eq_dec (trk_messages self) (grp_ts message_group) then self
  else
    {| trk_id := trk_id self;
       trk_messages :=
         dict_set Ts_eq_dec (trk_messages self) (grp_ts message_group) [];
       trk_ref_messages :=
         dict_set Ts_eq_dec (trk_ref_messages self) (grp_ts message_group)
           (grp_ref_message message_group);
       trk_group_count := trk_group_count self |}.

(** [add] changes the tracker in place, so the tracker it leaves is
    returned with the outcome: an exception leaves the tracker as the
    statements before it made it. A Python list has no method
    [messages_with_change]: calling it is an [AttributeError]. *)
Definition MessageTracker_add (self : MessageTracker)
  (message_group : MessageGroup) : MessageTracker * result unit :=
  let collection := with_id message_group (trk_id self) in
  let self1 := enter_group self message_group in
  match collection with
  | IsList _ => (self1, Raise AttributeError)
  | IsCollection c =>
      let old := match dict_get Ts_eq_dec (trk_messages self1)
                         (grp_ts message_group) with
                 | Some l => l
                 | None => []
                 end in
      ({| trk_id := trk_id self1;
          trk_messages :=
            dict_set Ts_eq_dec (trk_messages self1) (grp_ts message_group)
              (old ++ messages_with_change c);
          trk_ref_messages := trk_ref_messages self1;
          trk_group_count := trk_group_count self1 |}, Ok tt)
  end.

Definition MessageTracker_count (self : MessageTracker) : nat :=
  List.length (trk_messages self).

Definition in_all (self : MessageTracker) : bool :=
  (Z.of_nat (List.length (dict_keys (trk_messages self)))
   >=? trk_group_count self)%Z.

Definition group_message_tuples (self : MessageTracker)
  : list (Ts * Message) :=
  flat_map (fun item => map (fun message => (fst item, message)) (snd item))
           (trk_messages self).

(** The loop of [group_message_tuples_with_bit_changes]; its state is
    [tuples] and [last]. In a tracker fed by [TrackSignal] every position
    of the sequence holds an object of its own (a row of the log makes one
    message, which goes to one group), so the field set at a position is
    the one read there later. *)
Definition with_bit_changes_step
  (st : list (Ts * Message) * option Message) (item : Ts * Message)
  : result (list (Ts * Message) * option Message) :=
  let '(tuples, last) := st in
  let '(group, message) := item in
  let* message' := with_bit_changes message last in
  Ok (tuples ++ [(group, message')], Some message').

Definition group_message_tuples_with_bit_changes (self : MessageTracker)
  : result (list (Ts * Message)) :=
  let* st := foldM with_bit_changes_step (group_message_tuples self)
                   ([], None) in
  Ok (fst st).

(** The loop of [in_all_groups_with_change], with its early [return]. *)
Fixpoint change_loop (current_group : option Ts) (group_changes : Z)
  (tuples : list (Ts * Message)) : bool :=
  match tuples with
  | [] => (group_changes >? 0)%Z
  | (group, message) :: rest =>
      let current := match current_group with
                     | None => group
                     | Some c => c
                     end in
      if Ts_eq_dec group current
      then change_loop (Some current)
                       (Z.lor group_changes (msg_bit_changes message)) rest
      else if (group_changes =? 0)%Z then false
           else change_loop (Some group) 0%Z rest
  end.

Definition in_all_groups_with_change (self : MessageTracker) : result bool :=
  if negb (in_all self) then Ok false
  else
    let* tuples := group_message_tuples_with_bit_changes self in
    Ok (change_loop None 0%Z tuples).

(** The loop of [group_change_trackers]; its state is
    [prev_group_last_message] and [change_trackers]. *)
Definition change_trackers_step (self : MessageTracker)
  (st : option Message * dict Ts MessageChangeTracker) (item : Ts * Message)
  : result (option Message * dict Ts MessageChangeTracker) :=
  let '(prev_group_last_message, change_trackers) := st in
  let '(group, message) := item in
  let* change_trackers1 :=
    if dict_mem Ts_eq_dec change_trackers group then Ok change_trackers
    else
      let* ref_message :=
        of_option KeyError (dict_get Ts_eq_dec (trk_ref_messages self) group) in
      Ok (dict_set Ts_eq_dec change_trackers group
            (MessageChangeTracker_init group (trk_id self) ref_message
               prev_group_last_message)) in
  let* tracker :=
    of_option KeyError (dict_get Ts_eq_dec change_trackers1 group) in
  let* tracker' := track_changes_to tracker message in
  Ok (Some message, dict_set Ts_eq_dec change_trackers1 group tracker').

Definition group_change_trackers (self : MessageTracker)
  : result (list MessageChangeTracker) :=
  let* st := foldM (change_trackers_step self) (group_message_tuples self)
                   (None, []) in
  Ok (dict_values (snd st)).

Definition bit_changes_header : string :=
  ("XXX.XXX - XXXXXXXXXXXXXXXX - "
   ++ join "|" (map (fun i => fmt_02d (i - 1)) range_64_down)
   ++ String (ascii_of_nat 10) "")%string.

(** The rows of [bit_changes_str]: one for every change tracker but the
    first. *)
Definition bit_changes_rows (self : MessageTracker) (count : Z)
  : result (list string) :=
  let* trackers := group_change_trackers self in
  Ok (map (fun change_tracker => desc_with_less_than change_tracker count)
          (tl trackers)).

Definition bit_changes_str (self : MessageTracker) (count : Z)
  : result string :=
  let* trackers := group_change_trackers self in
  Ok (fold_left
        (fun ret change_tracker =>
           (ret ++ desc_with_less_than change_tracker count
            ++ String (ascii_of_nat 10) "")%string)
        (tl trackers) bit_changes_header).

(** *** TrackSignal *)

(** Lines 281-285: one tracker for every message id, fed with every group
    that has the id. *)
Definition track_group_id (group_count : Z) (message_group : MessageGroup)
  (trackers_dict : dict string MessageTracker) (message_id : string)
  : result (dict string MessageTracker) :=
  let trackers_dict1 :=
    if dict_mem string_dec trackers_dict message_id then trackers_dict
    else dict_set string_dec trackers_dict message_id
           (MessageTracker_init message_id group_count) in
  let* tracker :=
    of_option KeyError (dict_get string_dec trackers_dict1 message_id) in
  let '(tracker', outcome) := MessageTracker_add tracker message_group in
  let* _ := outcome in
  Ok (dict_set string_dec trackers_dict1 message_id tracker').

Definition track_group (group_count : Z)
  (trackers_dict : dict string MessageTracker) (message_group : MessageGroup)
  : result (dict string MessageTracker) :=
  foldM (track_group_id group_count message_group)
        (message_ids message_group) trackers_dict.

Definition build_trackers (groups : list MessageGroup)
  : result (dict string MessageTracker) :=
  foldM (track_group (Z.of_nat (List.length groups))) groups [].

(** Lines 287-290: what is printed, tracker by tracker; an exception stops
    the loop after what was printed before it. *)
Fixpoint report (trackers : list MessageTracker)
  : list (string * string) * result unit :=
  match trackers with
  | [] => ([], Ok tt)
  | tracker :: rest =>
      match in_all_groups_with_change tracker with
      | Raise e => ([], Raise e)
      | Ok false => report rest
      | Ok true =>
          match bit_changes_str tracker 4 with
          | Raise e => ([], Raise e)
          | Ok s =>
              let '(out, r) := report rest in
              ((trk_id tracker, s) :: out, r)
          end
      end
  end.

Definition TrackSignal (rows : list (list string))
  (ref_message_id ref_bus time_range : string)
  : list (string * string) * result unit :=
  match map py_float (split_on "-" time_range) with
  | [Some start; Some end_] =>
      match load [] rows ref_message_id ref_bus start end_ with
      | Raise e => ([], Raise e)
      | Ok groups =>
          match build_trackers groups with
          | Raise e => ([], Raise e)
          | Ok trackers_dict => report (dict_values trackers_dict)
          end
      end
  | _ => ([], Raise ValueError)
  end.

End Program.

(** ** The words of the specification *)

Section Specification.

Variable Ts : Type.
Variable Ts_eq_dec : forall a b : Ts, {a = b} + {a <> b}.
Variable hex_int : string -> option Z.

(** The payload of a message as a number. *)
Definition payload (m : Message Ts) : Z :=
  match hex_int (msg_data m) with
  | Some v => v
  | None => 0%Z
  end.

(** The payload of the message can be read. *)
Definition has_payload (m : Message Ts) : Prop :=
  hex_int (msg_data m) <> None.

(** The payload is written as an unsigned number. *)
Definition unsigned_payload (m : Message Ts) : Prop :=
  exists v, hex_int (msg_data m) = Some v /\ (0 <= v)%Z.

(** The payload is a 64-bit unsigned number. *)
Definition payload_64 (m : Message Ts) : Prop :=
  exists v, hex_int (msg_data m) = Some v /\ (0 <= v < 2 ^ 64)%Z.

(** Consecutive runs of a flattened sequence that share a group key. *)
Fixpoint runs (tuples : list (Ts * Message Ts)) : list (list (Message Ts)) :=
  match tuples with
  | [] => []
  | (g, m) :: rest =>
      match runs rest with
      | [] => [[m]]
      | r :: rs =>
          match rest with
          | [] => [[m]]
          | (g', _) :: _ =>
              if Ts_eq_dec g g' then (m :: r) :: rs else [m] :: r :: rs
          end
      end
  end.

(** The bitwise OR of the [bitChanges] of the messages of a run. *)
Definition run_or (run : list (Message Ts)) : Z :=
  fold_right (fun m acc => Z.lor (msg_bit_changes m) acc) 0%Z run.

(** What the loop of [in_all_groups_with_change] asks of the runs: [v] is
    the OR it holds for the run at hand. A run that ends inside the
    sequence needs a nonzero OR, the last run a positive one, and the OR of
    a run that is not the first starts after its first message. *)
Fixpoint runs_change (v : Z) (rs : list (list (Message Ts))) : bool :=
  match rs with
  | [] => (v >? 0)%Z
  | r :: rs' => negb (v =? 0)%Z && runs_change (run_or (tl r)) rs'
  end.

(** The difference of a message from its baseline; none gives zero. *)
Definition delta (m : Message Ts) (baseline : option (Message Ts)) : Z :=
  match baseline with
  | None => 0%Z
  | Some b => Z.lxor (payload m) (payload b)
  end.

(** The chained differences of the occurrences of a group, the first one
    taken from [baseline]. *)
Fixpoint deltas (baseline : option (Message Ts)) (ms : list (Message Ts))
  : list Z :=
  match ms with
  | [] => []
  | m :: ms' => delta m baseline :: deltas (Some m) ms'
  end.

(** The flattened sequence with the [bitChanges] of every message set: the
    difference from the message before it in the sequence. *)
Fixpoint annotated (prev : option (Message Ts))
  (tuples : list (Ts * Message Ts)) : list (Ts * Message Ts) :=
  match tuples with
  | [] => []
  | (g, m) :: rest =>
      let m' := {| msg_id := msg_id m; msg_ts := msg_ts m;
                   msg_data := msg_data m;
                   msg_bit_changes := delta m prev |} in
      (g, m') :: annotated (Some m') rest
  end.

(** Every message of the sequence that has a message before it can be read,
    and so can the message before it. *)
Fixpoint readable_chain (prev : option (Message Ts))
  (tuples : list (Ts * Message Ts)) : Prop :=
  match tuples with
  | [] => True
  | (g, m) :: rest =>
      match prev with
      | None => True
      | Some p => has_payload m /\ has_payload p
      end
      /\ readable_chain (Some m) rest
  end.

(** How many of the differences have bit [b] set. *)
Definition flips (b : Z) (ds : list Z) : Z :=
  Z.of_nat (List.length (filter (fun d => Z.testbit d b) ds)).

(** The toggle counts of a list of differences, bit 63 first. *)
Definition toggle_counts (ds : list Z) : list Z :=
  map (fun i => flips (i - 1) ds) range_64_down.

(** The last occurrence so far: the last of [ms], or [prior] when [ms] is
    empty. *)
Fixpoint last_message (prior : option (Message Ts)) (ms : list (Message Ts))
  : option (Message Ts) :=
  match ms with
  | [] => prior
  | m :: ms' => last_message (Some m) ms'
  end.


Record ChangeRecord : Type := {
  cr_group : Ts;
  cr_toggle_counts : list Z;
  cr_reference_message : option (Message Ts);
  cr_running_baseline : option (Message Ts)
}.

(** One record for every group the id occurs in, in the order of the
    groups; the baseline of a group starts as the last occurrence before
    it. *)
Fixpoint change_records (refs : dict Ts (Message Ts))
  (prior : option (Message Ts)) (occurrences : dict Ts (list (Message Ts)))
  : list ChangeRecord :=
  match occurrences with
  | [] => []
  | (g, ms) :: rest =>
      match ms with
      | [] => change_records refs prior rest
      | _ :: _ =>
          {| cr_group := g;
             cr_toggle_counts := toggle_counts (deltas prior ms);
             cr_reference_message := dict_get Ts_eq_dec refs g;
             cr_running_baseline := last_message prior ms |}
          :: change_records refs (last_message prior ms) rest
      end
  end.

Definition record_of (ct : MessageChangeTracker Ts) : ChangeRecord :=
  {| cr_group := mct_group_ts ct;
     cr_toggle_counts := mct_bit_changes_count ct;
     cr_reference_message := Some (mct_ref_message ct);
     cr_running_baseline := mct_base_message ct |}.

(** The dictionaries of a tracker that [add] has fed: the keys are distinct,
    every key has its reference message and at least one occurrence. *)
Definition tracker_wf (t : MessageTracker Ts) : Prop :=
  NoDup (dict_keys (trk_messages t))
  /\ (forall g, In g (dict_keys (trk_messages t)) ->
                dict_get Ts_eq_dec (trk_ref_messages t) g <> None)
  /\ Forall (fun item => snd item <> []) (trk_messages t).

(** The text of a list of rows, a line each. *)
Definition lines_text (rows : list string) : string :=
  fold_right (fun row s => (row ++ String (ascii_of_nat 10) "" ++ s)%string)
             "" rows.

(** The segmenter on the stream of the rows that are read. *)
Definition segment (ref_message_id : string)
  (stream : list (string * Ts * Message Ts)) : list (MessageGroup Ts) :=
  fst (fold_left (dispatch ref_message_id) stream ([], None)).

Definition is_reference (ref_message_id : string)
  (entry : string * Ts * Message Ts) : bool :=
  String.eqb (fst (fst entry)) ref_message_id.

Definition reference_count (ref_message_id : string)
  (stream : list (string * Ts * Message Ts)) : nat :=
  List.length (filter (is_reference ref_message_id) stream).

Definition no_reference (ref_message_id : string)
  (stream : list (string * Ts * Message Ts)) : Prop :=
  Forall (fun e => is_reference ref_message_id e = false) stream.

(** The messages a group holds, over all its collections. *)
Definition group_messages (g : MessageGroup Ts) : list (Message Ts) :=
  flat_map (fun item => mtc_messages (snd item))
           (grp_message_type_collections g).

(** The id, with its bus, that the messages of the reference carry. *)
Definition reference_key (ref_bus ref_message_id : string) : string :=
  (ref_bus ++ ":" ++ ref_message_id)%string.

(** The reference message is the anchor of the group and of nothing else in
    it: it gives the time stamp and the reference message, and no
    collection of the group is keyed by its id or holds a message with its
    id. *)
Definition anchored (ref_bus ref_message_id : string) (g : MessageGroup Ts)
  : Prop :=
  msg_id (grp_ref_message g) = reference_key ref_bus ref_message_id
  /\ grp_ts g = msg_ts (grp_ref_message g)
  /\ Forall (fun item =>
               fst item <> reference_key ref_bus ref_message_id
               /\ Forall (fun m => msg_id m
                                   <> reference_key ref_bus ref_message_id)
                         (mtc_messages (snd item)))
            (grp_message_type_collections g).

(** The entry is taken as an occurrence of the reference message: it opens
    a group of its own. *)
Definition opens_group (ref_message_id : string) (st : load_state Ts)
  (entry : string * Ts * Message Ts) : Prop :=
  snd (dispatch ref_message_id st entry)
  = Some (MessageGroup_init (snd (fst entry)) (snd entry)).

(** The groups opened so far: the sealed ones and the open one. *)
Definition opened (st : load_state Ts) : nat :=
  List.length (fst st) + match snd st with Some _ => 1 | None => 0 end.

(** Every collection of the group holds a message. *)
Definition populated (g : MessageGroup Ts) : Prop :=
  Forall (fun item => mtc_messages (snd item) <> [])
         (grp_message_type_collections g).

(** The group has the id. *)
Definition has_id (message_id : string) (g : MessageGroup Ts) : bool :=
  if in_dec string_dec message_id (message_ids g) then true else false.

(** The keys of a dictionary after [d[k] = v] for a key [k]. *)
Definition add_key (ks : list Ts) (k : Ts) : list Ts :=
  if in_dec Ts_eq_dec k ks then ks else ks ++ [k].

(** The group keys a tracker of the id gets from the groups, in order. *)
Definition group_keys (message_id : string) (gs : list (MessageGroup Ts))
  : list Ts :=
  fold_left (fun ks g => if has_id message_id g then add_key ks (grp_ts g)
                         else ks) gs [].

(** What the dictionary of trackers holds for an id once the groups [gs]
    are done: nothing when no group has the id, otherwise the tracker of
    the id with a key for every group that has it. *)
Definition tracked (group_count : Z) (gs : list (MessageGroup Ts))
  (message_id : string) (entry : option (MessageTracker Ts)) : Prop :=
  match entry with
  | None => forall g, In g gs -> has_id message_id g = false
  | Some t =>
      trk_id t = message_id
      /\ trk_group_count t = group_count
      /\ dict_keys (trk_messages t) = group_keys message_id gs
      /\ exists g, In g gs /\ has_id message_id g = true
  end.

End Specification.

Section Rows.

Variable Ts : Type.
Variable Ts_ltb : Ts -> Ts -> bool.
Variable py_float : string -> option Ts.
Variable py_int : string -> option Z.

(** The stream of the rows that reach the segmenter. *)
Fixpoint read_rows (ref_bus : string) (start end_ : Ts)
  (rows : list (list string)) : result (list (string * Ts * Message Ts)) :=
  match rows with
  | [] => Ok []
  | row :: rows' =>
      let* entry := read_row Ts_ltb py_float py_int ref_bus start end_ row in
      let* stream := read_rows ref_bus start end_ rows' in
      Ok (match entry with
          | None => stream
          | Some e => e :: stream
          end)
  end.

End Rows.

(** Equal up to the case of the letters. *)
Definition lower (c : ascii) : ascii :=
  let n := nat_of_ascii c in
  if (65 <=? n)%nat && (n <=? 90)%nat then ascii_of_nat (n + 32) else c.

Fixpoint lower_string (s : string) : string :=
  match s with
  | EmptyString => EmptyString
  | String c s' => String (lower c) (lower_string s')
  end.

Definition same_up_to_case (s1 s2 : string) : Prop :=
  lower_string s1 = lower_string s2.

(** ** An instance for the examples

    Time stamps are whole seconds; [float] and [int] read decimal digits,
    [int(_, 16)] reads hexadecimal digits of either case. *)

Definition ex_dec (s : string) : option Z :=
  option_map Z.of_uint (DecimalString.NilZero.uint_of_string s).

Definition hex_digit (c : ascii) : option Z :=
  let n := nat_of_ascii c in
  if (48 <=? n)%nat && (n <=? 57)%nat then Some (Z.of_nat (n - 48))
  else if (97 <=? n)%nat && (n <=? 102)%nat then Some (Z.of_nat (n - 87))
  else if (65 <=? n)%nat && (n <=? 70)%nat then Some (Z.of_nat (n - 55))
  else None.

Fixpoint ex_hex_from (acc : Z) (s : string) : option Z :=
  match s with
  | EmptyString => Some acc
  | String c s' =>
      match hex_digit c with
      | Some d => ex_hex_from (16 * acc + d)%Z s'
      | None => None
      end
  end.

Definition ex_hex (s : string) : option Z :=
  match s with
  | EmptyString => None
  | _ => ex_hex_from 0%Z s
  end.

Definition ex_fmt (t : Z) : string :=
  (DecimalString.NilZero.string_of_int (Z.to_int t) ++ ".000")%string.

Definition ex_header : list string := ["time"; "addr"; "bus"; "data"].

(** Reference id [10] on bus [0]: two sealed groups, at 1 and at 6. *)
Definition ex_rows : list (list string) :=
  [ ex_header;
    ["1"; "0x10"; "0"; "0xaa"];
    ["2"; "0x20"; "0"; "0x00"];
    ["3"; "0x20"; "0"; "0x01"];
    ["4"; "0x30"; "0"; "0x00"];
    ["5"; "0x30"; "0"; "0x01"];
    ["6"; "0x10"; "0"; "0xab"];
    ["7"; "0x30"; "0"; "0x02"];
    ["8"; "0x10"; "0"; "0xac"];
    ["9"; "0x20"; "0"; "0x05"] ].

Definition ex_groups : list (MessageGroup Z) :=
  match load Z.ltb ex_dec ex_dec [] ex_rows "10" "0" 0%Z 100%Z with
  | Ok groups => groups
  | Raise _ => []
  end.

Definition ex_trackers : dict string (MessageTracker Z) :=
  match build_trackers Z.eq_dec ex_groups with
  | Ok d => d
  | Raise _ => []
  end.

Definition ex_message (ts : Z) (data : string) : Message Z :=
  Message_init "0:30" ts data.

(** The tracker of id [0:20]: in the first group only. *)
Definition ex_tracker_20 : MessageTracker Z :=
  {| trk_id := "0:20";
     trk_messages :=
       [(1%Z, [Message_init "0:20" 2%Z "00"; Message_init "0:20" 3%Z "01"])];
     trk_ref_messages := [(1%Z, Message_init "0:10" 1%Z "aa")];
     trk_group_count := 2 |}.

(** The tracker of id [0:30]: in both groups, once in the second. *)
Definition ex_tracker_30 : MessageTracker Z :=
  {| trk_id := "0:30";
     trk_messages :=
       [(1%Z, [ex_message 4 "00"; ex_message 5 "01"]);
        (6%Z, [ex_message 7 "02"])];
     trk_ref_messages :=
       [(1%Z, Message_init "0:10" 1%Z "aa");
        (6%Z, Message_init "0:10" 6%Z "ab")];
     trk_group_count := 2 |}.

(** A tracker whose id changes inside both groups. *)
Definition ex_tracker_40 : MessageTracker Z :=
  {| trk_id := "0:30";
     trk_messages :=
       [(1%Z, [ex_message 4 "00"; ex_message 5 "01"]);
        (6%Z, [ex_message 7 "02"; ex_message 7 "03"])];
     trk_ref_messages :=
       [(1%Z, Message_init "0:10" 1%Z "aa");
        (6%Z, Message_init "0:10" 6%Z "ab")];
     trk_group_count := 2 |}.

(** The stream of [ex_rows] that reaches the segmenter. *)
Definition ex_stream : list (string * Z * Message Z) :=
  match read_rows Z.ltb ex_dec ex_dec "0" 0%Z 100%Z (tl ex_rows) with
  | Ok stream => stream
  | Raise _ => []
  end.

(** The sequence with bit changes of the tracker of id [0:20]. *)
Definition ex_tuples_20 : list (Z * Message Z) :=
  [(1%Z, {| msg_id := "0:20"; msg_ts := 2%Z; msg_data := "00";
            msg_bit_changes := 0 |});
   (1%Z, {| msg_id := "0:20"; msg_ts := 3%Z; msg_data := "01";
            msg_bit_changes := 1 |})].

(** The sequence with bit changes of the tracker of id [0:30]. *)
Definition ex_tuples_30 : list (Z * Message Z) :=
  [(1%Z, {| msg_id := "0:30"; msg_ts := 4%Z; msg_data := "00";
            msg_bit_changes := 0 |});
   (1%Z, {| msg_id := "0:30"; msg_ts := 5%Z; msg_data := "01";
            msg_bit_changes := 1 |});
   (6%Z, {| msg_id := "0:30"; msg_ts := 7%Z; msg_data := "02";
            msg_bit_changes := 3 |})].

(** The second group of [ex_groups]: it has id [0:30] only. *)
Definition ex_group_6 : MessageGroup Z :=
  {| grp_ts := 6%Z;
     grp_ref_message := Message_init "0:10" 6%Z "ab";
     grp_message_type_collections :=
       [("0:30", {| mtc_id := "0:30";
                    mtc_messages := [ex_message 7 "02"] |})] |}.

(** A row whose id is the reference id [1a] in upper case. *)
Definition ex_row_upper : list string := ["1"; "0x1A"; "0"; "0x00"].

Definition ex_entry_upper : string * Z * Message Z :=
  ("1A", 1%Z, Message_init "0:1A" 1%Z "00").

(** ** More words for the properties of the program *)

Section Properties.

Variable Ts : Type.
Variable Ts_eq_dec : forall a b : Ts, {a = b} + {a <> b}.
Variable hex_int : string -> option Z.
Variable fmt_3f : Ts -> string.

(** No two neighbours of the list have the same payload text. *)
Fixpoint adjacent_distinct (ms : list (Message Ts)) : Prop :=
  match ms with
  | [] => True
  | m :: rest =>
      match rest with
      | [] => True
      | m' :: _ => msg_data m <> msg_data m'
      end /\ adjacent_distinct rest
  end.

(** [l1] is [l2] with some of its elements left out. *)
Inductive subseq (A : Type) : list A -> list A -> Prop :=
| subseq_nil : subseq [] []
| subseq_keep (x : A) (l1 l2 : list A) :
    subseq l1 l2 -> subseq (x :: l1) (x :: l2)
| subseq_skip (x : A) (l1 l2 : list A) :
    subseq l1 l2 -> subseq l1 (x :: l2).

(** The group a reference message opens, after the messages [ms] were
    added to it in this order. *)
Definition group_of (ts : Ts) (ref_message : Message Ts)
  (ms : list (Message Ts)) : MessageGroup Ts :=
  fold_left (@MessageGroup_add Ts) ms (MessageGroup_init ts ref_message).

(** The messages of [ms] with the id, in the order of [ms]. *)
Definition with_message_id (message_id : string) (ms : list (Message Ts))
  : list (Message Ts) :=
  filter (fun m => String.eqb (msg_id m) message_id) ms.

(** The messages of a group with their bit changes, [prev] being the
    occurrence before the group. *)
Fixpoint annotate_messages (prev : option (Message Ts))
  (ms : list (Message Ts)) : list (Message Ts) :=
  match ms with
  | [] => []
  | m :: rest =>
      {| msg_id := msg_id m; msg_ts := msg_ts m; msg_data := msg_data m;
         msg_bit_changes := delta hex_int m prev |}
      :: annotate_messages (Some m) rest
  end.

(** The occurrences of the groups with their bit changes, group by group;
    a group without occurrences has none. *)
Fixpoint group_runs (prev : option (Message Ts))
  (occurrences : dict Ts (list (Message Ts))) : list (list (Message Ts)) :=
  match occurrences with
  | [] => []
  | (g, ms) :: rest =>
      match ms with
      | [] => group_runs prev rest
      | _ :: _ =>
          annotate_messages prev ms
          :: group_runs (last_message prev ms) rest
      end
  end.

(** Some occurrence of the group differs, as a number, from the occurrence
    before it in the same group. *)
Definition changes_within (ms : list (Message Ts)) : bool :=
  match ms with
  | [] => false
  | m :: rest =>
      existsb (fun d => negb (d =? 0)%Z) (deltas hex_int (Some m) rest)
  end.

(** The deduplicated messages of the id in the group. *)
Definition occurrences_in (message_id : string) (g : MessageGroup Ts)
  : list (Message Ts) :=
  match dict_get string_dec (grp_message_type_collections g) message_id with
  | Some c => messages_with_change c
  | None => []
  end.

(** The tracker of an id over the groups [gs]: under the time stamp of every
    group that has the id, the deduplicated messages of the id in the group
    and the reference message of the group. *)
Definition tracker_of (group_count : Z) (message_id : string)
  (gs : list (MessageGroup Ts)) : MessageTracker Ts :=
  {| trk_id := message_id;
     trk_messages :=
       map (fun g => (grp_ts g, occurrences_in message_id g))
           (filter (has_id message_id) gs);
     trk_ref_messages :=
       map (fun g => (grp_ts g, grp_ref_message g))
           (filter (has_id message_id) gs);
     trk_group_count := group_count |}.

(** A group as the segmenter makes it: one collection for an id, and a
    message in every collection. *)
Definition group_wf (g : MessageGroup Ts) : Prop :=
  NoDup (message_ids g) /\ populated g.


(** Every message of the group satisfies [P]. *)
Definition group_messages_all (P : Message Ts -> Prop) (g : MessageGroup Ts)
  : Prop :=
  Forall (fun item => Forall P (mtc_messages (snd item)))
         (grp_message_type_collections g).



(** The messages of the id in [ms], when there is one only. *)
Definition singles (ms : list (Message Ts)) (message_id : string)
  : list (Message Ts) :=
  if Nat.eqb (List.length (with_message_id message_id ms)) 1
  then with_message_id message_id ms else [].

(** No other message of [ms] has the id of the message. *)
Definition once_in (ms : list (Message Ts)) (m : Message Ts) : bool :=
  Nat.eqb (List.length (with_message_id (msg_id m) ms)) 1.

(** The cell of a count in a row of the report, lines 180-181. *)
Definition count_cell (count x : Z) : string :=
  if (0 <? x)%Z && (x <? count)%Z then (fmt_02d x ++ "|")%string
  else "--|"%string.

(** The cells of the counts, one after the other. *)
Definition count_cells (count : Z) (counts : list Z) : string :=
  fold_right String.append ""%string (map (count_cell count) counts).

End Properties.

(** ** A second log for the examples

    Reference id [10] on bus [0]: two sealed groups, at 1 and at 5. Id
    [30] changes within both groups, id [20] is in the first group only. *)
Definition ex_rows_changing : list (list string) :=
  [ ex_header;
    ["1"; "0x10"; "0"; "0xaa"];
    ["2"; "0x30"; "0"; "0x00"];
    ["3"; "0x20"; "0"; "0x07"];
    ["4"; "0x30"; "0"; "0x01"];
    ["5"; "0x10"; "0"; "0xab"];
    ["6"; "0x30"; "0"; "0x02"];
    ["7"; "0x30"; "0"; "0x03"];
    ["8"; "0x10"; "0"; "0xac"] ].

(** The stream of [ex_rows_changing] that reaches the segmenter. *)
Definition ex_stream_changing : list (string * Z * Message Z) :=
  match read_rows Z.ltb ex_dec ex_dec "0" 0%Z 100%Z
          (tl ex_rows_changing) with
  | Ok stream => stream
  | Raise _ => []
  end.

Definition ex_groups_changing : list (MessageGroup Z) :=
  segment "10" ex_stream_changing.

(** ** Proofs *)

Unset Implicit Arguments.
Set Default Proof Using "Type".

Section Proofs.

Variable Ts : Type.
Variable Ts_eq_dec : forall a b : Ts, {a = b} + {a <> b}.
Variable Ts_ltb : Ts -> Ts -> bool.
Variable py_float : string -> option Ts.
Variable py_int : string -> option Z.
Variable hex_int : string -> option Z.
Variable fmt_3f : Ts -> string.

(** [tauto] on the goal and the hypotheses of the lemma alone. *)
Ltac ptauto :=
  try clear Ts_ltb; try clear py_float; try clear py_int; try clear fmt_3f;
  try clear hex_int; try clear Ts_eq_dec; tauto.

(** *** Loops *)

Lemma foldM_app (A B : Type) (f : A -> B -> result A) (l1 l2 : list B)
  (acc : A) :
  foldM f (l1 ++ l2) acc = let* acc' := foldM f l1 acc in foldM f l2 acc'.
Proof.
  revert acc. induction l1 as [|x l1 IH]; intros acc; simpl; [reflexivity|].
  destruct (f acc x) as [acc'|e]; simpl; [apply IH | reflexivity].
Qed.

Lemma foldM_total (A B : Type) (f : A -> B -> result A) (g : A -> B -> A)
  (l : list B) (acc : A) :
  (forall a x, f a x = Ok (g a x)) ->
  foldM f l acc = Ok (fold_left g l acc).
Proof.
  intros Hf. revert acc. induction l as [|x l IH]; intros acc; simpl.
  - reflexivity.
  - rewrite Hf. simpl. apply IH.
Qed.

(** *** Deduplication *)

Lemma keep_changed_twice (l : list (Message Ts)) :
  fold_left (@keep_changed Ts) (fold_left (@keep_changed Ts) l []) []
  = fold_left (@keep_changed Ts) l [].
Proof.
  induction l as [|x l IH] using rev_ind; [reflexivity|].
  rewrite fold_left_app. simpl.
  set (kept := fold_left (@keep_changed Ts) l []) in *.
  assert (Hstep : keep_changed kept x
                  = if Nat.eqb (List.length kept) 0
                       || negb (String.eqb (msg_data x)
                                           (msg_data (last kept x)))
                    then kept ++ [x] else kept) by reflexivity.
  destruct (Nat.eqb (List.length kept) 0
            || negb (String.eqb (msg_data x) (msg_data (last kept x))));
    rewrite Hstep.
  - rewrite fold_left_app, IH. simpl. exact Hstep.
  - exact IH.
Qed.

(** C7. Deduplication is idempotent: [messages_with_change] on a collection
    whose messages are already the result of [messages_with_change] gives
    that same sequence. *)
Theorem messages_with_change_idempotent (c : MessageTypeCollection Ts) :
  messages_with_change
    {| mtc_id := mtc_id c; mtc_messages := messages_with_change c |}
  = messages_with_change c.
Proof.
  unfold messages_with_change. simpl. apply keep_changed_twice.
Qed.

(** *** Bits and toggle counts *)

Arguments range_64_down : simpl never.
Arguments toggle_counts : simpl never.
Arguments flips : simpl never.

Lemma land_pow2_testbit (k x : Z) :
  (0 <= k)%Z -> (Z.land (2 ^ k) x =? 0)%Z = negb (Z.testbit x k).
Proof.
  intros Hk. destruct (Z.testbit x k) eqn:E; simpl.
  - apply Z.eqb_neq. intros H0.
    assert (Hb : Z.testbit (Z.land (2 ^ k) x) k = true).
    { rewrite Z.land_spec, Z.pow2_bits_true, E by assumption. reflexivity. }
    rewrite H0, Z.bits_0 in Hb. discriminate.
  - apply Z.eqb_eq. apply Z.bits_inj'. intros n Hn.
    rewrite Z.land_spec, Z.bits_0, Z.pow2_bits_eqb by assumption.
    destruct (Z.eqb_spec k n) as [->|_]; [rewrite E|]; reflexivity.
Qed.

Lemma combine_map_same (A B C : Type) (f : A -> B) (g : A -> C) (l : list A) :
  combine (map f l) (map g l) = map (fun x => (f x, g x)) l.
Proof.
  induction l as [|x l IH]; simpl; [reflexivity | now rewrite IH].
Qed.

Lemma In_range_64_down (i : Z) : In i range_64_down -> (1 <= i <= 64)%Z.
Proof.
  unfold range_64_down. rewrite in_map_iff. intros [k [<- Hk]].
  apply in_seq in Hk. lia.
Qed.

Lemma flips_snoc (b : Z) (ds : list Z) (d : Z) :
  flips b (ds ++ [d]) = (flips b ds + (if Z.testbit d b then 1 else 0))%Z.
Proof.
  unfold flips. rewrite filter_app, length_app. simpl.
  destruct (Z.testbit d b); simpl; lia.
Qed.

Lemma flips_bounds (b : Z) (ds : list Z) :
  (0 <= flips b ds <= Z.of_nat (List.length ds))%Z.
Proof.
  unfold flips. pose proof (filter_length_le (fun d => Z.testbit d b) ds). lia.
Qed.

Lemma toggle_counts_nil : toggle_counts [] = repeat 0%Z 64.
Proof. reflexivity. Qed.

Lemma nth_map_seq (A : Type) (F : nat -> A) (n len : nat) (d : A) :
  (n < len)%nat -> nth n (map F (seq 0 len)) d = F n.
Proof.
  intros Hn.
  rewrite (nth_indep _ d (F 0%nat)) by (rewrite length_map, length_seq; lia).
  rewrite map_nth, seq_nth by lia. reflexivity.
Qed.

Lemma nth_toggle_counts (k : nat) (ds : list Z) :
  (k < 64)%nat -> nth (63 - k) (toggle_counts ds) 0%Z = flips (Z.of_nat k) ds.
Proof.
  intros Hk. unfold toggle_counts, range_64_down. rewrite map_map.
  rewrite nth_map_seq by lia. f_equal. lia.
Qed.

Lemma toggle_counts_bounds (ds : list Z) :
  Forall (fun c => (0 <= c <= Z.of_nat (List.length ds))%Z) (toggle_counts ds).
Proof.
  unfold toggle_counts. apply Forall_forall. intros c Hc.
  apply in_map_iff in Hc. destruct Hc as [i [<- _]]. apply flips_bounds.
Qed.

(** A change tracker as [__init__] and [track_changes_to] keep it: the
    comparers are the powers of two, bit 63 first, and the counts are the
    toggle counts of the differences seen so far. *)
Lemma track_changes_to_counts (self : MessageChangeTracker Ts)
  (message : Message Ts) (ds : list Z) (d : Z) :
  mct_bit_comparers self = map (fun i => (2 ^ (i - 1))%Z) range_64_down ->
  mct_bit_changes_count self = toggle_counts ds ->
  bit_changes_from hex_int message (mct_base_message self) = Ok d ->
  exists self',
    track_changes_to hex_int self message = Ok self'
    /\ mct_bit_comparers self' = mct_bit_comparers self
    /\ mct_bit_changes_count self' = toggle_counts (ds ++ [d])
    /\ mct_base_message self' = Some message
    /\ mct_ref_message self' = mct_ref_message self
    /\ mct_group_ts self' = mct_group_ts self
    /\ mct_id self' = mct_id self.
Proof.
  intros Hcmp Hcnt Hd. unfold track_changes_to. rewrite Hd. simpl.
  eexists. split; [reflexivity|]. simpl. repeat split.
  rewrite Hcmp, Hcnt. unfold toggle_counts.
  rewrite map_map, combine_map_same, map_map. apply map_ext_in.
  intros i Hi. apply In_range_64_down in Hi. simpl.
  rewrite flips_snoc, land_pow2_testbit by lia.
  destruct (Z.testbit d (i - 1)); reflexivity.
Qed.

Lemma bit_changes_from_delta (message : Message Ts)
  (base : option (Message Ts)) :
  has_payload hex_int message ->
  (forall b, base = Some b -> has_payload hex_int b) ->
  bit_changes_from hex_int message base = Ok (delta hex_int message base).
Proof.
  intros Hm Hb. destruct base as [b|]; simpl; [|reflexivity].
  specialize (Hb b eq_refl). unfold has_payload, payload in *.
  destruct (hex_int (msg_data message)); [|congruence].
  destruct (hex_int (msg_data b)); [|congruence]. reflexivity.
Qed.

Lemma last_message_has_payload (prior : option (Message Ts))
  (ms : list (Message Ts)) :
  (forall b, prior = Some b -> has_payload hex_int b) ->
  Forall (has_payload hex_int) ms ->
  forall b, last_message prior ms = Some b -> has_payload hex_int b.
Proof.
  revert prior. induction ms as [|m ms IH]; intros prior Hp Hms b; simpl.
  - apply Hp.
  - inversion Hms; subst. apply IH; [|assumption].
    intros b' Hb'. injection Hb' as <-. assumption.
Qed.

(** The loop of [track_changes_to] over the occurrences of a group. *)
Lemma track_changes_fold (ms : list (Message Ts)) :
  forall (self : MessageChangeTracker Ts) (ds : list Z),
  mct_bit_comparers self = map (fun i => (2 ^ (i - 1))%Z) range_64_down ->
  mct_bit_changes_count self = toggle_counts ds ->
  (forall b, mct_base_message self = Some b -> has_payload hex_int b) ->
  Forall (has_payload hex_int) ms ->
  exists self',
    foldM (track_changes_to hex_int) ms self = Ok self'
    /\ mct_bit_comparers self' = mct_bit_comparers self
    /\ mct_bit_changes_count self'
       = toggle_counts (ds ++ deltas hex_int (mct_base_message self) ms)
    /\ mct_base_message self' = last_message (mct_base_message self) ms
    /\ mct_ref_message self' = mct_ref_message self
    /\ mct_group_ts self' = mct_group_ts self
    /\ mct_id self' = mct_id self.
Proof.
  induction ms as [|m ms IH]; intros self ds Hcmp Hcnt Hbase Hms.
  - exists self. simpl. rewrite app_nil_r. repeat split; assumption.
  - inversion Hms as [|m' ms' Hm Hms']; subst.
    destruct (track_changes_to_counts self m ds _ Hcmp Hcnt
                (bit_changes_from_delta m (mct_base_message self) Hm Hbase))
      as [s1 [E1 [C1 [N1 [B1 [R1 [G1 I1]]]]]]].
    destruct (IH s1 (ds ++ [delta hex_int m (mct_base_message self)]))
      as [s2 [E2 [C2 [N2 [B2 [R2 [G2 I2]]]]]]].
    + congruence.
    + assumption.
    + rewrite B1. intros b Hb. injection Hb as <-. assumption.
    + assumption.
    + exists s2. simpl. rewrite E1. simpl. rewrite E2.
      rewrite B1 in N2, B2. rewrite <- app_assoc in N2. simpl in N2.
      repeat split; congruence.
Qed.

(** C3. Toggle-count symmetry. After any [n] steps of [track_changes_to]
    from a new change tracker, every count lies between 0 and [n]; and a
    further step from an occurrence with the 64-bit payload [a] to one with
    the 64-bit payload [b] adds exactly 1 to the counts of the bits set in
    [a XOR b] and leaves the other counts as they were. The count of bit
    [k] is entry [63 - k] of the vector. *)
Theorem toggle_count_symmetry (group_ts : Ts) (message_id : string)
  (ref_message : Message Ts) (base0 : option (Message Ts))
  (ms : list (Message Ts)) :
  (forall b, base0 = Some b -> has_payload hex_int b) ->
  Forall (has_payload hex_int) ms ->
  exists self,
    foldM (track_changes_to hex_int) ms
      (MessageChangeTracker_init group_ts message_id ref_message base0)
    = Ok self
    /\ Forall (fun c => (0 <= c <= Z.of_nat (List.length ms))%Z)
              (mct_bit_changes_count self)
    /\ forall (base message : Message Ts) (a b : Z),
         mct_base_message self = Some base ->
         hex_int (msg_data base) = Some a -> (0 <= a < 2 ^ 64)%Z ->
         hex_int (msg_data message) = Some b -> (0 <= b < 2 ^ 64)%Z ->
         exists self',
           track_changes_to hex_int self message = Ok self'
           /\ (forall k, (k < 64)%nat ->
                 nth (63 - k) (mct_bit_changes_count self') 0%Z
                 = (nth (63 - k) (mct_bit_changes_count self) 0
                    + (if Z.testbit (Z.lxor a b) (Z.of_nat k) then 1 else 0))%Z)
           /\ (forall k, Z.testbit (Z.lxor a b) k = true -> (0 <= k < 64)%Z).
Proof.
  intros Hbase Hms.
  destruct (track_changes_fold ms
              (MessageChangeTracker_init group_ts message_id ref_message base0)
              [] eq_refl eq_refl Hbase Hms)
    as [self [E [C [N [B _]]]]].
  exists self. split; [exact E|]. simpl in N, C. split.
  - rewrite N.
    replace (List.length ms) with (List.length (deltas hex_int base0 ms)).
    + apply toggle_counts_bounds.
    + clear. revert base0. induction ms as [|m ms IH]; intros base0; simpl;
        [reflexivity | now rewrite IH].
  - intros base message a b Hb Ha Ra Hb' Rb.
    assert (Hd : bit_changes_from hex_int message (mct_base_message self)
                 = Ok (Z.lxor b a)).
    { rewrite Hb. simpl. rewrite Hb', Ha. reflexivity. }
    destruct (track_changes_to_counts self message _ _ C N Hd)
      as [self' [E' [_ [N' _]]]].
    exists self'. split; [exact E'|]. split.
    + intros k Hk. rewrite N', N, !nth_toggle_counts by assumption.
      rewrite flips_snoc, (Z.lxor_comm a b). reflexivity.
    + intros k Hk.
      destruct (Z.lt_ge_cases k 0) as [Hneg|Hpos].
      { rewrite Z.testbit_neg_r in Hk by assumption. discriminate. }
      split; [assumption|].
      destruct (Z.lt_ge_cases k 64) as [|Hge]; [assumption|].
      rewrite Z.lxor_spec in Hk.
      assert (Hlog : forall x, (0 <= x < 2 ^ 64)%Z -> (Z.log2 x < k)%Z).
      { intros x Hx. destruct (Z.eq_dec x 0) as [->|Hx0].
        - change (Z.log2 0) with 0%Z. lia.
        - assert (Z.log2 x < 64)%Z by (apply Z.log2_lt_pow2; lia). lia. }
      rewrite (Z.bits_above_log2 a k), (Z.bits_above_log2 b k) in Hk
        by (try apply Hlog; lia).
      discriminate.
Qed.

(** *** Dictionaries *)

Section DictFacts.
Variables K V : Type.
Variable K_eq_dec : forall a b : K, {a = b} + {a <> b}.
Implicit Types (d : dict K V) (k : K) (v : V).

Lemma dict_get_None d k :
  dict_get K_eq_dec d k = None <-> ~ In k (dict_keys d).
Proof.
  induction d as [|[k' v'] d IH]; simpl.
  - ptauto.
  - destruct (K_eq_dec k' k) as [->|Hne].
    + split; [discriminate | ptauto].
    + rewrite IH. ptauto.
Qed.

Lemma dict_get_Some_In d k v :
  dict_get K_eq_dec d k = Some v -> In (k, v) d.
Proof.
  induction d as [|[k' v'] d IH]; simpl; [discriminate|].
  destruct (K_eq_dec k' k) as [->|Hne].
  - intros H. injection H as ->. now left.
  - intros H. right. now apply IH.
Qed.

Lemma dict_get_In d k :
  In k (dict_keys d) -> exists v, dict_get K_eq_dec d k = Some v.
Proof.
  intros Hin. destruct (dict_get K_eq_dec d k) as [v|] eqn:E.
  - now exists v.
  - apply dict_get_None in E. contradiction.
Qed.

Lemma dict_get_NoDup d k v :
  NoDup (dict_keys d) -> In (k, v) d -> dict_get K_eq_dec d k = Some v.
Proof.
  induction d as [|[k' v'] d IH]; simpl; [ptauto|].
  intros Hnd [Heq|Hin].
  - injection Heq as -> ->. destruct (K_eq_dec k k); [reflexivity|congruence].
  - inversion Hnd as [|? ? Hnot Hnd']; subst.
    destruct (K_eq_dec k' k) as [->|Hne].
    + exfalso. apply Hnot. change k with (fst (k, v)). now apply in_map.
    + now apply IH.
Qed.

Lemma dict_mem_true d k :
  dict_mem K_eq_dec d k = true <-> In k (dict_keys d).
Proof.
  unfold dict_mem. destruct (dict_get K_eq_dec d k) eqn:E.
  - split; [|reflexivity]. intros _.
    apply dict_get_Some_In in E. change k with (fst (k, v)). now apply in_map.
  - apply dict_get_None in E. split; [discriminate | contradiction].
Qed.

Lemma dict_mem_false d k :
  dict_mem K_eq_dec d k = false <-> ~ In k (dict_keys d).
Proof.
  rewrite <- dict_mem_true. destruct (dict_mem K_eq_dec d k); split;
    congruence.
Qed.

Lemma dict_set_new d k v :
  ~ In k (dict_keys d) -> dict_set K_eq_dec d k v = d ++ [(k, v)].
Proof.
  induction d as [|[k' v'] d IH]; simpl; intros Hnot; [reflexivity|].
  destruct (K_eq_dec k' k) as [->|Hne]; [ptauto|].
  rewrite IH by ptauto. reflexivity.
Qed.

Lemma dict_set_last d k v v' :
  ~ In k (dict_keys d) ->
  dict_set K_eq_dec (d ++ [(k, v)]) k v' = d ++ [(k, v')].
Proof.
  induction d as [|[k1 v1] d IH]; simpl; intros Hnot.
  - destruct (K_eq_dec k k); [reflexivity | congruence].
  - destruct (K_eq_dec k1 k) as [->|Hne]; [ptauto|].
    rewrite IH by ptauto. reflexivity.
Qed.

Lemma dict_get_last d k v :
  ~ In k (dict_keys d) -> dict_get K_eq_dec (d ++ [(k, v)]) k = Some v.
Proof.
  induction d as [|[k1 v1] d IH]; simpl; intros Hnot.
  - destruct (K_eq_dec k k); [reflexivity | congruence].
  - destruct (K_eq_dec k1 k) as [->|Hne]; [ptauto|]. apply IH. ptauto.
Qed.

Lemma dict_keys_set d k v :
  dict_keys (dict_set K_eq_dec d k v)
  = if dict_mem K_eq_dec d k then dict_keys d else dict_keys d ++ [k].
Proof.
  induction d as [|[k1 v1] d IH]; simpl; [reflexivity|].
  unfold dict_mem in *. simpl.
  destruct (K_eq_dec k1 k) as [->|Hne]; [reflexivity|].
  simpl. rewrite IH. destruct (dict_get K_eq_dec d k); reflexivity.
Qed.

Lemma dict_get_set_same d k v :
  dict_get K_eq_dec (dict_set K_eq_dec d k v) k = Some v.
Proof.
  induction d as [|[k1 v1] d IH]; simpl.
  - destruct (K_eq_dec k k); [reflexivity | congruence].
  - destruct (K_eq_dec k1 k) as [->|Hne]; simpl.
    + destruct (K_eq_dec k k); [reflexivity | congruence].
    + destruct (K_eq_dec k1 k); [contradiction | exact IH].
Qed.

Lemma dict_get_set_other d k k' v :
  k <> k' ->
  dict_get K_eq_dec (dict_set K_eq_dec d k v) k' = dict_get K_eq_dec d k'.
Proof.
  intros Hne. induction d as [|[k1 v1] d IH]; simpl.
  - destruct (K_eq_dec k k'); [contradiction | reflexivity].
  - destruct (K_eq_dec k1 k) as [->|Hne1]; simpl.
    + destruct (K_eq_dec k k'); [contradiction | reflexivity].
    + destruct (K_eq_dec k1 k'); [reflexivity | exact IH].
Qed.

End DictFacts.

(** *** The change trackers of a tracker *)

(** A message of a group whose change tracker is the last one made. *)
Lemma change_trackers_step_same (t : MessageTracker Ts)
  (prev : option (Message Ts)) (cts : dict Ts (MessageChangeTracker Ts))
  (g : Ts) (ct ct' : MessageChangeTracker Ts) (m : Message Ts) :
  ~ In g (dict_keys cts) ->
  track_changes_to hex_int ct m = Ok ct' ->
  change_trackers_step Ts_eq_dec hex_int t (prev, cts ++ [(g, ct)]) (g, m)
  = Ok (Some m, cts ++ [(g, ct')]).
Proof.
  intros Hnot Htrack. unfold change_trackers_step.
  assert (Hmem : dict_mem Ts_eq_dec (cts ++ [(g, ct)]) g = true).
  { unfold dict_mem. now rewrite dict_get_last. }
  rewrite Hmem. simpl. rewrite dict_get_last by assumption. simpl.
  rewrite Htrack. simpl. rewrite dict_set_last by assumption. reflexivity.
Qed.

(** The first message of a group: its change tracker is made, with the last
    message before the group as base. *)
Lemma change_trackers_step_new (t : MessageTracker Ts)
  (prev : option (Message Ts)) (cts : dict Ts (MessageChangeTracker Ts))
  (g : Ts) (r : Message Ts) (ct' : MessageChangeTracker Ts) (m : Message Ts) :
  ~ In g (dict_keys cts) ->
  dict_get Ts_eq_dec (trk_ref_messages t) g = Some r ->
  track_changes_to hex_int
    (MessageChangeTracker_init g (trk_id t) r prev) m = Ok ct' ->
  change_trackers_step Ts_eq_dec hex_int t (prev, cts) (g, m)
  = Ok (Some m, cts ++ [(g, ct')]).
Proof.
  intros Hnot Href Htrack. unfold change_trackers_step.
  assert (Hmem : dict_mem Ts_eq_dec cts g = false)
    by now apply dict_mem_false.
  rewrite Hmem, Href. simpl. rewrite dict_set_new by assumption.
  rewrite dict_get_last by assumption. simpl.
  rewrite Htrack. simpl. rewrite dict_set_last by assumption. reflexivity.
Qed.

Lemma track_changes_to_base (ct ct' : MessageChangeTracker Ts)
  (m : Message Ts) :
  track_changes_to hex_int ct m = Ok ct' -> mct_base_message ct' = Some m.
Proof.
  unfold track_changes_to.
  destruct (bit_changes_from hex_int m (mct_base_message ct)); [|discriminate].
  cbn [bind]. intros H. injection H as <-. reflexivity.
Qed.

Lemma change_trackers_rest (t : MessageTracker Ts) (g : Ts)
  (cts : dict Ts (MessageChangeTracker Ts)) (ms : list (Message Ts)) :
  ~ In g (dict_keys cts) ->
  forall (prev : option (Message Ts)) (ct ct' : MessageChangeTracker Ts),
  mct_base_message ct = prev ->
  foldM (track_changes_to hex_int) ms ct = Ok ct' ->
  foldM (change_trackers_step Ts_eq_dec hex_int t)
        (map (fun message => (g, message)) ms) (prev, cts ++ [(g, ct)])
  = Ok (last_message prev ms, cts ++ [(g, ct')]).
Proof.
  intros Hnot. induction ms as [|m ms IH]; intros prev ct ct' Hbase Hfold.
  - simpl in *. injection Hfold as ->. reflexivity.
  - simpl in Hfold.
    destruct (track_changes_to hex_int ct m) as [ct1|e] eqn:E1;
      [|discriminate].
    simpl in Hfold. cbn [map foldM].
    rewrite (change_trackers_step_same t prev cts g ct ct1 m Hnot E1).
    cbn [bind last_message]. apply IH; [|assumption].
    exact (track_changes_to_base ct ct1 m E1).
Qed.

(** The messages of one group the id occurs in: one change tracker more. *)
Lemma change_trackers_group (t : MessageTracker Ts) (g : Ts) (r : Message Ts)
  (cts : dict Ts (MessageChangeTracker Ts)) (prior : option (Message Ts))
  (m : Message Ts) (ms : list (Message Ts)) :
  ~ In g (dict_keys cts) ->
  dict_get Ts_eq_dec (trk_ref_messages t) g = Some r ->
  (forall b, prior = Some b -> has_payload hex_int b) ->
  Forall (has_payload hex_int) (m :: ms) ->
  exists ct,
    foldM (change_trackers_step Ts_eq_dec hex_int t)
          (map (fun message => (g, message)) (m :: ms)) (prior, cts)
    = Ok (last_message prior (m :: ms), cts ++ [(g, ct)])
    /\ record_of ct
       = {| cr_group := g;
            cr_toggle_counts := toggle_counts (deltas hex_int prior (m :: ms));
            cr_reference_message := Some r;
            cr_running_baseline := last_message prior (m :: ms) |}.
Proof.
  intros Hnot Href Hprior Hms.
  destruct (track_changes_fold (m :: ms)
              (MessageChangeTracker_init g (trk_id t) r prior) []
              eq_refl eq_refl Hprior Hms)
    as [ct [E [_ [N [B [R [G _]]]]]]].
  exists ct. split.
  - cbn [foldM] in E.
    destruct (track_changes_to hex_int
                (MessageChangeTracker_init g (trk_id t) r prior) m)
      as [ct1|e] eqn:E1; [|discriminate].
    cbn [bind] in E. cbn [map foldM].
    rewrite (change_trackers_step_new t prior cts g r ct1 m Hnot Href E1).
    cbn [bind last_message].
    apply change_trackers_rest; [assumption| |assumption].
    exact (track_changes_to_base _ ct1 m E1).
  - unfold record_of. rewrite N, B, R, G. reflexivity.
Qed.

Lemma change_trackers_all (t : MessageTracker Ts) :
  forall (occ : dict Ts (list (Message Ts)))
         (prior : option (Message Ts))
         (cts : dict Ts (MessageChangeTracker Ts)),
  NoDup (dict_keys occ) ->
  (forall g, In g (dict_keys occ) -> ~ In g (dict_keys cts)) ->
  (forall g, In g (dict_keys occ) ->
             dict_get Ts_eq_dec (trk_ref_messages t) g <> None) ->
  (forall b, prior = Some b -> has_payload hex_int b) ->
  Forall (fun item => Forall (has_payload hex_int) (snd item)) occ ->
  exists st new,
    foldM (change_trackers_step Ts_eq_dec hex_int t)
          (flat_map (fun item : Ts * list (Message Ts) =>
                       map (fun message => (fst item, message)) (snd item))
                    occ)
          (prior, cts)
    = Ok (st, cts ++ new)
    /\ map (@record_of Ts) (dict_values new)
       = change_records Ts_eq_dec hex_int (trk_ref_messages t) prior occ.
Proof.
  induction occ as [|[g ms] occ IH];
    intros prior cts Hnd Hfresh Hrefs Hprior Hpay.
  - exists prior, []. simpl. rewrite app_nil_r. split; reflexivity.
  - inversion Hnd as [|? ? Hg Hnd']; subst.
    inversion Hpay as [|? ? Hms Hpay']; subst. simpl in Hms.
    destruct ms as [|m ms].
    + simpl. apply IH; try assumption.
      * intros g' Hg'. apply Hfresh. now right.
      * intros g' Hg'. apply Hrefs. now right.
    + destruct (dict_get Ts_eq_dec (trk_ref_messages t) g) as [r|] eqn:Href.
      2:{ exfalso. apply (Hrefs g); [now left | assumption]. }
      destruct (change_trackers_group t g r cts prior m ms
                  (Hfresh g (or_introl eq_refl)) Href Hprior Hms)
        as [ct [E Hrec]].
      destruct (IH (last_message prior (m :: ms)) (cts ++ [(g, ct)]))
        as [st [new [E' Hnew]]]; try assumption.
      * intros g' Hg'. unfold dict_keys. rewrite map_app, in_app_iff.
        simpl. intros [Hin|[<-|[]]].
        -- apply (Hfresh g'); [now right | assumption].
        -- contradiction.
      * intros g' Hg'. apply Hrefs. now right.
      * apply last_message_has_payload; assumption.
      * exists st, ((g, ct) :: new). split.
        -- cbn [flat_map fst snd]. rewrite foldM_app, E. cbn [bind].
           rewrite <- app_assoc in E'. exact E'.
        -- cbn [dict_values map snd change_records]. rewrite Href.
           unfold dict_values in Hnew. rewrite Hnew, Hrec. reflexivity.
Qed.

Lemma change_records_groups (refs : dict Ts (Message Ts)) :
  forall (occ : dict Ts (list (Message Ts))) (prior : option (Message Ts)),
  Forall (fun item => snd item <> []) occ ->
  map (@cr_group Ts) (change_records Ts_eq_dec hex_int refs prior occ)
  = dict_keys occ.
Proof.
  induction occ as [|[g ms] occ IH]; intros prior Hne; [reflexivity|].
  inversion Hne as [|? ? Hms Hne']; subst. simpl in Hms.
  destruct ms as [|m ms]; [congruence|].
  cbn [change_records map cr_group dict_keys fst]. f_equal.
  apply IH. assumption.
Qed.

Lemma payloads_of_tuples (t : MessageTracker Ts) :
  (forall g m, In (g, m) (group_message_tuples t) -> has_payload hex_int m) ->
  Forall (fun item => Forall (has_payload hex_int) (snd item))
         (trk_messages t).
Proof.
  intros H. apply Forall_forall. intros [g ms] Hin. simpl.
  apply Forall_forall. intros m Hm. apply (H g).
  unfold group_message_tuples. apply in_flat_map.
  exists (g, ms). split; [assumption|]. simpl.
  apply in_map_iff. now exists m.
Qed.

(** The change trackers of a tracker that [add] has fed. *)
Lemma group_change_trackers_records (t : MessageTracker Ts) :
  tracker_wf Ts_eq_dec t ->
  (forall g m, In (g, m) (group_message_tuples t) -> has_payload hex_int m) ->
  exists trackers,
    group_change_trackers Ts_eq_dec hex_int t = Ok trackers
    /\ map (@mct_group_ts Ts) trackers = dict_keys (trk_messages t)
    /\ map (@record_of Ts) trackers
       = change_records Ts_eq_dec hex_int (trk_ref_messages t) None
           (trk_messages t).
Proof.
  intros [Hnd [Hrefs Hne]] Hpay.
  destruct (change_trackers_all t (trk_messages t) None [] Hnd)
    as [st [new [E Hnew]]].
  - intros g _ [].
  - assumption.
  - discriminate.
  - now apply payloads_of_tuples.
  - exists (dict_values new). unfold group_change_trackers.
    match goal with
    | |- context [foldM ?f ?l ?a] =>
        replace (foldM f l a) with (Ok (st, new)) by (symmetry; exact E)
    end.
    cbn [bind snd]. split; [reflexivity|]. split; [|exact Hnew].
    rewrite <- (change_records_groups (trk_ref_messages t)
                  (trk_messages t) None Hne).
    rewrite <- Hnew, map_map. reflexivity.
Qed.

(** C2. Cross-group baseline chaining. For a tracker as [add] feeds it,
    whose payloads can be read, [group_change_trackers] returns one change
    tracker for every group key, in the order of the keys. The counts of a
    group are the toggle counts of the chained differences of its
    occurrences; the first difference is taken from the last occurrence of
    the group before, and from nothing, which gives zero, in the first
    group. *)
Theorem group_change_trackers_chained (t : MessageTracker Ts) :
  tracker_wf Ts_eq_dec t ->
  (forall g m, In (g, m) (group_message_tuples t) -> has_payload hex_int m) ->
  exists trackers,
    group_change_trackers Ts_eq_dec hex_int t = Ok trackers
    /\ map (@mct_group_ts Ts) trackers = dict_keys (trk_messages t)
    /\ map (@record_of Ts) trackers
       = change_records Ts_eq_dec hex_int (trk_ref_messages t) None
           (trk_messages t)
    /\ (forall (m : Message Ts) ms,
          deltas hex_int None (m :: ms) = 0%Z :: deltas hex_int (Some m) ms)
    /\ (forall b ds, flips b (0%Z :: ds) = flips b ds).
Proof.
  intros Hwf Hpay.
  destruct (group_change_trackers_records t Hwf Hpay)
    as [trackers [E [Hkeys Hrec]]].
  exists trackers. repeat split; try assumption.
  intros b ds. unfold flips. simpl. rewrite Z.bits_0. reflexivity.
Qed.

(** *** The sequence with bit changes *)

Lemma readable_chain_data (l : list (Ts * Message Ts)) :
  forall p p' : Message Ts,
  msg_data p = msg_data p' ->
  readable_chain hex_int (Some p) l -> readable_chain hex_int (Some p') l.
Proof.
  destruct l as [|[g m] l]; intros p p' Hd; simpl; [trivial|].
  unfold has_payload. rewrite Hd. trivial.
Qed.

Lemma annotated_data (l : list (Ts * Message Ts)) :
  forall p p' : Message Ts,
  msg_data p = msg_data p' ->
  annotated hex_int (Some p) l = annotated hex_int (Some p') l.
Proof.
  destruct l as [|[g m] l]; intros p p' Hd; simpl; [reflexivity|].
  unfold payload. rewrite Hd. reflexivity.
Qed.

Lemma with_bit_changes_Ok (m : Message Ts) (prev : option (Message Ts)) :
  match prev with
  | None => True
  | Some p => has_payload hex_int m /\ has_payload hex_int p
  end ->
  with_bit_changes hex_int m prev
  = Ok {| msg_id := msg_id m; msg_ts := msg_ts m; msg_data := msg_data m;
          msg_bit_changes := delta hex_int m prev |}.
Proof.
  unfold with_bit_changes. destruct prev as [p|]; [|reflexivity].
  intros [Hm Hp]. rewrite bit_changes_from_delta; [reflexivity|assumption|].
  intros b Hb. injection Hb as <-. assumption.
Qed.

Lemma with_bit_changes_inv (m m1 : Message Ts) (prev : option (Message Ts)) :
  with_bit_changes hex_int m prev = Ok m1 ->
  match prev with
  | None => True
  | Some p => has_payload hex_int m /\ has_payload hex_int p
  end.
Proof.
  unfold with_bit_changes, bit_changes_from, has_payload.
  destruct prev as [p|]; [|trivial].
  destruct (hex_int (msg_data m)); [|discriminate].
  destruct (hex_int (msg_data p)); [|discriminate].
  intros _. split; discriminate.
Qed.

Lemma tuples_loop_Ok (l : list (Ts * Message Ts)) :
  forall (acc : list (Ts * Message Ts)) (last : option (Message Ts)),
  readable_chain hex_int last l ->
  exists last1,
    foldM (with_bit_changes_step hex_int) l (acc, last)
    = Ok (acc ++ annotated hex_int last l, last1).
Proof.
  induction l as [|[g m] l IH]; intros acc last Hr.
  - exists last. simpl. rewrite app_nil_r. reflexivity.
  - destruct Hr as [Hm Hr]. cbn [foldM with_bit_changes_step].
    rewrite (with_bit_changes_Ok m last Hm). cbn [bind].
    set (m1 := {| msg_id := msg_id m; msg_ts := msg_ts m;
                  msg_data := msg_data m;
                  msg_bit_changes := delta hex_int m last |}).
    destruct (IH (acc ++ [(g, m1)]) (Some m1)) as [last1 E].
    + apply (readable_chain_data l m m1); [reflexivity | assumption].
    + exists last1. rewrite E, <- app_assoc. reflexivity.
Qed.

Lemma tuples_loop_inv (l : list (Ts * Message Ts)) :
  forall (acc : list (Ts * Message Ts)) (last : option (Message Ts)) st,
  foldM (with_bit_changes_step hex_int) l (acc, last) = Ok st ->
  readable_chain hex_int last l.
Proof.
  induction l as [|[g m] l IH]; intros acc last st E; [exact I|].
  cbn [foldM with_bit_changes_step] in E.
  destruct (with_bit_changes hex_int m last) as [m1|e] eqn:Em;
    [|discriminate].
  pose proof (with_bit_changes_inv m m1 last Em) as Hm.
  rewrite (with_bit_changes_Ok m last Hm) in Em. injection Em as <-.
  cbn [bind] in E. apply IH in E. split; [assumption|].
  eapply readable_chain_data; [|exact E]. reflexivity.
Qed.

(** The sequence with bit changes is returned exactly when the chain can be
    read, and then it is [annotated]. *)
Lemma tuples_with_bit_changes_Ok (t : MessageTracker Ts) :
  readable_chain hex_int None (group_message_tuples t) ->
  group_message_tuples_with_bit_changes hex_int t
  = Ok (annotated hex_int None (group_message_tuples t)).
Proof.
  intros Hr. unfold group_message_tuples_with_bit_changes.
  destruct (tuples_loop_Ok (group_message_tuples t) [] None Hr) as [last1 E].
  rewrite E. reflexivity.
Qed.

Lemma tuples_with_bit_changes_inv (t : MessageTracker Ts) tuples :
  group_message_tuples_with_bit_changes hex_int t = Ok tuples ->
  readable_chain hex_int None (group_message_tuples t)
  /\ tuples = annotated hex_int None (group_message_tuples t).
Proof.
  intros E.
  assert (Hr : readable_chain hex_int None (group_message_tuples t)).
  { unfold group_message_tuples_with_bit_changes in E.
    destruct (foldM (with_bit_changes_step hex_int) (group_message_tuples t)
                    ([], None)) as [st|e] eqn:E1; [|discriminate].
    eapply tuples_loop_inv. exact E1. }
  split; [assumption|].
  rewrite (tuples_with_bit_changes_Ok t Hr) in E. now injection E.
Qed.

Lemma readable_chain_all (l : list (Ts * Message Ts)) :
  forall prev : option (Message Ts),
  Forall (fun item => has_payload hex_int (snd item)) l ->
  (forall p, prev = Some p -> has_payload hex_int p) ->
  readable_chain hex_int prev l.
Proof.
  induction l as [|[g m] l IH]; intros prev Hall Hprev; [exact I|].
  inversion Hall as [|? ? Hm Hl]; subst. simpl in Hm. split.
  - destruct prev as [p|]; [|trivial]. split; [assumption|]. now apply Hprev.
  - apply IH; [assumption|]. intros p Hp. injection Hp as <-. assumption.
Qed.

(** *** The loop over the runs *)

Lemma runs_cons_nonempty (x : Ts * Message Ts) (l : list (Ts * Message Ts)) :
  runs Ts_eq_dec (x :: l) <> [].
Proof.
  destruct x as [g m]. simpl.
  destruct (runs Ts_eq_dec l); [discriminate|].
  destruct l as [|[g1 m1] l]; [discriminate|].
  destruct (Ts_eq_dec g g1); discriminate.
Qed.

Lemma runs_cons_cons (g g1 : Ts) (m m1 : Message Ts)
  (l : list (Ts * Message Ts)) :
  runs Ts_eq_dec ((g, m) :: (g1, m1) :: l)
  = match runs Ts_eq_dec ((g1, m1) :: l) with
    | [] => [[m]]
    | r :: rs => if Ts_eq_dec g g1 then (m :: r) :: rs else [m] :: r :: rs
    end.
Proof. reflexivity. Qed.

Lemma change_loop_runs (l : list (Ts * Message Ts)) :
  forall (c : Ts) (acc : Z),
  change_loop Ts_eq_dec (Some c) acc l
  = match l, runs Ts_eq_dec l with
    | (g, _) :: _, r1 :: rs =>
        if Ts_eq_dec g c then runs_change (Z.lor acc (run_or r1)) rs
        else negb (acc =? 0)%Z && runs_change (run_or (tl r1)) rs
    | _, _ => (acc >? 0)%Z
    end.
Proof.
  induction l as [|[g m] l IH]; intros c acc; [reflexivity|].
  cbn [change_loop]. rewrite !IH.
  pose proof (runs_cons_nonempty) as Hne.
  destruct l as [|[g1 m1] l].
  - cbn [runs run_or fold_right tl runs_change].
    rewrite Z.lor_0_r.
    destruct (Ts_eq_dec g c); [reflexivity|].
    destruct (acc =? 0)%Z; reflexivity.
  - specialize (Hne (g1, m1) l). rewrite runs_cons_cons.
    destruct (runs Ts_eq_dec ((g1, m1) :: l)) as [|r rs]; [congruence|].
    destruct (Ts_eq_dec g c) as [->|Hgc].
    + destruct (Ts_eq_dec c g1) as [<-|Hcg].
      * destruct (Ts_eq_dec c c); [|congruence].
        cbn [run_or fold_right]. now rewrite Z.lor_assoc.
      * destruct (Ts_eq_dec g1 c); [congruence|].
        cbn [run_or fold_right runs_change tl]. now rewrite Z.lor_0_r.
    + destruct (Ts_eq_dec g g1) as [<-|Hgg].
      * destruct (Ts_eq_dec g g); [|congruence].
        cbn [tl]. rewrite Z.lor_0_l. destruct (acc =? 0)%Z; reflexivity.
      * destruct (Ts_eq_dec g1 g); [congruence|].
        cbn [tl run_or fold_right runs_change].
        destruct (acc =? 0)%Z; reflexivity.
Qed.

(** The loop from its start. *)
Lemma change_loop_start (l : list (Ts * Message Ts)) :
  change_loop Ts_eq_dec None 0%Z l
  = match runs Ts_eq_dec l with
    | [] => false
    | r1 :: rs => runs_change (run_or r1) rs
    end.
Proof.
  destruct l as [|[g m] l]; [reflexivity|].
  assert (E : change_loop Ts_eq_dec None 0%Z ((g, m) :: l)
              = change_loop Ts_eq_dec (Some g) 0%Z ((g, m) :: l))
    by reflexivity.
  rewrite E, change_loop_runs.
  pose proof (runs_cons_nonempty (g, m) l) as Hne.
  destruct (runs Ts_eq_dec ((g, m) :: l)) as [|r rs]; [congruence|].
  destruct (Ts_eq_dec g g); [|congruence]. now rewrite Z.lor_0_l.
Qed.

Lemma run_or_tl_nonzero (r : list (Message Ts)) :
  run_or (tl r) <> 0%Z -> run_or r <> 0%Z.
Proof.
  destruct r as [|m r]; [trivial|]. cbn [tl run_or fold_right].
  intros Hne H0. apply Z.lor_eq_0_iff in H0. ptauto.
Qed.

Lemma runs_change_sound (rs : list (list (Message Ts))) :
  forall v, runs_change v rs = true ->
            v <> 0%Z /\ Forall (fun r => run_or r <> 0%Z) rs.
Proof.
  induction rs as [|r rs IH]; intros v H; cbn [runs_change] in H.
  - split; [|constructor]. apply Z.gtb_lt in H. lia.
  - apply andb_true_iff in H. destruct H as [Hv H].
    apply negb_true_iff, Z.eqb_neq in Hv.
    destruct (IH _ H) as [Hr Hrs]. split; [assumption|].
    constructor; [|assumption]. now apply run_or_tl_nonzero.
Qed.

Lemma runs_change_complete (rs : list (list (Message Ts))) :
  forall v, (0 < v)%Z -> Forall (fun r => (0 < run_or (tl r))%Z) rs ->
            runs_change v rs = true.
Proof.
  induction rs as [|r rs IH]; intros v Hv Hrs; cbn [runs_change].
  - apply Z.gtb_lt. lia.
  - inversion Hrs; subst. apply andb_true_iff. split.
    + apply negb_true_iff, Z.eqb_neq. lia.
    + now apply IH.
Qed.

(** The messages of the runs are the messages of the sequence. *)
Lemma runs_messages (P : Message Ts -> Prop) (l : list (Ts * Message Ts)) :
  Forall (fun item => P (snd item)) l ->
  Forall (Forall P) (runs Ts_eq_dec l).
Proof.
  induction l as [|[g m] l IH]; intros H; [constructor|].
  inversion H as [|? ? Hm Hl]; subst. simpl in Hm. specialize (IH Hl).
  cbn [runs]. destruct (runs Ts_eq_dec l) as [|r rs].
  - repeat constructor. assumption.
  - inversion IH; subst. destruct l as [|[g1 m1] l].
    + repeat constructor. assumption.
    + destruct (Ts_eq_dec g g1); repeat constructor; assumption.
Qed.

Lemma run_or_nonneg (r : list (Message Ts)) :
  Forall (fun m => (0 <= msg_bit_changes m)%Z) r -> (0 <= run_or r)%Z.
Proof.
  induction r as [|m r IH]; intros H; cbn [run_or fold_right]; [lia|].
  inversion H; subst. apply Z.lor_nonneg. split; [assumption|].
  now apply IH.
Qed.

Lemma annotated_nonneg (l : list (Ts * Message Ts)) :
  forall prev : option (Message Ts),
  Forall (fun item => unsigned_payload hex_int (snd item)) l ->
  (forall p, prev = Some p -> (0 <= payload hex_int p)%Z) ->
  Forall (fun item => (0 <= msg_bit_changes (snd item))%Z)
         (annotated hex_int prev l).
Proof.
  induction l as [|[g m] l IH]; intros prev Hall Hprev; [constructor|].
  inversion Hall as [|? ? Hm Hl]; subst. simpl in Hm.
  assert (Hpm : (0 <= payload hex_int m)%Z).
  { destruct Hm as [v [E Hv]]. unfold payload. now rewrite E. }
  cbn [annotated]. constructor.
  - cbn [snd msg_bit_changes]. destruct prev as [p|]; cbn [delta]; [|lia].
    apply Z.lxor_nonneg. specialize (Hprev p eq_refl). ptauto.
  - apply IH; [assumption|]. intros p Hp. injection Hp as <-. exact Hpm.
Qed.

Lemma unsigned_has_payload (m : Message Ts) :
  unsigned_payload hex_int m -> has_payload hex_int m.
Proof. intros [v [E _]]. unfold has_payload. congruence. Qed.

(** What [in_all_groups_with_change] returns, run by run. *)
Lemma in_all_groups_with_change_exact (t : MessageTracker Ts) tuples :
  group_message_tuples_with_bit_changes hex_int t = Ok tuples ->
  in_all_groups_with_change Ts_eq_dec hex_int t
  = Ok (in_all t
        && match runs Ts_eq_dec tuples with
           | [] => false
           | r1 :: rs => runs_change (run_or r1) rs
           end).
Proof.
  intros E. unfold in_all_groups_with_change.
  destruct (in_all t); [|reflexivity].
  cbn [negb]. rewrite E. cbn [bind andb]. now rewrite change_loop_start.
Qed.

(** C1, as the program has it. When the payloads are unsigned numbers the
    check returns, and it returns false when the id is not in all groups.
    When it returns true, the id is in all groups and the OR over the bit
    changes of every run is nonzero; so the check is false as soon as one
    run has a zero OR. When the id is in all groups, has an occurrence, and
    every run has a nonzero OR over the messages after its first one, the
    check returns true. *)
Theorem universal_change_check (t : MessageTracker Ts) :
  (forall g m, In (g, m) (group_message_tuples t) ->
               unsigned_payload hex_int m) ->
  exists tuples,
    group_message_tuples_with_bit_changes hex_int t = Ok tuples
    /\ (in_all t = false ->
        in_all_groups_with_change Ts_eq_dec hex_int t = Ok false)
    /\ (in_all_groups_with_change Ts_eq_dec hex_int t = Ok true ->
        in_all t = true /\ tuples <> []
        /\ Forall (fun r => run_or r <> 0%Z) (runs Ts_eq_dec tuples))
    /\ (Exists (fun r => run_or r = 0%Z) (runs Ts_eq_dec tuples) ->
        in_all_groups_with_change Ts_eq_dec hex_int t = Ok false)
    /\ (in_all t = true -> tuples <> [] ->
        Forall (fun r => run_or (tl r) <> 0%Z) (runs Ts_eq_dec tuples) ->
        in_all_groups_with_change Ts_eq_dec hex_int t = Ok true).
Proof.
  intros Hpay.
  assert (Hall : Forall (fun item => unsigned_payload hex_int (snd item))
                        (group_message_tuples t)).
  { apply Forall_forall. intros [g m] Hin. exact (Hpay g m Hin). }
  assert (Hr : readable_chain hex_int None (group_message_tuples t)).
  { apply readable_chain_all; [|discriminate].
    eapply Forall_impl; [|exact Hall].
    intros item. apply unsigned_has_payload. }
  pose proof (tuples_with_bit_changes_Ok t Hr) as E.
  set (tuples := annotated hex_int None (group_message_tuples t)) in *.
  pose proof (in_all_groups_with_change_exact t tuples E) as Hex.
  assert (Hsound :
            in_all_groups_with_change Ts_eq_dec hex_int t = Ok true ->
            in_all t = true /\ tuples <> []
            /\ Forall (fun r => run_or r <> 0%Z) (runs Ts_eq_dec tuples)).
  { rewrite Hex. intros H. injection H as H.
    apply andb_true_iff in H. destruct H as [Hin H]. split; [assumption|].
    destruct (runs Ts_eq_dec tuples) as [|r1 rs] eqn:Eruns; [discriminate|].
    split.
    - intros ->. discriminate.
    - apply runs_change_sound in H. destruct H as [H1 Hrs].
      constructor; assumption. }
  exists tuples. split; [exact E|]. split; [|split; [exact Hsound|split]].
  - intros Hin. now rewrite Hex, Hin.
  - intros Hex0.
    destruct (in_all t
              && match runs Ts_eq_dec tuples with
                 | [] => false
                 | r1 :: rs => runs_change (run_or r1) rs
                 end) eqn:Eb; [|exact Hex].
    exfalso. rewrite Hex in Hsound.
    destruct (Hsound eq_refl) as [_ [_ Hnz]].
    apply Exists_exists in Hex0. destruct Hex0 as [r [Hr1 Hr0]].
    rewrite Forall_forall in Hnz. exact (Hnz r Hr1 Hr0).
  - intros Hin Hne Htl. rewrite Hex, Hin. cbn [andb]. f_equal.
    assert (Hnn : Forall (Forall (fun m => (0 <= msg_bit_changes m)%Z))
                         (runs Ts_eq_dec tuples)).
    { apply runs_messages. apply annotated_nonneg; [assumption|discriminate]. }
    destruct tuples as [|x tuples0] eqn:Et; [congruence|].
    pose proof (runs_cons_nonempty x tuples0) as Hrne.
    destruct (runs Ts_eq_dec (x :: tuples0)) as [|r1 rs]; [congruence|].
    inversion Htl as [|? ? H1 Hrs]; subst.
    inversion Hnn as [|? ? N1 Nrs]; subst.
    apply runs_change_complete.
    + pose proof (run_or_nonneg r1 N1).
      pose proof (run_or_tl_nonzero r1 H1). lia.
    + rewrite Forall_forall in *. intros r Hrin.
      specialize (Hrs r Hrin). specialize (Nrs r Hrin).
      assert (0 <= run_or (tl r))%Z.
      { apply run_or_nonneg. destruct r as [|m r]; [constructor|].
        now inversion Nrs. }
      lia.
Qed.

(** *** The report *)

Lemma string_app_assoc (a b c : string) :
  ((a ++ b) ++ c = a ++ (b ++ c))%string.
Proof. induction a as [|x a IH]; simpl; [reflexivity | now rewrite IH]. Qed.

Lemma string_app_nil_r (a : string) : (a ++ "" = a)%string.
Proof. induction a as [|x a IH]; simpl; [reflexivity | now rewrite IH]. Qed.

Lemma fold_left_lines (A : Type) (f : A -> string) (l : list A) :
  forall acc : string,
  fold_left (fun ret x => (ret ++ f x ++ String (ascii_of_nat 10) "")%string)
            l acc
  = (acc ++ lines_text (map f l))%string.
Proof.
  induction l as [|x l IH]; intros acc; cbn [fold_left map].
  - cbn [lines_text fold_right]. now rewrite string_app_nil_r.
  - rewrite IH. cbn [lines_text fold_right].
    now rewrite !string_app_assoc.
Qed.

Lemma readable_chain_has_payload (l : list (Ts * Message Ts)) :
  forall p : Message Ts,
  readable_chain hex_int (Some p) l ->
  Forall (fun item => has_payload hex_int (snd item)) l.
Proof.
  induction l as [|[g m] l IH]; intros p H; [constructor|].
  destruct H as [[Hm _] H]. constructor; [exact Hm|]. exact (IH m H).
Qed.

(** A tracker that passes the check has at least two occurrences, and all
    its payloads have been read. *)
Lemma passed_has_payload (t : MessageTracker Ts) :
  in_all_groups_with_change Ts_eq_dec hex_int t = Ok true ->
  Forall (fun item => has_payload hex_int (snd item))
         (group_message_tuples t).
Proof.
  intros H.
  destruct (group_message_tuples_with_bit_changes hex_int t) as [tuples|e]
    eqn:E.
  2:{ unfold in_all_groups_with_change in H. rewrite E in H.
      destruct (in_all t); discriminate. }
  rewrite (in_all_groups_with_change_exact t tuples E) in H.
  injection H as H. apply andb_true_iff in H. destruct H as [_ H].
  apply tuples_with_bit_changes_inv in E. destruct E as [Hr ->].
  destruct (group_message_tuples t) as [|[g m] l]; [constructor|].
  destruct l as [|[g1 m1] l].
  - exfalso. cbn in H. discriminate.
  - destruct Hr as [_ Hr].
    pose proof (readable_chain_has_payload _ m Hr) as Hall.
    constructor; [|exact Hall].
    destruct Hr as [[_ Hm] _]. exact Hm.
Qed.

(** C8. Report skip invariant. For a tracker that is reported, the rows of
    [bit_changes_str] after the header are one for every change tracker but
    the first: their number is the number of groups the id is in, less
    one. *)
Theorem report_skips_first_group (t : MessageTracker Ts) (count : Z) :
  tracker_wf Ts_eq_dec t ->
  in_all_groups_with_change Ts_eq_dec hex_int t = Ok true ->
  exists trackers rows,
    group_change_trackers Ts_eq_dec hex_int t = Ok trackers
    /\ List.length trackers = MessageTracker_count t
    /\ bit_changes_rows Ts_eq_dec hex_int fmt_3f t count = Ok rows
    /\ bit_changes_str Ts_eq_dec hex_int fmt_3f t count
       = Ok (bit_changes_header ++ lines_text rows)%string
    /\ List.length rows = (MessageTracker_count t - 1)%nat.
Proof.
  intros Hwf Hpass.
  assert (Hpay : forall g m, In (g, m) (group_message_tuples t) ->
                             has_payload hex_int m).
  { intros g m Hin. pose proof (passed_has_payload t Hpass) as Hall.
    rewrite Forall_forall in Hall. exact (Hall (g, m) Hin). }
  destruct (group_change_trackers_records t Hwf Hpay)
    as [trackers [E [Hkeys _]]].
  assert (Hlen : List.length trackers = MessageTracker_count t).
  { unfold MessageTracker_count.
    rewrite <- (length_map (@mct_group_ts Ts) trackers), Hkeys.
    unfold dict_keys. now rewrite length_map. }
  exists trackers,
    (map (fun ct => desc_with_less_than fmt_3f ct count) (tl trackers)).
  split; [exact E|]. split; [exact Hlen|].
  unfold bit_changes_rows, bit_changes_str. rewrite E. cbn [bind].
  split; [reflexivity|]. split.
  - f_equal. apply fold_left_lines.
  - rewrite length_map, <- Hlen. destruct trackers; simpl; lia.
Qed.

(** *** The segmenter *)

Lemma load_rows_dispatch (ref_message_id ref_bus : string) (start end_ : Ts)
  (rows : list (list string)) :
  forall (stream : list (string * Ts * Message Ts)) (st : load_state Ts),
  read_rows Ts_ltb py_float py_int ref_bus start end_ rows = Ok stream ->
  foldM (load_row Ts_ltb py_float py_int ref_message_id ref_bus start end_)
        rows st
  = Ok (fold_left (dispatch ref_message_id) stream st).
Proof.
  induction rows as [|row rows IH]; intros stream st E.
  - injection E as <-. reflexivity.
  - cbn [read_rows] in E. cbn [foldM]. unfold load_row at 1.
    destruct (read_row Ts_ltb py_float py_int ref_bus start end_ row)
      as [entry|e]; [|discriminate].
    cbn [bind] in E |- *.
    destruct (read_rows Ts_ltb py_float py_int ref_bus start end_ rows)
      as [stream1|e]; [|discriminate].
    cbn [bind] in E. injection E as <-.
    destruct entry as [e|]; cbn [bind fold_left]; now apply IH.
Qed.

Lemma load_segment (ref_message_id ref_bus : string) (start end_ : Ts)
  (header rows : list (list string)) (h : list string)
  (stream : list (string * Ts * Message Ts)) :
  read_rows Ts_ltb py_float py_int ref_bus start end_ rows = Ok stream ->
  load Ts_ltb py_float py_int [] (("time" :: h) :: rows)
       ref_message_id ref_bus start end_
  = Ok (segment ref_message_id stream).
Proof.
  intros E. unfold load. cbn [String.eqb Ascii.eqb Bool.eqb negb].
  rewrite (load_rows_dispatch ref_message_id ref_bus start end_ rows stream
             _ E).
  reflexivity.
Qed.

Lemma dispatch_opened (ref_message_id : string) (st : load_state Ts)
  (e : string * Ts * Message Ts) :
  opened (dispatch ref_message_id st e)
  = (opened st + if is_reference ref_message_id e then 1 else 0)%nat
  /\ (is_reference ref_message_id e = true ->
      snd (dispatch ref_message_id st e) <> None)
  /\ (snd st <> None -> snd (dispatch ref_message_id st e) <> None).
Proof.
  destruct e as [[mid time] m]. destruct st as [groups cur].
  unfold dispatch, is_reference, opened. cbn [fst snd].
  destruct (String.eqb mid ref_message_id).
  - destruct cur; cbn [fst snd]; rewrite ?length_app; cbn [List.length];
      repeat split; try discriminate; lia.
  - destruct cur; cbn [fst snd]; repeat split; try discriminate;
      try ptauto; lia.
Qed.

Lemma segment_opened (ref_message_id : string)
  (stream : list (string * Ts * Message Ts)) :
  forall st : load_state Ts,
  opened (fold_left (dispatch ref_message_id) stream st)
  = (opened st + reference_count ref_message_id stream)%nat
  /\ ((snd st <> None \/ 1 <= reference_count ref_message_id stream) ->
      snd (fold_left (dispatch ref_message_id) stream st) <> None).
Proof.
  induction stream as [|e stream IH]; intros st.
  - unfold reference_count. cbn. split; [lia|]. intros [H|H]; [exact H|lia].
  - cbn [fold_left]. destruct (IH (dispatch ref_message_id st e)) as [IH1 IH2].
    destruct (dispatch_opened ref_message_id st e) as [D1 [D2 D3]].
    unfold reference_count in *. cbn [filter].
    destruct (is_reference ref_message_id e) eqn:Eref; cbn [List.length].
    + split; [lia|]. intros _. apply IH2. left. now apply D2.
    + split; [lia|]. intros [H|H]; apply IH2; [left; now apply D3 | now right].
Qed.

Lemma dispatch_before_reference (ref_message_id : string)
  (pre : list (string * Ts * Message Ts)) :
  no_reference ref_message_id pre ->
  fold_left (dispatch ref_message_id) pre ([], None) = ([], None).
Proof.
  induction pre as [|e pre IH]; intros H; [reflexivity|].
  inversion H as [|? ? He Hpre]; subst. cbn [fold_left].
  destruct e as [[mid time] m]. unfold is_reference in He. cbn in He.
  unfold dispatch at 2. rewrite He. now apply IH.
Qed.

Lemma dispatch_after_reference (ref_message_id : string)
  (post : list (string * Ts * Message Ts)) :
  no_reference ref_message_id post ->
  forall st : load_state Ts,
  fst (fold_left (dispatch ref_message_id) post st) = fst st.
Proof.
  induction post as [|e post IH]; intros H st; [reflexivity|].
  inversion H as [|? ? He Hpost]; subst. cbn [fold_left].
  rewrite (IH Hpost). destruct e as [[mid time] m]. destruct st as [gs cur].
  unfold is_reference in He. cbn in He. unfold dispatch. rewrite He.
  destruct cur; reflexivity.
Qed.

(** C4. Segmenter group count. When the rows are read without an exception
    and [n >= 1] of the entries that reach the segmenter are reference
    messages, [load] returns exactly [n - 1] groups. What comes before the
    first reference message and what comes after the last one has no part
    in them: the groups are those of the stream without it. *)
Theorem load_group_count (ref_message_id ref_bus : string) (start end_ : Ts)
  (h : list string) (rows : list (list string))
  (stream : list (string * Ts * Message Ts)) :
  read_rows Ts_ltb py_float py_int ref_bus start end_ rows = Ok stream ->
  (1 <= reference_count ref_message_id stream)%nat ->
  exists groups,
    load Ts_ltb py_float py_int [] (("time" :: h) :: rows)
         ref_message_id ref_bus start end_ = Ok groups
    /\ (List.length groups + 1 = reference_count ref_message_id stream)%nat
    /\ (forall pre core post,
          stream = pre ++ core ++ post ->
          no_reference ref_message_id pre ->
          no_reference ref_message_id post ->
          groups = segment ref_message_id core).
Proof.
  intros E Hn. exists (segment ref_message_id stream).
  split; [now apply load_segment|]. split.
  - unfold segment.
    destruct (segment_opened ref_message_id stream ([], None)) as [H1 H2].
    specialize (H2 (or_intror Hn)). unfold opened in H1. cbn [fst snd] in *.
    destruct (snd (fold_left (dispatch ref_message_id) stream ([], None)));
      [|congruence].
    cbn [List.length] in H1. lia.
  - intros pre core post -> Hpre Hpost. unfold segment.
    rewrite !fold_left_app, (dispatch_before_reference _ pre Hpre).
    now apply dispatch_after_reference.
Qed.

(** *** The reference message *)

Lemma dict_set_not_nil (K V : Type)
  (K_eq_dec : forall a b : K, {a = b} + {a <> b}) (d : dict K V) k v :
  dict_set K_eq_dec d k v <> [].
Proof.
  destruct d as [|[k1 v1] d]; simpl; [discriminate|].
  destruct (K_eq_dec k1 k); discriminate.
Qed.

Lemma row_message_id_hex (s : string) :
  row_message_id py_int ("0x" ++ s) = Ok s.
Proof. destruct s; reflexivity. Qed.

(** C9, as the program has it. An entry is taken as an occurrence of the
    reference message exactly when its message id is the reference id,
    character for character; the id of a row written in hexadecimal is the
    text after [0x], in the letter case of the row. *)
Theorem reference_match_exact (ref_message_id : string) (st : load_state Ts)
  (message_id : string) (time : Ts) (message : Message Ts) :
  (opens_group ref_message_id st (message_id, time, message)
   <-> message_id = ref_message_id)
  /\ forall s, row_message_id py_int ("0x" ++ s) = Ok s.
Proof.
  split; [|exact row_message_id_hex].
  unfold opens_group, dispatch. cbn [fst snd]. destruct st as [groups cur].
  destruct (String.eqb_spec message_id ref_message_id) as [->|Hne].
  - cbn [snd]. ptauto.
  - split; [|contradiction]. intros H. exfalso.
    destruct cur as [g|]; cbn [snd] in H; [|discriminate].
    injection H as _ _ H. unfold MessageGroup_add in H.
    eapply dict_set_not_nil. exact H.
Qed.

(** *** The trackers of [TrackSignal] *)

Lemma dict_set_NoDup (K V : Type)
  (K_eq_dec : forall a b : K, {a = b} + {a <> b}) (d : dict K V) k v :
  NoDup (dict_keys d) -> NoDup (dict_keys (dict_set K_eq_dec d k v)).
Proof.
  intros Hnd. rewrite dict_keys_set.
  destruct (dict_mem K_eq_dec d k) eqn:E; [assumption|].
  apply dict_mem_false in E. apply NoDup_app; [assumption| |].
  - repeat constructor. intros [].
  - intros x Hx [<-|[]]. contradiction.
Qed.

Lemma dict_keys_set_add (d : dict Ts (list (Message Ts))) k v :
  dict_keys (dict_set Ts_eq_dec d k v) = add_key Ts_eq_dec (dict_keys d) k.
Proof.
  rewrite dict_keys_set. unfold add_key.
  destruct (in_dec Ts_eq_dec k (dict_keys d)) as [Hin|Hnot].
  - apply (dict_mem_true _ _ Ts_eq_dec) in Hin. now rewrite Hin.
  - apply (dict_mem_false _ _ Ts_eq_dec) in Hnot. now rewrite Hnot.
Qed.

Lemma add_key_idem (ks : list Ts) (k : Ts) :
  add_key Ts_eq_dec (add_key Ts_eq_dec ks k) k = add_key Ts_eq_dec ks k.
Proof.
  unfold add_key. destruct (in_dec Ts_eq_dec k ks) as [Hin|Hnot].
  - destruct (in_dec Ts_eq_dec k ks); [reflexivity|ptauto].
  - destruct (in_dec Ts_eq_dec k (ks ++ [k])) as [_|Hnot1]; [reflexivity|].
    exfalso. apply Hnot1. apply in_or_app. right. now left.
Qed.

Lemma enter_group_keys (t : MessageTracker Ts) (g : MessageGroup Ts) :
  dict_keys (trk_messages (enter_group Ts_eq_dec t g))
  = add_key Ts_eq_dec (dict_keys (trk_messages t)) (grp_ts g)
  /\ trk_id (enter_group Ts_eq_dec t g) = trk_id t
  /\ trk_group_count (enter_group Ts_eq_dec t g) = trk_group_count t.
Proof.
  unfold enter_group, add_key.
  destruct (dict_mem Ts_eq_dec (trk_messages t) (grp_ts g)) eqn:E.
  - apply dict_mem_true in E.
    destruct (in_dec Ts_eq_dec (grp_ts g) (dict_keys (trk_messages t)));
      [auto | contradiction].
  - apply dict_mem_false in E. cbn [trk_messages trk_id trk_group_count].
    rewrite dict_set_new by assumption.
    destruct (in_dec Ts_eq_dec (grp_ts g) (dict_keys (trk_messages t)));
      [contradiction|].
    unfold dict_keys. rewrite map_app. auto.
Qed.

(** [add] on a group that has the id. *)
Lemma MessageTracker_add_present (t : MessageTracker Ts)
  (g : MessageGroup Ts) :
  In (trk_id t) (message_ids g) ->
  exists t1,
    MessageTracker_add Ts_eq_dec t g = (t1, Ok tt)
    /\ trk_id t1 = trk_id t
    /\ trk_group_count t1 = trk_group_count t
    /\ dict_keys (trk_messages t1)
       = add_key Ts_eq_dec (dict_keys (trk_messages t)) (grp_ts g).
Proof.
  intros Hin. unfold MessageTracker_add, with_id.
  destruct (dict_get_In _ _ string_dec (grp_message_type_collections g)
              (trk_id t) Hin) as [c Hc].
  rewrite Hc. eexists. split; [reflexivity|].
  destruct (enter_group_keys t g) as [Hk [Hi Hn]].
  cbn [trk_id trk_group_count trk_messages]. repeat split; try assumption.
  rewrite dict_keys_set_add, Hk. apply add_key_idem.
Qed.

Lemma track_group_id_spec (N : Z) (g : MessageGroup Ts)
  (td : dict string (MessageTracker Ts)) (id0 : string) :
  In id0 (message_ids g) ->
  (forall t, dict_get string_dec td id0 = Some t -> trk_id t = id0) ->
  exists td1 t1,
    track_group_id Ts_eq_dec N g td id0 = Ok td1
    /\ (NoDup (dict_keys td) -> NoDup (dict_keys td1))
    /\ (forall id, id <> id0 ->
                   dict_get string_dec td1 id = dict_get string_dec td id)
    /\ dict_get string_dec td1 id0 = Some t1
    /\ trk_id t1 = id0
    /\ trk_group_count t1
       = match dict_get string_dec td id0 with
         | Some t => trk_group_count t
         | None => N
         end
    /\ dict_keys (trk_messages t1)
       = add_key Ts_eq_dec
           match dict_get string_dec td id0 with
           | Some t => dict_keys (trk_messages t)
           | None => []
           end (grp_ts g)
    /\ t1 = fst (MessageTracker_add Ts_eq_dec
                   match dict_get string_dec td id0 with
                   | Some t => t
                   | None => MessageTracker_init Ts id0 N
                   end g).
Proof.
  intros Hin Hid. unfold track_group_id.
  set (td0 := if dict_mem string_dec td id0 then td
              else dict_set string_dec td id0
                     (MessageTracker_init Ts id0 N)).
  set (t0 := match dict_get string_dec td id0 with
             | Some t => t
             | None => MessageTracker_init Ts id0 N
             end).
  assert (Hget : dict_get string_dec td0 id0 = Some t0).
  { unfold td0, t0, dict_mem.
    destruct (dict_get string_dec td id0) as [t|] eqn:E; [exact E|].
    apply dict_get_set_same. }
  assert (Ht0 : trk_id t0 = id0).
  { unfold t0. destruct (dict_get string_dec td id0) as [t|];
      [now apply Hid | reflexivity]. }
  rewrite Hget. cbn [of_option bind].
  destruct (MessageTracker_add_present t0 g) as [t1 [E [Hi [Hn Hk]]]].
  { now rewrite Ht0. }
  rewrite E. cbn [bind].
  exists (dict_set string_dec td0 id0 t1), t1.
  split; [reflexivity|]. split; [|split; [|split; [|split; [|split; [|split]]]]].
  - intros Hnd. apply dict_set_NoDup. unfold td0.
    destruct (dict_mem string_dec td id0); [assumption|].
    now apply dict_set_NoDup.
  - intros id Hne. rewrite dict_get_set_other by congruence.
    unfold td0. destruct (dict_mem string_dec td id0); [reflexivity|].
    apply dict_get_set_other. congruence.
  - apply dict_get_set_same.
  - congruence.
  - rewrite Hn. unfold t0.
    destruct (dict_get string_dec td id0); reflexivity.
  - rewrite Hk. unfold t0.
    destruct (dict_get string_dec td id0); reflexivity.
  - reflexivity.
Qed.

Lemma track_group_ids (N : Z) (g : MessageGroup Ts) (ids : list string) :
  (forall id, In id ids -> In id (message_ids g)) ->
  forall td : dict string (MessageTracker Ts),
  (forall id t, dict_get string_dec td id = Some t -> trk_id t = id) ->
  exists td1,
    foldM (track_group_id Ts_eq_dec N g) ids td = Ok td1
    /\ (NoDup (dict_keys td) -> NoDup (dict_keys td1))
    /\ (forall id, ~ In id ids ->
                   dict_get string_dec td1 id = dict_get string_dec td id)
    /\ (forall id, In id ids ->
          exists t1,
            dict_get string_dec td1 id = Some t1
            /\ trk_id t1 = id
            /\ trk_group_count t1
               = match dict_get string_dec td id with
                 | Some t => trk_group_count t
                 | None => N
                 end
            /\ dict_keys (trk_messages t1)
               = add_key Ts_eq_dec
                   match dict_get string_dec td id with
                   | Some t => dict_keys (trk_messages t)
                   | None => []
                   end (grp_ts g)).
Proof.
  induction ids as [|id0 ids IH]; intros Hids td Hid.
  - exists td. cbn [foldM]. repeat split; auto. intros id [].
  - destruct (track_group_id_spec N g td id0 (Hids id0 (or_introl eq_refl))
                (Hid id0))
      as [td1 [t1 [E [Hnd1 [Hother [Hget [Hi [Hn [Hk _]]]]]]]]].
    assert (Hid1 : forall id t,
               dict_get string_dec td1 id = Some t -> trk_id t = id).
    { intros id t Ht. destruct (string_dec id id0) as [->|Hne].
      - rewrite Hget in Ht. now injection Ht as <-.
      - rewrite Hother in Ht by assumption. now apply Hid. }
    destruct (IH (fun id H => Hids id (or_intror H)) td1 Hid1)
      as [td2 [E2 [Hnd2 [Hout Hin]]]].
    exists td2. cbn [foldM]. rewrite E. cbn [bind].
    split; [exact E2|]. split; [auto|]. split.
    + intros id Hnot. rewrite Hout by (intros H; apply Hnot; now right).
      apply Hother. intros ->. apply Hnot. now left.
    + intros id Hin0. destruct (in_dec string_dec id ids) as [Hin1|Hnot].
      * destruct (Hin id Hin1) as [t2 [G2 [I2 [N2 K2]]]].
        exists t2. split; [exact G2|]. split; [exact I2|].
        destruct (string_dec id id0) as [->|Hne].
        -- rewrite Hget in N2, K2. rewrite N2, K2, Hn, Hk.
           split; [reflexivity | apply add_key_idem].
        -- rewrite Hother in N2, K2 by assumption. now split.
      * destruct Hin0 as [<-|Hin0]; [|contradiction].
        exists t1. rewrite (Hout id0 Hnot). repeat split; assumption.
Qed.

Lemma group_keys_snoc (message_id : string) (gs : list (MessageGroup Ts))
  (g : MessageGroup Ts) :
  group_keys Ts_eq_dec message_id (gs ++ [g])
  = if has_id message_id g
    then add_key Ts_eq_dec (group_keys Ts_eq_dec message_id gs) (grp_ts g)
    else group_keys Ts_eq_dec message_id gs.
Proof. unfold group_keys. now rewrite fold_left_app. Qed.

Lemma group_keys_none (message_id : string) (gs : list (MessageGroup Ts)) :
  (forall g, In g gs -> has_id message_id g = false) ->
  group_keys Ts_eq_dec message_id gs = [].
Proof.
  induction gs as [|g gs IH] using rev_ind; intros H; [reflexivity|].
  rewrite group_keys_snoc, H by (apply in_or_app; right; now left).
  apply IH. intros g1 Hg1. apply H. apply in_or_app. now left.
Qed.

Lemma has_id_true (message_id : string) (g : MessageGroup Ts) :
  has_id message_id g = true <-> In message_id (message_ids g).
Proof.
  unfold has_id. destruct (in_dec string_dec message_id (message_ids g));
    split; try ptauto; discriminate.
Qed.

(** One group more. *)
Lemma track_group_tracked (N : Z) (gs : list (MessageGroup Ts))
  (g : MessageGroup Ts) (td : dict string (MessageTracker Ts)) :
  NoDup (dict_keys td) ->
  (forall id, tracked Ts_eq_dec N gs id (dict_get string_dec td id)) ->
  exists td1,
    track_group Ts_eq_dec N td g = Ok td1
    /\ NoDup (dict_keys td1)
    /\ forall id,
         tracked Ts_eq_dec N (gs ++ [g]) id (dict_get string_dec td1 id).
Proof.
  intros Hnd Htr.
  assert (Hid : forall id t,
             dict_get string_dec td id = Some t -> trk_id t = id).
  { intros id t Ht. specialize (Htr id). rewrite Ht in Htr. apply Htr. }
  destruct (track_group_ids N g (message_ids g) (fun id H => H) td Hid)
    as [td1 [E [Hnd1 [Hout Hin]]]].
  exists td1. split; [exact E|]. split; [auto|].
  intros id. specialize (Htr id).
  destruct (has_id id g) eqn:Ehas.
  - apply has_id_true in Ehas.
    destruct (Hin id Ehas) as [t1 [G1 [I1 [N1 K1]]]].
    rewrite G1. cbn [tracked]. split; [exact I1|].
    apply has_id_true in Ehas. rewrite group_keys_snoc, Ehas.
    destruct (dict_get string_dec td id) as [t|]; cbn [tracked] in Htr.
    + destruct Htr as [_ [Hn [Hk _]]]. rewrite N1, K1, Hn, Hk.
      repeat split. exists g. split; [|assumption].
      apply in_or_app. right. now left.
    + rewrite N1, K1, (group_keys_none id gs Htr).
      repeat split. exists g. split; [|assumption].
      apply in_or_app. right. now left.
  - assert (Hnot : ~ In id (message_ids g)).
    { intros H. apply has_id_true in H. congruence. }
    rewrite (Hout id Hnot).
    destruct (dict_get string_dec td id) as [t|]; cbn [tracked] in *.
    + destruct Htr as [Hi [Hn [Hk [g0 [Hg0 Hh]]]]].
      rewrite group_keys_snoc, Ehas. repeat split; try assumption.
      exists g0. split; [|assumption]. apply in_or_app. now left.
    + intros g0 Hg0. apply in_app_or in Hg0.
      destruct Hg0 as [Hg0|[<-|[]]]; [now apply Htr | assumption].
Qed.

Lemma track_groups_tracked (N : Z) (gs : list (MessageGroup Ts)) :
  forall (gs0 : list (MessageGroup Ts))
         (td : dict string (MessageTracker Ts)),
  NoDup (dict_keys td) ->
  (forall id, tracked Ts_eq_dec N gs0 id (dict_get string_dec td id)) ->
  exists td1,
    foldM (track_group Ts_eq_dec N) gs td = Ok td1
    /\ NoDup (dict_keys td1)
    /\ forall id,
         tracked Ts_eq_dec N (gs0 ++ gs) id (dict_get string_dec td1 id).
Proof.
  induction gs as [|g gs IH]; intros gs0 td Hnd Htr.
  - exists td. rewrite app_nil_r. auto.
  - destruct (track_group_tracked N gs0 g td Hnd Htr)
      as [td1 [E [Hnd1 Htr1]]].
    destruct (IH (gs0 ++ [g]) td1 Hnd1 Htr1) as [td2 [E2 [Hnd2 Htr2]]].
    exists td2. cbn [foldM]. rewrite E. cbn [bind].
    rewrite <- app_assoc in Htr2. auto.
Qed.

(** [TrackSignal] builds its trackers without an exception; every id has
    the tracker of its groups. *)
Lemma build_trackers_tracked (groups : list (MessageGroup Ts)) :
  exists td,
    build_trackers Ts_eq_dec groups = Ok td
    /\ NoDup (dict_keys td)
    /\ forall id,
         tracked Ts_eq_dec (Z.of_nat (List.length groups)) groups id
                 (dict_get string_dec td id).
Proof.
  unfold build_trackers.
  apply (track_groups_tracked (Z.of_nat (List.length groups)) groups [] []).
  - constructor.
  - intros id g [].
Qed.

(** *** Presence *)

Lemma add_key_length (ks : list Ts) (k : Ts) :
  (List.length (add_key Ts_eq_dec ks k) <= S (List.length ks))%nat.
Proof.
  unfold add_key. destruct (in_dec Ts_eq_dec k ks); [lia|].
  rewrite length_app. cbn. lia.
Qed.

Lemma group_keys_length (message_id : string) (gs : list (MessageGroup Ts)) :
  (List.length (group_keys Ts_eq_dec message_id gs) <= List.length gs)%nat.
Proof.
  induction gs as [|g gs IH] using rev_ind; [cbn; lia|].
  rewrite group_keys_snoc, length_app. cbn [List.length].
  destruct (has_id message_id g); [|lia].
  pose proof (add_key_length (group_keys Ts_eq_dec message_id gs) (grp_ts g)).
  lia.
Qed.

Lemma group_keys_distinct (message_id : string)
  (gs : list (MessageGroup Ts)) :
  NoDup (map (@grp_ts Ts) gs) ->
  group_keys Ts_eq_dec message_id gs
  = map (@grp_ts Ts) (filter (has_id message_id) gs).
Proof.
  induction gs as [|g gs IH] using rev_ind; intros Hnd; [reflexivity|].
  rewrite map_app in Hnd. cbn [map] in Hnd.
  pose proof (NoDup_remove_2 _ _ _ Hnd) as Hnot. rewrite app_nil_r in Hnot.
  apply NoDup_remove_1 in Hnd. rewrite app_nil_r in Hnd.
  rewrite group_keys_snoc, filter_app, map_app, (IH Hnd). cbn [filter].
  destruct (has_id message_id g); cbn [map]; [|now rewrite app_nil_r].
  unfold add_key.
  destruct (in_dec Ts_eq_dec (grp_ts g)
              (map (@grp_ts Ts) (filter (has_id message_id) gs)))
    as [Hin|_]; [|reflexivity].
  exfalso. apply Hnot. apply in_map_iff in Hin.
  destruct Hin as [g0 [E Hg0]]. apply filter_In in Hg0.
  apply in_map_iff. exists g0. ptauto.
Qed.

(** C5. Presence. [TrackSignal] builds a tracker for every id of the
    groups. When the time stamps of the groups are distinct, the tracker of
    an id has one key for every group that has the id; its number of keys
    never exceeds the number of groups, and [in_all] holds exactly when the
    two are equal. *)
Theorem presence_exact (groups : list (MessageGroup Ts)) :
  NoDup (map (@grp_ts Ts) groups) ->
  exists trackers_dict,
    build_trackers Ts_eq_dec groups = Ok trackers_dict
    /\ (forall g message_id,
          In g groups -> In message_id (message_ids g) ->
          dict_get string_dec trackers_dict message_id <> None)
    /\ forall message_id t,
         dict_get string_dec trackers_dict message_id = Some t ->
         dict_keys (trk_messages t)
         = map (@grp_ts Ts) (filter (has_id message_id) groups)
         /\ (MessageTracker_count t <= List.length groups)%nat
         /\ (in_all t = true
             <-> MessageTracker_count t = List.length groups).
Proof.
  intros Hnd.
  destruct (build_trackers_tracked groups) as [td [E [_ Htr]]].
  exists td. split; [exact E|]. split.
  - intros g id Hg Hid Hnone. specialize (Htr id). rewrite Hnone in Htr.
    cbn [tracked] in Htr. specialize (Htr g Hg).
    apply has_id_true in Hid. congruence.
  - intros id t Ht. specialize (Htr id). rewrite Ht in Htr.
    destruct Htr as [_ [Hn [Hk _]]].
    assert (Hlen : (MessageTracker_count t <= List.length groups)%nat).
    { unfold MessageTracker_count.
      rewrite <- (length_map fst (trk_messages t)).
      change (map fst (trk_messages t)) with (dict_keys (trk_messages t)).
      rewrite Hk. apply group_keys_length. }
    split; [|split; [exact Hlen|]].
    + rewrite Hk. now apply group_keys_distinct.
    + unfold in_all. rewrite Hn. unfold dict_keys. rewrite length_map.
      unfold MessageTracker_count in *. rewrite Z.geb_le. lia.
Qed.

(** *** The reference message is never tracked *)

Lemma string_app_inv_head (a b c : string) :
  (a ++ b = a ++ c)%string -> b = c.
Proof.
  induction a as [|x a IH]; simpl; intros H; [exact H|].
  injection H as H. now apply IH.
Qed.

Lemma reference_key_inj (ref_bus a b : string) :
  reference_key ref_bus a = reference_key ref_bus b -> a = b.
Proof.
  unfold reference_key. intros H.
  apply string_app_inv_head in H. now apply (string_app_inv_head ":").
Qed.

(** A message that reaches the segmenter carries the bus of the reference
    and its message id. *)
Lemma read_row_entry (ref_bus : string) (start end_ : Ts) (row : list string)
  (message_id : string) (time : Ts) (message : Message Ts) :
  read_row Ts_ltb py_float py_int ref_bus start end_ row
  = Ok (Some (message_id, time, message)) ->
  msg_id message = reference_key ref_bus message_id /\ msg_ts message = time.
Proof.
  unfold read_row. destruct row as [|row0 row]; [discriminate|].
  destruct (py_float row0) as [t|]; cbn [of_option bind]; [|discriminate].
  destruct (Ts_ltb t start || Ts_ltb end_ t); [discriminate|].
  destruct (nth_error (row0 :: row) 2) as [bus|]; [|discriminate].
  destruct (py_int bus); [|discriminate].
  destruct (row_message_id py_int (nth 1 (row0 :: row) "")) as [mid|e];
    cbn [bind]; [|discriminate].
  destruct (String.eqb_spec bus ref_bus) as [->|Hne]; cbn [negb];
    [|discriminate].
  destruct (nth_error (row0 :: row) 3) as [row3|]; cbn [of_option bind];
    [|discriminate].
  intros H. injection H as <- <- <-. split; reflexivity.
Qed.

Lemma Forall_dict_set (K V : Type)
  (K_eq_dec : forall a b : K, {a = b} + {a <> b}) (P : K * V -> Prop)
  (d : dict K V) k v :
  Forall P d -> P (k, v) -> (forall k1 v1, P (k1, v1) -> k1 = k -> P (k1, v)) ->
  Forall P (dict_set K_eq_dec d k v).
Proof.
  intros Hd Hkv Hsame. induction d as [|[k1 v1] d IH]; simpl.
  - now constructor.
  - inversion Hd; subst. destruct (K_eq_dec k1 k) as [->|Hne].
    + constructor; [|assumption]. eapply Hsame; [eassumption|reflexivity].
    + constructor; [assumption | now apply IH].
Qed.

Lemma MessageGroup_add_anchored (ref_bus ref_message_id : string)
  (g : MessageGroup Ts) (m : Message Ts) :
  anchored ref_bus ref_message_id g ->
  msg_id m <> reference_key ref_bus ref_message_id ->
  anchored ref_bus ref_message_id (MessageGroup_add g m).
Proof.
  intros [Hid [Hts Hcs]] Hm. unfold anchored, MessageGroup_add.
  cbn [grp_ts grp_ref_message grp_message_type_collections].
  split; [assumption|]. split; [assumption|].
  assert (Hc : Forall (fun m0 => msg_id m0
                                 <> reference_key ref_bus ref_message_id)
                 (mtc_messages
                    match dict_get string_dec
                            (grp_message_type_collections g) (msg_id m) with
                    | Some c => c
                    | None => MessageTypeCollection_init Ts (msg_id m)
                    end)).
  { destruct (dict_get string_dec (grp_message_type_collections g)
                (msg_id m)) as [c|] eqn:E; [|constructor].
    apply dict_get_Some_In in E. rewrite Forall_forall in Hcs.
    apply (Hcs _ E). }
  apply Forall_dict_set.
  - assumption.
  - cbn [fst snd MessageTypeCollection_add mtc_messages]. split; [assumption|].
    apply Forall_app. split; [assumption|]. now repeat constructor.
  - intros k1 v1 _ ->. cbn [fst snd MessageTypeCollection_add mtc_messages].
    split; [assumption|].
    apply Forall_app. split; [assumption|]. now repeat constructor.
Qed.

Lemma dispatch_anchored (ref_bus ref_message_id : string)
  (st : load_state Ts) (message_id : string) (time : Ts)
  (message : Message Ts) :
  msg_id message = reference_key ref_bus message_id ->
  msg_ts message = time ->
  Forall (anchored ref_bus ref_message_id) (fst st) ->
  (forall g, snd st = Some g -> anchored ref_bus ref_message_id g) ->
  Forall (anchored ref_bus ref_message_id)
         (fst (dispatch ref_message_id st (message_id, time, message)))
  /\ (forall g,
        snd (dispatch ref_message_id st (message_id, time, message)) = Some g ->
        anchored ref_bus ref_message_id g).
Proof.
  intros Hid Hts Hgs Hcur. destruct st as [groups cur]. unfold dispatch.
  cbn [fst snd] in *.
  destruct (String.eqb_spec message_id ref_message_id) as [->|Hne].
  - cbn [fst snd]. split.
    + destruct cur as [g|]; [|assumption].
      apply Forall_app. split; [assumption|]. constructor; [|constructor].
      now apply Hcur.
    + intros g H. injection H as <-. unfold anchored, MessageGroup_init.
      cbn. repeat split; auto.
  - destruct cur as [g|]; cbn [fst snd]; [|auto].
    split; [assumption|]. intros g1 H. injection H as <-.
    apply MessageGroup_add_anchored; [now apply Hcur|].
    rewrite Hid. intros H. apply reference_key_inj in H. contradiction.
Qed.

Lemma load_rows_anchored (ref_message_id ref_bus : string) (start end_ : Ts)
  (rows : list (list string)) :
  forall st st1 : load_state Ts,
  foldM (load_row Ts_ltb py_float py_int ref_message_id ref_bus start end_)
        rows st = Ok st1 ->
  Forall (anchored ref_bus ref_message_id) (fst st) ->
  (forall g, snd st = Some g -> anchored ref_bus ref_message_id g) ->
  Forall (anchored ref_bus ref_message_id) (fst st1).
Proof.
  induction rows as [|row rows IH]; intros st st1 E Hgs Hcur.
  - injection E as <-. assumption.
  - cbn [foldM] in E. unfold load_row at 1 in E.
    destruct (read_row Ts_ltb py_float py_int ref_bus start end_ row)
      as [[[[mid time] m]|]|e] eqn:Er; cbn [bind] in E; [| |discriminate].
    + destruct (read_row_entry ref_bus start end_ row mid time m Er)
        as [Hid Hts].
      destruct (dispatch_anchored ref_bus ref_message_id st mid time m
                  Hid Hts Hgs Hcur) as [H1 H2].
      exact (IH _ _ E H1 H2).
    + exact (IH _ _ E Hgs Hcur).
Qed.

Lemma load_anchored (ref_message_id ref_bus : string) (start end_ : Ts)
  (rows : list (list string)) (groups : list (MessageGroup Ts)) :
  load Ts_ltb py_float py_int [] rows ref_message_id ref_bus start end_
  = Ok groups ->
  Forall (anchored ref_bus ref_message_id) groups.
Proof.
  unfold load. destruct rows as [|header rows]; [discriminate|].
  destruct header as [|h0 header]; [discriminate|].
  destruct (negb (String.eqb h0 "time")); [discriminate|].
  destruct (foldM (load_row Ts_ltb py_float py_int ref_message_id ref_bus
                     start end_) rows ([], None)) as [st|e] eqn:E;
    cbn [bind]; [|discriminate].
  intros H. injection H as <-.
  apply (load_rows_anchored _ _ _ _ rows ([], None) st E).
  - constructor.
  - discriminate.
Qed.

Lemma report_ids (trackers : list (MessageTracker Ts)) :
  forall id s,
  In (id, s) (fst (report Ts_eq_dec hex_int fmt_3f trackers)) ->
  exists t, In t trackers /\ trk_id t = id.
Proof.
  induction trackers as [|t trackers IH]; intros id s H; [destruct H|].
  cbn [report] in H.
  destruct (in_all_groups_with_change Ts_eq_dec hex_int t) as [[|]|e].
  - destruct (bit_changes_str Ts_eq_dec hex_int fmt_3f t 4) as [str|e].
    + destruct (report Ts_eq_dec hex_int fmt_3f trackers) as [out r].
      cbn [fst] in H, IH. destruct H as [H|H].
      * injection H as <- _. exists t. split; [now left | reflexivity].
      * destruct (IH id s H) as [t1 [Ht1 Hid]]. exists t1.
        split; [now right | assumption].
    + destruct H.
  - destruct (IH id s H) as [t1 [Ht1 Hid]]. exists t1.
    split; [now right | assumption].
  - destruct H.
Qed.

(** C10. Reference messages are never tracked. In every group [load]
    returns, the reference message gives the time stamp and the reference
    message of the group, and no collection of the group is keyed by the id
    of the reference or holds a message with that id. So [TrackSignal]
    makes no tracker for that id and never reports it. *)
Theorem reference_never_tracked (ref_message_id ref_bus : string)
  (start end_ : Ts) (rows : list (list string))
  (groups : list (MessageGroup Ts)) :
  load Ts_ltb py_float py_int [] rows ref_message_id ref_bus start end_
  = Ok groups ->
  Forall (anchored ref_bus ref_message_id) groups
  /\ exists trackers_dict,
       build_trackers Ts_eq_dec groups = Ok trackers_dict
       /\ dict_get string_dec trackers_dict
            (reference_key ref_bus ref_message_id) = None
       /\ ~ In (reference_key ref_bus ref_message_id)
              (map fst (fst (report Ts_eq_dec hex_int fmt_3f
                               (dict_values trackers_dict)))).
Proof.
  intros E. pose proof (load_anchored _ _ _ _ _ _ E) as Hanch.
  split; [exact Hanch|].
  destruct (build_trackers_tracked groups) as [td [Eb [Hnd Htr]]].
  exists td. split; [exact Eb|].
  assert (Hnone : dict_get string_dec td
                    (reference_key ref_bus ref_message_id) = None).
  { pose proof (Htr (reference_key ref_bus ref_message_id)) as H.
    destruct (dict_get string_dec td (reference_key ref_bus ref_message_id))
      as [t|]; [|reflexivity].
    exfalso. destruct H as [_ [_ [_ [g [Hg Hhas]]]]].
    apply has_id_true in Hhas. rewrite Forall_forall in Hanch.
    destruct (Hanch g Hg) as [_ [_ Hcs]]. unfold message_ids in Hhas.
    apply in_map_iff in Hhas. destruct Hhas as [item [Hk Hitem]].
    rewrite Forall_forall in Hcs. destruct (Hcs item Hitem) as [Hne _].
    contradiction. }
  split; [exact Hnone|].
  intros Hin. apply in_map_iff in Hin. destruct Hin as [[id s] [Hid Hin]].
  cbn [fst] in Hid. subst id.
  destruct (report_ids _ _ _ Hin) as [t [Ht Htid]].
  unfold dict_values in Ht. apply in_map_iff in Ht.
  destruct Ht as [[k t1] [Hsnd Hkt]]. cbn [snd] in Hsnd. subst t1.
  pose proof (dict_get_NoDup _ _ string_dec td k t Hnd Hkt) as Hget.
  pose proof (Htr k) as Hk. rewrite Hget in Hk. destruct Hk as [Hk _].
  rewrite Htid in Hk. subst k. congruence.
Qed.

(** *** [add] on a group without the id *)

Lemma MessageTracker_add_absent (t : MessageTracker Ts)
  (g : MessageGroup Ts) :
  ~ In (trk_id t) (message_ids g) ->
  MessageTracker_add Ts_eq_dec t g
  = (enter_group Ts_eq_dec t g, Raise AttributeError).
Proof.
  intros Hnot. unfold MessageTracker_add, with_id.
  apply (dict_get_None _ _ string_dec) in Hnot. now rewrite Hnot.
Qed.

(** *** The trackers of [TrackSignal] are well formed *)

Lemma keep_changed_nonempty (l : list (Message Ts)) :
  forall acc : list (Message Ts),
  acc <> [] -> fold_left (@keep_changed Ts) l acc <> [].
Proof.
  induction l as [|m l IH]; intros acc Hacc; [exact Hacc|].
  cbn [fold_left]. apply IH. unfold keep_changed.
  destruct (Nat.eqb (List.length acc) 0
            || negb (String.eqb (msg_data m) (msg_data (last acc m))));
    [|exact Hacc].
  destruct acc; discriminate.
Qed.

Lemma messages_with_change_nonempty (c : MessageTypeCollection Ts) :
  mtc_messages c <> [] -> messages_with_change c <> [].
Proof.
  unfold messages_with_change. destruct (mtc_messages c) as [|m l];
    [congruence|].
  intros _. cbn [fold_left]. apply keep_changed_nonempty. discriminate.
Qed.

Lemma add_key_NoDup (ks : list Ts) (k : Ts) :
  NoDup ks -> NoDup (add_key Ts_eq_dec ks k).
Proof.
  intros Hnd. unfold add_key. destruct (in_dec Ts_eq_dec k ks); [assumption|].
  apply NoDup_app; [assumption| |].
  - repeat constructor. intros [].
  - intros x Hx [<-|[]]. contradiction.
Qed.

Lemma Forall_dict_set_key (V : Type) (P : V -> Prop)
  (d : dict Ts V) (k : Ts) (v : V) :
  NoDup (dict_keys d) ->
  (forall k1 v1, In (k1, v1) d -> k1 <> k -> P v1) ->
  P v ->
  Forall (fun item => P (snd item)) (dict_set Ts_eq_dec d k v).
Proof.
  intros Hnd Hd Hv. induction d as [|[k1 v1] d IH]; simpl.
  - repeat constructor. exact Hv.
  - inversion Hnd as [|? ? Hnot Hnd1]; subst.
    destruct (Ts_eq_dec k1 k) as [->|Hne].
    + constructor; [exact Hv|]. apply Forall_forall. intros [k2 v2] Hin.
      apply (Hd k2 v2); [now right|].
      intros ->. apply Hnot. change k with (fst (k, v2)). now apply in_map.
    + constructor.
      * apply (Hd k1 v1); [now left | assumption].
      * apply IH; [assumption|]. intros k2 v2 Hin. apply Hd. now right.
Qed.

(** [add] on a group that has the id, in a collection that holds a message,
    keeps the tracker well formed. *)
Lemma MessageTracker_add_wf (t : MessageTracker Ts) (g : MessageGroup Ts) :
  In (trk_id t) (message_ids g) ->
  populated g ->
  tracker_wf Ts_eq_dec t ->
  tracker_wf Ts_eq_dec (fst (MessageTracker_add Ts_eq_dec t g)).
Proof.
  intros Hin Hpop [Hnd [Hrefs Hne]].
  destruct (MessageTracker_add_present t g Hin) as [t1 [E [_ [_ Hk]]]].
  rewrite E. cbn [fst].
  unfold MessageTracker_add, with_id in E.
  destruct (dict_get_In _ _ string_dec (grp_message_type_collections g)
              (trk_id t) Hin) as [c Hc].
  rewrite Hc in E. injection E as <-.
  assert (Hc1 : messages_with_change c <> []).
  { apply messages_with_change_nonempty. apply dict_get_Some_In in Hc.
    unfold populated in Hpop. rewrite Forall_forall in Hpop.
    exact (Hpop _ Hc). }
  destruct (enter_group_keys t g) as [Hk1 _].
  assert (Hnd1 : NoDup (dict_keys
                          (trk_messages (enter_group Ts_eq_dec t g)))).
  { rewrite Hk1. now apply add_key_NoDup. }
  unfold tracker_wf. cbn [trk_messages trk_ref_messages].
  split; [|split].
  - now apply dict_set_NoDup.
  - intros k Hkin. rewrite dict_keys_set_add, Hk1, add_key_idem in Hkin.
    unfold enter_group, add_key in *.
    destruct (dict_mem Ts_eq_dec (trk_messages t) (grp_ts g)) eqn:Emem.
    + apply dict_mem_true in Emem.
      destruct (in_dec Ts_eq_dec (grp_ts g) (dict_keys (trk_messages t)));
        [|contradiction].
      now apply Hrefs.
    + apply dict_mem_false in Emem.
      destruct (in_dec Ts_eq_dec (grp_ts g) (dict_keys (trk_messages t)));
        [contradiction|].
      cbn [trk_ref_messages].
      destruct (Ts_eq_dec (grp_ts g) k) as [<-|Hgk].
      * rewrite dict_get_set_same. discriminate.
      * rewrite dict_get_set_other by assumption. apply Hrefs.
        apply in_app_or in Hkin. destruct Hkin as [H|[H|[]]];
          [assumption | contradiction].
  - apply (Forall_dict_set_key _ (fun l => l <> [])); [assumption| |].
    + intros k1 v1 Hin1 Hk1g. unfold enter_group in Hin1.
      destruct (dict_mem Ts_eq_dec (trk_messages t) (grp_ts g)) eqn:Emem.
      * rewrite Forall_forall in Hne. exact (Hne _ Hin1).
      * apply dict_mem_false in Emem. cbn [trk_messages] in Hin1.
        rewrite dict_set_new in Hin1 by assumption.
        apply in_app_or in Hin1. destruct Hin1 as [H|[H|[]]].
        -- rewrite Forall_forall in Hne. exact (Hne _ H).
        -- injection H as <- _. contradiction.
    + intros H. apply app_eq_nil in H. destruct H as [_ H]. contradiction.
Qed.

Lemma MessageTracker_init_wf (message_id : string) (N : Z) :
  tracker_wf Ts_eq_dec (MessageTracker_init Ts message_id N).
Proof.
  unfold tracker_wf. cbn. split; [constructor|]. split; [|constructor].
  intros g [].
Qed.

Lemma track_group_ids_wf (N : Z) (g : MessageGroup Ts) (ids : list string) :
  populated g ->
  (forall id, In id ids -> In id (message_ids g)) ->
  forall td td1 : dict string (MessageTracker Ts),
  (forall id t, dict_get string_dec td id = Some t ->
                trk_id t = id /\ tracker_wf Ts_eq_dec t) ->
  foldM (track_group_id Ts_eq_dec N g) ids td = Ok td1 ->
  forall id t, dict_get string_dec td1 id = Some t ->
               trk_id t = id /\ tracker_wf Ts_eq_dec t.
Proof.
  intros Hpop. induction ids as [|id0 ids IH]; intros Hids td td1 Hwf E.
  - injection E as <-. exact Hwf.
  - cbn [foldM] in E.
    destruct (track_group_id_spec N g td id0 (Hids id0 (or_introl eq_refl)))
      as [td2 [t2 [E2 [_ [Hother [Hget [Hi [_ [_ Ht2]]]]]]]]].
    { intros t Ht. now apply (Hwf id0 t). }
    rewrite E2 in E. cbn [bind] in E.
    apply (IH (fun id H => Hids id (or_intror H)) td2 td1); [|exact E].
    intros id t Ht. destruct (string_dec id id0) as [->|Hne].
    + rewrite Hget in Ht. injection Ht as <-. split; [exact Hi|].
      rewrite Ht2. apply MessageTracker_add_wf; [|exact Hpop|].
      * destruct (dict_get string_dec td id0) as [t|] eqn:Et.
        -- destruct (Hwf id0 t Et) as [-> _].
           exact (Hids _ (or_introl eq_refl)).
        -- exact (Hids _ (or_introl eq_refl)).
      * destruct (dict_get string_dec td id0) as [t|] eqn:Et.
        -- now apply (Hwf id0 t).
        -- apply MessageTracker_init_wf.
    + rewrite Hother in Ht by assumption. now apply Hwf.
Qed.

(** Every tracker [TrackSignal] builds from groups whose collections hold
    a message is well formed. *)
Lemma build_trackers_wf (groups : list (MessageGroup Ts))
  (trackers_dict : dict string (MessageTracker Ts)) :
  Forall (@populated Ts) groups ->
  build_trackers Ts_eq_dec groups = Ok trackers_dict ->
  forall id t, dict_get string_dec trackers_dict id = Some t ->
               trk_id t = id /\ tracker_wf Ts_eq_dec t.
Proof.
  unfold build_trackers. generalize (Z.of_nat (List.length groups)) as N.
  intros N Hpop.
  assert (H : forall gs (td td1 : dict string (MessageTracker Ts)),
             Forall (@populated Ts) gs ->
             (forall id t, dict_get string_dec td id = Some t ->
                           trk_id t = id /\ tracker_wf Ts_eq_dec t) ->
             foldM (track_group Ts_eq_dec N) gs td = Ok td1 ->
             forall id t, dict_get string_dec td1 id = Some t ->
                          trk_id t = id /\ tracker_wf Ts_eq_dec t).
  { induction gs as [|g gs IH]; intros td td1 Hp Hwf E.
    - injection E as <-. exact Hwf.
    - inversion Hp as [|? ? Hg Hgs]; subst. cbn [foldM] in E.
      destruct (track_group Ts_eq_dec N td g) as [td2|e] eqn:E2;
        [|discriminate].
      cbn [bind] in E. apply (IH td2 td1 Hgs); [|exact E].
      exact (track_group_ids_wf N g (message_ids g) Hg (fun id H => H)
               td td2 Hwf E2). }
  intros E. apply (H groups [] trackers_dict Hpop); [|exact E].
  intros id t Ht. discriminate.
Qed.

Lemma MessageGroup_add_populated (g : MessageGroup Ts) (m : Message Ts) :
  populated g -> populated (MessageGroup_add g m).
Proof.
  unfold populated, MessageGroup_add. cbn [grp_message_type_collections].
  intros Hpop. apply Forall_dict_set.
  - assumption.
  - cbn [snd MessageTypeCollection_add mtc_messages].
    intros H. apply app_eq_nil in H. destruct H as [_ H]. discriminate.
  - intros k1 v1 _ _. cbn [snd MessageTypeCollection_add mtc_messages].
    intros H. apply app_eq_nil in H. destruct H as [_ H]. discriminate.
Qed.

Lemma segment_populated (ref_message_id : string)
  (stream : list (string * Ts * Message Ts)) :
  forall st : load_state Ts,
  Forall (@populated Ts) (fst st) ->
  (forall g, snd st = Some g -> populated g) ->
  Forall (@populated Ts) (fst (fold_left (dispatch ref_message_id) stream st)).
Proof.
  induction stream as [|[[mid time] m] stream IH]; intros st Hgs Hcur;
    [assumption|].
  cbn [fold_left]. apply IH; destruct st as [groups cur]; unfold dispatch;
    cbn [fst snd] in *; destruct (String.eqb mid ref_message_id);
    destruct cur as [g|]; cbn [fst snd]; try assumption.
  - apply Forall_app. split; [assumption|]. constructor; [|constructor].
    now apply Hcur.
  - intros g1 H. injection H as <-. constructor.
  - intros g1 H. injection H as <-. constructor.
  - intros g1 H. injection H as <-. apply MessageGroup_add_populated.
    now apply Hcur.
Qed.

(** The trackers of the groups of the segmenter are the well-formed
    trackers the accumulator and the report are stated for. *)
Lemma segment_trackers_wf (ref_message_id : string)
  (stream : list (string * Ts * Message Ts))
  (trackers_dict : dict string (MessageTracker Ts)) :
  build_trackers Ts_eq_dec (segment ref_message_id stream) = Ok trackers_dict ->
  forall id t, dict_get string_dec trackers_dict id = Some t ->
               trk_id t = id /\ tracker_wf Ts_eq_dec t.
Proof.
  apply build_trackers_wf. unfold segment. apply segment_populated.
  - constructor.
  - discriminate.
Qed.

(** *** More on deduplication *)

Lemma messages_with_change_snoc (l : list (Message Ts)) (x : Message Ts) :
  fold_left (@keep_changed Ts) (l ++ [x]) []
  = keep_changed (fold_left (@keep_changed Ts) l []) x.
Proof. now rewrite fold_left_app. Qed.

Lemma adjacent_distinct_snoc (l : list (Message Ts)) (x : Message Ts) :
  adjacent_distinct (l ++ [x])
  <-> adjacent_distinct l
      /\ (l = [] \/ msg_data (last l x) <> msg_data x).
Proof.
  induction l as [|m l IH]; [simpl; ptauto|].
  destruct l as [|m1 l].
  - simpl. split.
    + intros [H _]. split; [split; trivial | right; exact H].
    + intros [_ [H|H]]; [discriminate | split; [exact H | split; trivial]].
  - change ((m :: m1 :: l) ++ [x]) with (m :: ((m1 :: l) ++ [x])).
    change (last (m :: m1 :: l) x) with (last (m1 :: l) x).
    change (adjacent_distinct (m :: ((m1 :: l) ++ [x])))
      with (msg_data m <> msg_data m1
            /\ adjacent_distinct ((m1 :: l) ++ [x])).
    change (adjacent_distinct (m :: m1 :: l))
      with (msg_data m <> msg_data m1 /\ adjacent_distinct (m1 :: l)).
    rewrite IH. split.
    + intros [H0 [H1 [H2|H2]]]; [discriminate|].
      split; [split; assumption | right; assumption].
    + intros [[H0 H1] [H2|H2]]; [discriminate|].
      split; [assumption|]. split; [assumption | right; assumption].
Qed.

Lemma subseq_refl (A : Type) (l : list A) : subseq l l.
Proof. induction l; constructor; assumption. Qed.

Lemma subseq_snoc_keep (A : Type) (l1 l2 : list A) (x : A) :
  subseq l1 l2 -> subseq (l1 ++ [x]) (l2 ++ [x]).
Proof.
  induction 1; simpl; [repeat constructor | now constructor | now constructor].
Qed.

Lemma subseq_snoc_skip (A : Type) (l1 l2 : list A) (x : A) :
  subseq l1 l2 -> subseq l1 (l2 ++ [x]).
Proof.
  induction 1; simpl; [repeat constructor | now constructor | now constructor].
Qed.

Lemma keep_changed_cases (kept : list (Message Ts)) (x : Message Ts) :
  (keep_changed kept x = kept ++ [x]
   /\ (kept = [] \/ msg_data (last kept x) <> msg_data x))
  \/ (keep_changed kept x = kept
      /\ kept <> [] /\ msg_data (last kept x) = msg_data x).
Proof.
  unfold keep_changed. destruct kept as [|k kept].
  - left. split; [reflexivity | now left].
  - cbn [List.length Nat.eqb orb].
    destruct (String.eqb_spec (msg_data x) (msg_data (last (k :: kept) x)))
      as [E|E]; cbn [negb].
    + right. split; [reflexivity|]. split; [discriminate | now symmetry].
    + left. split; [reflexivity|]. right. congruence.
Qed.

Lemma keep_changed_fold_distinct (l : list (Message Ts)) :
  adjacent_distinct (fold_left (@keep_changed Ts) l []).
Proof.
  induction l as [|x l IH] using rev_ind; [exact I|].
  rewrite messages_with_change_snoc.
  destruct (keep_changed_cases (fold_left (@keep_changed Ts) l []) x)
    as [[-> H]|[-> _]]; [|exact IH].
  apply adjacent_distinct_snoc. split; assumption.
Qed.

(** X1. The messages [messages_with_change] returns never repeat a payload
    from one message to the next. *)
Theorem messages_with_change_adjacent_distinct
  (c : MessageTypeCollection Ts) :
  adjacent_distinct (messages_with_change c).
Proof. apply keep_changed_fold_distinct. Qed.

Lemma last_snoc (A : Type) (l : list A) (x d : A) : last (l ++ [x]) d = x.
Proof.
  induction l as [|a l IH]; [reflexivity|].
  change ((a :: l) ++ [x]) with (a :: (l ++ [x])). cbn [last].
  destruct (l ++ [x]) eqn:E; [|exact IH].
  destruct l; discriminate.
Qed.

Lemma last_default (A : Type) (l : list A) (d1 d2 : A) :
  l <> [] -> last l d1 = last l d2.
Proof.
  induction l as [|a l IH]; [congruence|]. intros _.
  destruct l as [|b l]; [reflexivity|].
  change (last (b :: l) d1 = last (b :: l) d2). apply IH. discriminate.
Qed.

(** X2. [messages_with_change] leaves messages out and changes nothing
    else: its result is a subsequence of the messages of the collection,
    with the same first message, and its last message has the payload of
    the last message of the collection. *)
Theorem messages_with_change_subsequence (c : MessageTypeCollection Ts) :
  subseq (messages_with_change c) (mtc_messages c)
  /\ hd_error (messages_with_change c) = hd_error (mtc_messages c)
  /\ forall d,
       mtc_messages c <> [] ->
       messages_with_change c <> []
       /\ msg_data (last (messages_with_change c) d)
          = msg_data (last (mtc_messages c) d).
Proof.
  unfold messages_with_change.
  induction (mtc_messages c) as [|x l IH] using rev_ind.
  - repeat split; try constructor; intros; congruence.
  - destruct IH as [Hsub [Hhd Hlast]].
    rewrite messages_with_change_snoc.
    set (kept := fold_left (@keep_changed Ts) l []) in *.
    destruct (keep_changed_cases kept x) as [[-> H]|[-> [Hne Hx]]].
    + split; [now apply subseq_snoc_keep|]. split.
      * destruct l as [|a l]; [reflexivity|].
        destruct (Hlast a) as [Hk _]; [discriminate|].
        destruct kept as [|k kept]; [congruence|]. exact Hhd.
      * intros d _. rewrite !last_snoc. split; [|reflexivity].
        destruct kept; discriminate.
    + split; [now apply subseq_snoc_skip|]. split.
      * destruct kept as [|k kept]; [congruence|].
        destruct l as [|a l]; [discriminate Hhd | exact Hhd].
      * intros d _. split; [exact Hne|].
        rewrite last_snoc, (last_default _ kept d x Hne). exact Hx.
Qed.

(** X3. The collections [messages_with_change] returns unchanged are those
    whose messages never repeat a payload from one message to the next. *)
Theorem messages_with_change_fixed (c : MessageTypeCollection Ts) :
  messages_with_change c = mtc_messages c
  <-> adjacent_distinct (mtc_messages c).
Proof.
  split.
  - intros E. rewrite <- E. apply keep_changed_fold_distinct.
  - unfold messages_with_change.
    induction (mtc_messages c) as [|x l IH] using rev_ind; [reflexivity|].
    intros H. apply adjacent_distinct_snoc in H. destruct H as [Hl Hx].
    rewrite messages_with_change_snoc, (IH Hl).
    destruct (keep_changed_cases l x) as [[-> _]|[_ [Hne E]]];
      [reflexivity|].
    destruct Hx as [->|Hx]; congruence.
Qed.

(** *** The collections of a group *)

Lemma group_of_snoc (ts : Ts) (ref_message : Message Ts)
  (ms : list (Message Ts)) (m : Message Ts) :
  group_of ts ref_message (ms ++ [m])
  = MessageGroup_add (group_of ts ref_message ms) m.
Proof. unfold group_of. now rewrite fold_left_app. Qed.

Lemma with_message_id_snoc (message_id : string) (ms : list (Message Ts))
  (m : Message Ts) :
  with_message_id message_id (ms ++ [m])
  = with_message_id message_id ms
    ++ if String.eqb (msg_id m) message_id then [m] else [].
Proof. unfold with_message_id. now rewrite filter_app. Qed.

Lemma group_of_collections (ts : Ts) (ref_message : Message Ts)
  (ms : list (Message Ts)) :
  NoDup (message_ids (group_of ts ref_message ms))
  /\ forall message_id,
       dict_get string_dec
         (grp_message_type_collections (group_of ts ref_message ms))
         message_id
       = match with_message_id message_id ms with
         | [] => None
         | _ :: _ =>
             Some {| mtc_id := message_id;
                     mtc_messages := with_message_id message_id ms |}
         end.
Proof.
  induction ms as [|m ms IH] using rev_ind.
  - split; [constructor | reflexivity].
  - destruct IH as [Hnd Hget]. rewrite group_of_snoc.
    unfold MessageGroup_add at 1 2. unfold message_ids.
    cbn [grp_message_type_collections]. split.
    + now apply dict_set_NoDup.
    + intros id. rewrite with_message_id_snoc.
      destruct (String.eqb_spec (msg_id m) id) as [<-|Hne].
      * rewrite dict_get_set_same, Hget.
        destruct (with_message_id (msg_id m) ms) as [|a l];
          reflexivity.
      * rewrite dict_get_set_other by assumption.
        rewrite Hget, app_nil_r. reflexivity.
Qed.

(** X4. A group keeps the messages it is given by id and in the order of
    their arrival: after [add] of the messages [ms] to a new group,
    [with_id] gives for an id the collection of the messages of [ms] with
    that id, in the order of [ms], or the empty list when there is none;
    no id has two collections. *)
Theorem with_id_after_adds (ts : Ts) (ref_message : Message Ts)
  (ms : list (Message Ts)) (message_id : string) :
  with_id (group_of ts ref_message ms) message_id
  = match with_message_id message_id ms with
    | [] => IsList []
    | _ :: _ =>
        IsCollection {| mtc_id := message_id;
                        mtc_messages := with_message_id message_id ms |}
    end
  /\ NoDup (message_ids (group_of ts ref_message ms))
  /\ (In message_id (message_ids (group_of ts ref_message ms))
      <-> In message_id (map (@msg_id Ts) ms)).
Proof.
  destruct (group_of_collections ts ref_message ms) as [Hnd Hget].
  split; [|split; [exact Hnd|]].
  - unfold with_id. rewrite Hget.
    destruct (with_message_id message_id ms); reflexivity.
  - unfold message_ids. rewrite <- (dict_mem_true _ _ string_dec).
    unfold dict_mem. rewrite Hget. unfold with_message_id.
    rewrite in_map_iff. split.
    + destruct (filter (fun m => String.eqb (msg_id m) message_id) ms)
        as [|a l] eqn:E; [discriminate|]. intros _.
      assert (Ha : In a (a :: l)) by now left.
      rewrite <- E in Ha. apply filter_In in Ha. destruct Ha as [Ha Hid].
      apply String.eqb_eq in Hid. now exists a.
    + intros [m [Hid Hm]].
      assert (Hf : In m (filter (fun m => String.eqb (msg_id m) message_id)
                           ms)).
      { apply filter_In. split; [assumption|]. now apply String.eqb_eq. }
      destruct (filter (fun m => String.eqb (msg_id m) message_id) ms);
        [destruct Hf | reflexivity].
Qed.

(** *** The groups of the segmenter *)

Lemma dispatch_between (ref_message_id : string)
  (between : list (string * Ts * Message Ts)) :
  no_reference ref_message_id between ->
  forall (groups : list (MessageGroup Ts)) (g : MessageGroup Ts),
  fold_left (dispatch ref_message_id) between (groups, Some g)
  = (groups, Some (fold_left (@MessageGroup_add Ts) (map snd between) g)).
Proof.
  induction between as [|[[mid time] m] between IH]; intros H groups g;
    [reflexivity|].
  inversion H as [|? ? He Hb]; subst. unfold is_reference in He.
  cbn [fst] in He. cbn [fold_left map snd]. unfold dispatch at 2.
  rewrite He. now apply IH.
Qed.

Lemma dispatch_reference (ref_message_id : string) (st : load_state Ts)
  (e : string * Ts * Message Ts) :
  is_reference ref_message_id e = true ->
  dispatch ref_message_id st e
  = (match snd st with
     | Some g => fst st ++ [g]
     | None => fst st
     end, Some (MessageGroup_init (snd (fst e)) (snd e))).
Proof.
  destruct e as [[mid time] m]. destruct st as [groups cur].
  unfold is_reference, dispatch. cbn [fst snd]. now intros ->.
Qed.

(** X5. The group of two reference messages that follow each other: the
    first one opens it, the messages between the two are added to it in
    their order, and the second one seals it as the next group of the
    sequence. *)
Theorem group_between_references (ref_message_id : string)
  (before between : list (string * Ts * Message Ts))
  (r1 r2 : string * Ts * Message Ts) :
  is_reference ref_message_id r1 = true ->
  is_reference ref_message_id r2 = true ->
  no_reference ref_message_id between ->
  segment ref_message_id (before ++ [r1] ++ between ++ [r2])
  = segment ref_message_id (before ++ [r1])
    ++ [group_of (snd (fst r1)) (snd r1) (map snd between)].
Proof.
  intros H1 H2 Hb. unfold segment.
  rewrite (app_assoc before), (app_assoc (before ++ [r1])).
  rewrite (fold_left_app _ ((before ++ [r1]) ++ between)).
  rewrite (fold_left_app _ (before ++ [r1])).
  rewrite (fold_left_app _ before). cbn [fold_left].
  rewrite (dispatch_reference _ _ r1 H1).
  rewrite (dispatch_between _ between Hb).
  rewrite (dispatch_reference _ _ r2 H2). reflexivity.
Qed.

Lemma MessageGroup_add_anchor (g : MessageGroup Ts) (m : Message Ts) :
  grp_ref_message (MessageGroup_add g m) = grp_ref_message g
  /\ grp_ts (MessageGroup_add g m) = grp_ts g.
Proof. split; reflexivity. Qed.

Lemma segment_anchor_list (ref_message_id : string)
  (stream : list (string * Ts * Message Ts)) :
  let st := fold_left (dispatch ref_message_id) stream ([], None) in
  map (fun g => (grp_ts g, grp_ref_message g)) (fst st)
  ++ match snd st with
     | Some g => [(grp_ts g, grp_ref_message g)]
     | None => []
     end
  = map (fun e => (snd (fst e), snd e))
        (filter (is_reference ref_message_id) stream).
Proof.
  induction stream as [|e stream IH] using rev_ind; [reflexivity|].
  cbn zeta in *. rewrite fold_left_app, filter_app, map_app, <- IH.
  cbn [fold_left filter].
  set (st := fold_left (dispatch ref_message_id) stream ([], None)) in *.
  destruct (is_reference ref_message_id e) eqn:Eref.
  - rewrite (dispatch_reference _ _ e Eref). cbn [fst snd map].
    destruct (snd st) as [g|]; [|now rewrite app_nil_r].
    now rewrite map_app.
  - destruct e as [[mid time] m]. destruct st as [groups cur].
    unfold is_reference in Eref. cbn [fst snd] in *. unfold dispatch.
    rewrite Eref. cbn [map]. rewrite app_nil_r.
    destruct cur as [g|]; reflexivity.
Qed.

(** X6. The groups are anchored by the reference messages in their order,
    the last one left out: the time stamps and the reference messages of
    the groups are those of the reference messages of the stream but the
    last. *)
Theorem segment_anchors (ref_message_id : string)
  (stream : list (string * Ts * Message Ts)) :
  map (fun g => (grp_ts g, grp_ref_message g)) (segment ref_message_id stream)
  = removelast (map (fun e => (snd (fst e), snd e))
                    (filter (is_reference ref_message_id) stream)).
Proof.
  pose proof (segment_anchor_list ref_message_id stream) as H.
  cbn zeta in H. unfold segment.
  destruct (segment_opened ref_message_id stream ([], None)) as [Hop Hsome].
  set (st := fold_left (dispatch ref_message_id) stream ([], None)) in *.
  rewrite <- H. destruct (snd st) as [g|] eqn:Ecur.
  - now rewrite removelast_last.
  - rewrite app_nil_r.
    assert (Hz : reference_count ref_message_id stream = 0%nat).
    { destruct (reference_count ref_message_id stream) eqn:En;
        [reflexivity|].
      exfalso. apply Hsome; [right; lia | reflexivity]. }
    unfold opened in Hop. rewrite Ecur, Hz in Hop. cbn [fst snd] in Hop.
    destruct (fst st); [reflexivity | cbn in Hop; lia].
Qed.

(** *** Reading the rows *)

Lemma row_message_id_Raise (field : string) (e : exn) :
  row_message_id py_int field = Raise e
  <-> startswith field "0x" = false /\ py_int field = None /\ e = ValueError.
Proof.
  unfold row_message_id. destruct (startswith field "0x").
  - split; [discriminate | intros [H _]; discriminate].
  - destruct (py_int field); cbn [of_option bind].
    + split; [discriminate | intros [_ [H _]]; discriminate].
    + split; [intros H; injection H as <-; auto | intros [_ [_ ->]]; auto].
Qed.

(** X7. The rows that reach the segmenter. A row gives a message exactly
    when it has at least four fields, its time is read and is not before
    [start] nor after [end_], its bus is an integer and is the bus asked
    for, and its id is read; the message then has the id [bus:id], the
    time of the row, and the data of the row without a leading [0x]. *)
Theorem read_row_accepts (ref_bus : string) (start end_ : Ts)
  (row : list string) (message_id : string) (time : Ts)
  (message : Message Ts) :
  read_row Ts_ltb py_float py_int ref_bus start end_ row
  = Ok (Some (message_id, time, message))
  <-> exists row0 id data rest,
        row = row0 :: id :: ref_bus :: data :: rest
        /\ py_float row0 = Some time
        /\ Ts_ltb time start = false
        /\ Ts_ltb end_ time = false
        /\ py_int ref_bus <> None
        /\ row_message_id py_int id = Ok message_id
        /\ message
           = Message_init (ref_bus ++ ":" ++ message_id)%string time
               (if startswith data "0x" then string_drop 2 data else data).
Proof.
  split.
  - unfold read_row. destruct row as [|row0 row]; [discriminate|].
    destruct (py_float row0) as [t|] eqn:Et; cbn [of_option bind];
      [|discriminate].
    destruct (Ts_ltb t start) eqn:E1; [discriminate|].
    destruct (Ts_ltb end_ t) eqn:E2; [discriminate|]. cbn [orb].
    destruct row as [|id row]; [discriminate|].
    destruct row as [|bus row]; [discriminate|]. cbn [nth_error nth].
    destruct (py_int bus) eqn:Eb; [|discriminate].
    destruct (row_message_id py_int id) as [mid|e] eqn:Eid;
      cbn [bind]; [|discriminate].
    destruct (String.eqb_spec bus ref_bus) as [->|Hne]; cbn [negb];
      [|discriminate].
    destruct row as [|data rest]; [discriminate|]. cbn [of_option bind].
    intros H. injection H as <- <- <-.
    exists row0, id, data, rest. rewrite Eb.
    repeat split; try assumption. discriminate.
  - intros [row0 [id [data [rest [-> [Et [E1 [E2 [Eb [Eid ->]]]]]]]]]].
    unfold read_row. rewrite Et. cbn [of_option bind]. rewrite E1, E2.
    cbn [orb nth_error nth].
    destruct (py_int ref_bus); [|congruence].
    rewrite Eid. cbn [bind]. rewrite String.eqb_refl. reflexivity.
Qed.

(** X8. The exceptions of reading a row. A row raises [ValueError] when its
    time is not a number, and also when its id is neither hexadecimal nor
    a number, whatever its bus, provided the time is in the window and the
    bus is an integer; a row of the bus asked for raises [IndexError] when
    it has three fields only. No other row raises. *)
Theorem read_row_raises (ref_bus : string) (start end_ : Ts)
  (row : list string) (e : exn) :
  read_row Ts_ltb py_float py_int ref_bus start end_ row = Raise e
  <-> (e = ValueError
       /\ exists row0 rest, row = row0 :: rest /\ py_float row0 = None)
      \/ (exists row0 id bus rest time,
            row = row0 :: id :: bus :: rest
            /\ py_float row0 = Some time
            /\ Ts_ltb time start = false /\ Ts_ltb end_ time = false
            /\ py_int bus <> None
            /\ ((e = ValueError
                 /\ startswith id "0x" = false /\ py_int id = None)
                \/ (e = IndexError
                    /\ row_message_id py_int id <> Raise ValueError
                    /\ bus = ref_bus /\ rest = []))).
Proof.
  split.
  - unfold read_row. destruct row as [|row0 row]; [discriminate|].
    destruct (py_float row0) as [t|] eqn:Et; cbn [of_option bind].
    2:{ intros H. injection H as <-. left. split; [reflexivity|].
        now exists row0, row. }
    destruct (Ts_ltb t start) eqn:E1; [discriminate|].
    destruct (Ts_ltb end_ t) eqn:E2; [discriminate|]. cbn [orb].
    destruct row as [|id row]; [discriminate|].
    destruct row as [|bus row]; [discriminate|]. cbn [nth_error nth].
    destruct (py_int bus) eqn:Eb; [|discriminate].
    intros H. right. exists row0, id, bus, row, t.
    split; [reflexivity|]. split; [assumption|]. split; [assumption|].
    split; [assumption|]. split; [congruence|].
    destruct (row_message_id py_int id) as [mid|e1] eqn:Eid; cbn [bind] in H.
    + right. destruct (String.eqb_spec bus ref_bus) as [->|Hne];
        cbn [negb] in H; [|discriminate].
      destruct row as [|data rest]; cbn [of_option bind] in H;
        [|discriminate].
      injection H as <-. repeat split. discriminate.
    + injection H as <-. left. apply row_message_id_Raise in Eid.
      destruct Eid as [H1 [H2 ->]]. auto.
  - intros [[-> [row0 [rest [-> Et]]]]
           |[row0 [id [bus [rest [t [-> [Et [E1 [E2 [Eb H]]]]]]]]]]].
    + unfold read_row. now rewrite Et.
    + unfold read_row. rewrite Et. cbn [of_option bind]. rewrite E1, E2.
      cbn [orb nth_error nth]. destruct (py_int bus); [|congruence].
      destruct H as [[-> [H1 H2]]|[-> [Hid [-> ->]]]].
      * assert (Eid : row_message_id py_int id = Raise ValueError)
          by (apply row_message_id_Raise; auto).
        now rewrite Eid.
      * destruct (row_message_id py_int id) as [mid|e1] eqn:Eid.
        -- cbn [bind]. now rewrite String.eqb_refl.
        -- exfalso. apply Hid. apply row_message_id_Raise in Eid.
           destruct Eid as [_ [_ ->]]. reflexivity.
Qed.

(** *** [load] as reading, then segmenting *)

Lemma dispatch_prefix (ref_message_id : string)
  (stream : list (string * Ts * Message Ts)) :
  forall (before groups : list (MessageGroup Ts))
         (cur : option (MessageGroup Ts)),
  fold_left (dispatch ref_message_id) stream (before ++ groups, cur)
  = (before ++ fst (fold_left (dispatch ref_message_id) stream (groups, cur)),
     snd (fold_left (dispatch ref_message_id) stream (groups, cur))).
Proof.
  induction stream as [|[[mid time] m] stream IH]; intros before groups cur;
    [reflexivity|].
  cbn [fold_left]. unfold dispatch at 2 4 6.
  destruct (String.eqb mid ref_message_id); destruct cur as [g|];
    rewrite <- ?app_assoc; apply IH.
Qed.

Lemma load_rows_read (ref_message_id ref_bus : string) (start end_ : Ts)
  (rows : list (list string)) :
  forall st : load_state Ts,
  foldM (load_row Ts_ltb py_float py_int ref_message_id ref_bus start end_)
        rows st
  = let* stream := read_rows Ts_ltb py_float py_int ref_bus start end_ rows in
    Ok (fold_left (dispatch ref_message_id) stream st).
Proof.
  induction rows as [|row rows IH]; intros st; [reflexivity|].
  cbn [foldM read_rows]. unfold load_row at 1.
  destruct (read_row Ts_ltb py_float py_int ref_bus start end_ row)
    as [entry|e]; cbn [bind]; [|reflexivity].
  destruct entry as [en|]; cbn [bind]; rewrite IH;
    destruct (read_rows Ts_ltb py_float py_int ref_bus start end_ rows);
    reflexivity.
Qed.

(** X9. [load] reads the rows and then segments them: on a log whose header
    starts with [time] it raises the exception of the first row that cannot
    be read, if there is one, whatever the rows before it were; otherwise it
    appends the groups of the stream to the groups it had. *)
Theorem load_reads_then_segments (self : list (MessageGroup Ts))
  (h : list string) (rows : list (list string))
  (ref_message_id ref_bus : string) (start end_ : Ts) :
  load Ts_ltb py_float py_int self (("time" :: h) :: rows)
       ref_message_id ref_bus start end_
  = let* stream := read_rows Ts_ltb py_float py_int ref_bus start end_ rows in
    Ok (self ++ segment ref_message_id stream).
Proof.
  unfold load. cbn [String.eqb Ascii.eqb Bool.eqb negb].
  rewrite load_rows_read.
  destruct (read_rows Ts_ltb py_float py_int ref_bus start end_ rows)
    as [stream|e]; [|reflexivity].
  cbn [bind]. f_equal. unfold segment.
  rewrite <- (app_nil_r self) at 1.
  now rewrite dispatch_prefix.
Qed.

(** *** Two groups under one key *)

(** X10. Two groups with the same time stamp are one group to a tracker:
    after [add] of both, the tracker has one key more, under which it holds
    the deduplicated messages of the first group followed by those of the
    second, and the reference message of the first. *)
Theorem add_same_key_merges (t : MessageTracker Ts)
  (g1 g2 : MessageGroup Ts) (c1 c2 : MessageTypeCollection Ts) :
  dict_get string_dec (grp_message_type_collections g1) (trk_id t) = Some c1 ->
  dict_get string_dec (grp_message_type_collections g2) (trk_id t) = Some c2 ->
  grp_ts g2 = grp_ts g1 ->
  ~ In (grp_ts g1) (dict_keys (trk_messages t)) ->
  let t1 := fst (MessageTracker_add Ts_eq_dec t g1) in
  let t2 := fst (MessageTracker_add Ts_eq_dec t1 g2) in
  snd (MessageTracker_add Ts_eq_dec t g1) = Ok tt
  /\ snd (MessageTracker_add Ts_eq_dec t1 g2) = Ok tt
  /\ dict_keys (trk_messages t2) = dict_keys (trk_messages t) ++ [grp_ts g1]
  /\ dict_get Ts_eq_dec (trk_messages t2) (grp_ts g1)
     = Some (messages_with_change c1 ++ messages_with_change c2)
  /\ dict_get Ts_eq_dec (trk_ref_messages t2) (grp_ts g1)
     = Some (grp_ref_message g1).
Proof.
  intros H1 H2 Hts Hnew. cbn zeta.
  assert (Hmem : dict_mem Ts_eq_dec (trk_messages t) (grp_ts g1) = false)
    by now apply dict_mem_false.
  assert (E1 : MessageTracker_add Ts_eq_dec t g1
               = ({| trk_id := trk_id t;
                     trk_messages :=
                       trk_messages t
                       ++ [(grp_ts g1, messages_with_change c1)];
                     trk_ref_messages :=
                       dict_set Ts_eq_dec (trk_ref_messages t) (grp_ts g1)
                         (grp_ref_message g1);
                     trk_group_count := trk_group_count t |}, Ok tt)).
  { unfold MessageTracker_add, with_id, enter_group.
    rewrite H1, Hmem. cbn [trk_messages trk_id trk_ref_messages
                             trk_group_count].
    rewrite dict_get_set_same.
    rewrite (dict_set_new _ _ Ts_eq_dec (trk_messages t) (grp_ts g1) []
               Hnew).
    rewrite dict_set_last by assumption. reflexivity. }
  rewrite E1. cbn [fst snd].
  set (t1 := {| trk_id := trk_id t;
                trk_messages :=
                  trk_messages t ++ [(grp_ts g1, messages_with_change c1)];
                trk_ref_messages :=
                  dict_set Ts_eq_dec (trk_ref_messages t) (grp_ts g1)
                    (grp_ref_message g1);
                trk_group_count := trk_group_count t |}).
  assert (Hmem1 : dict_mem Ts_eq_dec (trk_messages t1) (grp_ts g2) = true).
  { unfold dict_mem, t1. cbn [trk_messages].
    now rewrite Hts, dict_get_last. }
  assert (E2 : MessageTracker_add Ts_eq_dec t1 g2
               = ({| trk_id := trk_id t;
                     trk_messages :=
                       trk_messages t
                       ++ [(grp_ts g1,
                            messages_with_change c1
                            ++ messages_with_change c2)];
                     trk_ref_messages := trk_ref_messages t1;
                     trk_group_count := trk_group_count t |}, Ok tt)).
  { unfold MessageTracker_add, with_id, enter_group. rewrite Hmem1.
    change (trk_id t1) with (trk_id t). rewrite H2, Hts.
    unfold t1 at 1 2 3. cbn [trk_messages trk_id].
    rewrite dict_get_last, dict_set_last by assumption. reflexivity. }
  rewrite E2. cbn [fst snd trk_messages trk_ref_messages].
  split; [reflexivity|]. split; [reflexivity|]. split; [|split].
  - unfold dict_keys. now rewrite map_app.
  - now apply dict_get_last.
  - unfold t1. cbn [trk_ref_messages]. apply dict_get_set_same.
Qed.

(** *** Bits and totals *)

Lemma flips_app (b : Z) (ds1 ds2 : list Z) :
  flips b (ds1 ++ ds2) = (flips b ds1 + flips b ds2)%Z.
Proof. unfold flips. rewrite filter_app, length_app. lia. Qed.

Lemma toggle_counts_length (ds : list Z) :
  List.length (toggle_counts ds) = 64%nat.
Proof. unfold toggle_counts, range_64_down. now rewrite !length_map, length_seq. Qed.

(** X11. Only the 64 low bits of a payload are counted, whatever its
    width: a step of [track_changes_to] from a payload [a] to a payload [b]
    adds to the count of bit [k < 64] exactly when [a] and [b] differ at
    bit [k], the vector keeps its 64 entries, and it does not change at all
    when [a] and [b] agree on their 64 low bits. *)
Theorem track_changes_to_low_bits (group_ts : Ts) (message_id : string)
  (ref_message : Message Ts) (base0 : option (Message Ts))
  (ms : list (Message Ts)) :
  (forall b, base0 = Some b -> has_payload hex_int b) ->
  Forall (has_payload hex_int) ms ->
  exists self,
    foldM (track_changes_to hex_int) ms
      (MessageChangeTracker_init group_ts message_id ref_message base0)
    = Ok self
    /\ List.length (mct_bit_changes_count self) = 64%nat
    /\ forall (base message : Message Ts) (a b : Z),
         mct_base_message self = Some base ->
         hex_int (msg_data base) = Some a ->
         hex_int (msg_data message) = Some b ->
         exists self',
           track_changes_to hex_int self message = Ok self'
           /\ List.length (mct_bit_changes_count self') = 64%nat
           /\ (forall k, (k < 64)%nat ->
                 nth (63 - k) (mct_bit_changes_count self') 0%Z
                 = (nth (63 - k) (mct_bit_changes_count self) 0
                    + (if Bool.eqb (Z.testbit a (Z.of_nat k))
                                   (Z.testbit b (Z.of_nat k))
                       then 0 else 1))%Z)
           /\ ((a mod 2 ^ 64 = b mod 2 ^ 64)%Z ->
               mct_bit_changes_count self' = mct_bit_changes_count self).
Proof.
  intros Hbase Hms.
  destruct (track_changes_fold ms
              (MessageChangeTracker_init group_ts message_id ref_message base0)
              [] eq_refl eq_refl Hbase Hms)
    as [self [E [C [N _]]]].
  exists self. split; [exact E|]. cbn [app] in N.
  split; [rewrite N; apply toggle_counts_length|].
  intros base message a b Hb Ha Hb'.
  assert (Hd : bit_changes_from hex_int message (mct_base_message self)
               = Ok (Z.lxor b a)).
  { rewrite Hb. cbn [bit_changes_from]. now rewrite Hb', Ha. }
  destruct (track_changes_to_counts self message _ _ C N Hd)
    as [self' [E' [_ [N' _]]]].
  exists self'. split; [exact E'|].
  split; [rewrite N'; apply toggle_counts_length|]. split.
  - intros k Hk. rewrite N', N, !nth_toggle_counts by assumption.
    rewrite flips_snoc, Z.lxor_spec.
    destruct (Z.testbit a (Z.of_nat k)), (Z.testbit b (Z.of_nat k));
      reflexivity.
  - intros Hmod. rewrite N', N. unfold toggle_counts. apply map_ext_in.
    intros i Hi. apply In_range_64_down in Hi.
    rewrite flips_snoc, Z.lxor_spec.
    rewrite <- (Z.mod_pow2_bits_low a 64 (i - 1)) by lia.
    rewrite <- (Z.mod_pow2_bits_low b 64 (i - 1)) by lia.
    rewrite Hmod, xorb_nilpotent. lia.
Qed.

(** *** The counts of all the groups together *)

Lemma deltas_app (l1 l2 : list (Message Ts)) :
  forall p : option (Message Ts),
  deltas hex_int p (l1 ++ l2)
  = deltas hex_int p l1 ++ deltas hex_int (last_message p l1) l2.
Proof.
  induction l1 as [|m l1 IH]; intros p; [reflexivity|].
  cbn [app deltas last_message]. now rewrite IH.
Qed.

Lemma tuples_messages (occ : dict Ts (list (Message Ts))) :
  map snd (flat_map (fun item : Ts * list (Message Ts) =>
                       map (fun message => (fst item, message)) (snd item))
                    occ)
  = List.concat (map snd occ).
Proof.
  induction occ as [|[g ms] occ IH]; [reflexivity|].
  cbn [flat_map map List.concat fst snd]. rewrite map_app, IH, map_map.
  cbn [snd]. now rewrite map_id.
Qed.

Lemma change_records_total (refs : dict Ts (Message Ts)) (k : nat) :
  (k < 64)%nat ->
  forall (occ : dict Ts (list (Message Ts))) (p : option (Message Ts)),
  fold_right Z.add 0%Z
    (map (fun r => nth (63 - k) (cr_toggle_counts r) 0%Z)
         (change_records Ts_eq_dec hex_int refs p occ))
  = flips (Z.of_nat k) (deltas hex_int p (List.concat (map snd occ))).
Proof.
  intros Hk. induction occ as [|[g ms] occ IH]; intros p; [reflexivity|].
  cbn [map List.concat snd]. rewrite deltas_app, flips_app.
  destruct ms as [|m ms].
  - cbn [change_records]. rewrite IH. cbn [last_message deltas].
    unfold flips at 2. cbn. lia.
  - cbn [change_records map fold_right cr_toggle_counts].
    now rewrite IH, nth_toggle_counts.
Qed.

(** X12. No transition is lost or counted twice between the groups: over
    all the change trackers of a tracker, the counts of bit [k] add up to
    the number of times bit [k] changes from one occurrence of the id to
    the next, over the whole sequence of its occurrences. *)
Theorem group_change_trackers_total (t : MessageTracker Ts) (k : nat) :
  tracker_wf Ts_eq_dec t ->
  (forall g m, In (g, m) (group_message_tuples t) -> has_payload hex_int m) ->
  (k < 64)%nat ->
  exists trackers,
    group_change_trackers Ts_eq_dec hex_int t = Ok trackers
    /\ fold_right Z.add 0%Z
         (map (fun ct => nth (63 - k) (mct_bit_changes_count ct) 0%Z)
              trackers)
       = flips (Z.of_nat k)
           (deltas hex_int None (map snd (group_message_tuples t))).
Proof.
  intros Hwf Hpay Hk.
  destruct (group_change_trackers_records t Hwf Hpay)
    as [trackers [E [_ Hrec]]].
  exists trackers. split; [exact E|].
  unfold group_message_tuples. rewrite tuples_messages.
  rewrite <- (change_records_total (trk_ref_messages t) k Hk).
  rewrite <- Hrec, map_map. reflexivity.
Qed.

(** *** The check, group by group *)

Lemma annotate_messages_data (ms : list (Message Ts)) :
  forall p p' : Message Ts,
  msg_data p = msg_data p' ->
  annotate_messages hex_int (Some p) ms = annotate_messages hex_int (Some p') ms.
Proof.
  destruct ms as [|m ms]; intros p p' Hd; [reflexivity|].
  cbn [annotate_messages delta]. unfold payload. now rewrite Hd.
Qed.

Lemma annotated_group (g : Ts) (ms : list (Message Ts)) :
  forall (p : option (Message Ts)) (l : list (Ts * Message Ts)),
  annotated hex_int p (map (fun message => (g, message)) ms ++ l)
  = map (fun message => (g, message)) (annotate_messages hex_int p ms)
    ++ annotated hex_int (last_message p ms) l.
Proof.
  induction ms as [|m ms IH]; intros p l; [reflexivity|].
  cbn [map app annotated annotate_messages last_message].
  f_equal. rewrite <- IH. apply annotated_data. reflexivity.
Qed.

Lemma annotated_keys (l : list (Ts * Message Ts)) :
  forall p : option (Message Ts),
  map fst (annotated hex_int p l) = map fst l.
Proof.
  induction l as [|[g m] l IH]; intros p; [reflexivity|].
  cbn [annotated map fst]. now rewrite IH.
Qed.

Lemma runs_block (g : Ts) (ms : list (Message Ts))
  (l : list (Ts * Message Ts)) :
  ms <> [] ->
  ~ In g (map fst l) ->
  runs Ts_eq_dec (map (fun message => (g, message)) ms ++ l)
  = ms :: runs Ts_eq_dec l.
Proof.
  intros Hne Hg. induction ms as [|m ms IH]; [congruence|].
  destruct ms as [|m1 ms].
  - cbn [map app]. destruct l as [|[g1 m1] l]; [reflexivity|].
    rewrite runs_cons_cons.
    pose proof (runs_cons_nonempty (g1, m1) l) as Hr.
    destruct (runs Ts_eq_dec ((g1, m1) :: l)) as [|r rs]; [congruence|].
    destruct (Ts_eq_dec g g1) as [->|_]; [|reflexivity].
    exfalso. apply Hg. now left.
  - change (map (fun message => (g, message)) (m :: m1 :: ms) ++ l)
      with ((g, m) :: (g, m1)
              :: (map (fun message => (g, message)) ms ++ l)).
    rewrite runs_cons_cons.
    change ((g, m1) :: (map (fun message => (g, message)) ms ++ l))
      with (map (fun message => (g, message)) (m1 :: ms) ++ l).
    rewrite IH by discriminate.
    destruct (Ts_eq_dec g g); [reflexivity | congruence].
Qed.

Lemma tuples_keys (occ : dict Ts (list (Message Ts))) (g : Ts) :
  In g (map fst (flat_map (fun item : Ts * list (Message Ts) =>
                             map (fun message => (fst item, message))
                                 (snd item)) occ)) ->
  In g (dict_keys occ).
Proof.
  induction occ as [|[g1 ms] occ IH]; [trivial|].
  cbn [flat_map fst snd]. rewrite map_app, in_app_iff, map_map.
  cbn [fst dict_keys map]. intros [H|H].
  - left. apply in_map_iff in H. now destruct H as [m [-> _]].
  - right. now apply IH.
Qed.

(** The runs of the sequence with bit changes are the groups. *)
Lemma runs_groups (occ : dict Ts (list (Message Ts))) :
  NoDup (dict_keys occ) ->
  forall p : option (Message Ts),
  runs Ts_eq_dec
    (annotated hex_int p
       (flat_map (fun item : Ts * list (Message Ts) =>
                    map (fun message => (fst item, message)) (snd item))
                 occ))
  = group_runs hex_int p occ.
Proof.
  induction occ as [|[g ms] occ IH]; intros Hnd p; [reflexivity|].
  inversion Hnd as [|? ? Hg Hnd1]; subst.
  cbn [flat_map fst snd group_runs]. rewrite annotated_group.
  destruct ms as [|m ms]; [now apply IH|].
  rewrite runs_block.
  - now rewrite IH.
  - discriminate.
  - rewrite annotated_keys. intros H. apply Hg. now apply tuples_keys.
Qed.

Lemma run_or_zero (r : list (Message Ts)) :
  (run_or r =? 0)%Z
  = negb (existsb (fun d => negb (d =? 0)%Z) (map (@msg_bit_changes Ts) r)).
Proof.
  induction r as [|m r IH]; [reflexivity|].
  cbn [run_or fold_right map existsb]. fold (run_or r).
  rewrite negb_orb, negb_involutive, <- IH.
  destruct (Z.eqb_spec (msg_bit_changes m) 0) as [->|Hm].
  - now rewrite Z.lor_0_l.
  - cbn [andb]. apply Z.eqb_neq. intros H. apply Z.lor_eq_0_iff in H.
    now destruct H.
Qed.

Lemma annotate_messages_changes (ms : list (Message Ts)) :
  forall p : option (Message Ts),
  map (@msg_bit_changes Ts) (annotate_messages hex_int p ms)
  = deltas hex_int p ms.
Proof.
  induction ms as [|m ms IH]; intros p; [reflexivity|].
  cbn [annotate_messages map deltas msg_bit_changes]. now rewrite IH.
Qed.

Lemma group_run_changes (p : option (Message Ts)) (m : Message Ts)
  (ms : list (Message Ts)) :
  negb (run_or (tl (annotate_messages hex_int p (m :: ms))) =? 0)%Z
  = changes_within hex_int (m :: ms).
Proof.
  cbn [annotate_messages tl changes_within].
  now rewrite run_or_zero, negb_involutive, annotate_messages_changes.
Qed.

Lemma runs_change_nonneg (rs : list (list (Message Ts))) :
  Forall (fun r => (0 <= run_or (tl r))%Z) rs ->
  forall v, (0 <= v)%Z ->
  runs_change v rs
  = negb (v =? 0)%Z && forallb (fun r => negb (run_or (tl r) =? 0)%Z) rs.
Proof.
  induction rs as [|r rs IH]; intros H v Hv.
  - cbn [runs_change forallb]. rewrite andb_true_r.
    destruct (Z.eqb_spec v 0) as [->|Hne]; [reflexivity|].
    cbn [negb]. apply Z.gtb_lt. lia.
  - inversion H; subst. cbn [runs_change forallb]. now rewrite IH.
Qed.

Lemma group_runs_changes (occ : dict Ts (list (Message Ts))) :
  Forall (fun item => snd item <> []) occ ->
  forall p : option (Message Ts),
  forallb (fun r => negb (run_or (tl r) =? 0)%Z) (group_runs hex_int p occ)
  = forallb (fun item => changes_within hex_int (snd item)) occ.
Proof.
  induction occ as [|[g ms] occ IH]; intros H p; [reflexivity|].
  inversion H as [|? ? Hms Hocc]; subst. cbn [snd] in Hms.
  destruct ms as [|m ms]; [congruence|].
  cbn [group_runs forallb snd]. now rewrite group_run_changes, IH.
Qed.

Lemma check_by_group (t : MessageTracker Ts) :
  tracker_wf Ts_eq_dec t ->
  (forall g m, In (g, m) (group_message_tuples t) ->
               unsigned_payload hex_int m) ->
  in_all_groups_with_change Ts_eq_dec hex_int t
  = Ok (in_all t
        && negb (Nat.eqb (MessageTracker_count t) 0)
        && forallb (fun item => changes_within hex_int (snd item))
                   (trk_messages t)).
Proof.
  intros [Hnd [_ Hne]] Hpay.
  assert (Hall : Forall (fun item => unsigned_payload hex_int (snd item))
                        (group_message_tuples t)).
  { apply Forall_forall. intros [g m] Hin. exact (Hpay g m Hin). }
  assert (Hr : readable_chain hex_int None (group_message_tuples t)).
  { apply readable_chain_all; [|discriminate].
    eapply Forall_impl; [|exact Hall].
    intros item. apply unsigned_has_payload. }
  pose proof (tuples_with_bit_changes_Ok t Hr) as E.
  rewrite (in_all_groups_with_change_exact t _ E).
  rewrite <- andb_assoc. f_equal. f_equal.
  assert (Hnn : Forall (Forall (fun m => (0 <= msg_bit_changes m)%Z))
                  (runs Ts_eq_dec
                     (annotated hex_int None (group_message_tuples t)))).
  { apply runs_messages. apply annotated_nonneg; [assumption|discriminate]. }
  unfold group_message_tuples in *. rewrite (runs_groups _ Hnd None) in *.
  unfold MessageTracker_count.
  rewrite <- (group_runs_changes _ Hne None).
  destruct (trk_messages t) as [|[g ms] occ]; [reflexivity|].
  inversion Hne as [|? ? Hms _]; subst. cbn [snd] in Hms.
  destruct ms as [|m ms]; [congruence|].
  cbn [group_runs List.length Nat.eqb negb andb] in *.
  inversion Hnn as [|? ? Hn1 Hn2]; subst.
  rewrite runs_change_nonneg.
  - cbn [forallb]. f_equal;
      cbn [annotate_messages run_or fold_right tl msg_bit_changes delta];
      now rewrite Z.lor_0_l.
  - eapply Forall_impl; [|exact Hn2]. intros r Hr1.
    apply run_or_nonneg. destruct r; [constructor | now inversion Hr1].
  - now apply run_or_nonneg.
Qed.

(** X13. The check, group by group. For a tracker as [add] feeds it, with
    unsigned payloads, [in_all_groups_with_change] is true exactly when the
    id is in all groups, has a group, and in every group some occurrence
    differs as a number from the occurrence before it in that group; the
    difference between the first occurrence of a group and the last one of
    the group before does not count. *)
Theorem in_all_groups_with_change_by_group (t : MessageTracker Ts) :
  tracker_wf Ts_eq_dec t ->
  (forall g m, In (g, m) (group_message_tuples t) ->
               unsigned_payload hex_int m) ->
  in_all_groups_with_change Ts_eq_dec hex_int t
  = Ok (in_all t
        && negb (Nat.eqb (MessageTracker_count t) 0)
        && forallb (fun item => changes_within hex_int (snd item))
                   (trk_messages t)).
Proof. exact (check_by_group t). Qed.

(** *** What the trackers hold *)

Lemma tracker_of_snoc (N : Z) (message_id : string)
  (gs : list (MessageGroup Ts)) (g : MessageGroup Ts) :
  tracker_of N message_id (gs ++ [g])
  = if has_id message_id g
    then {| trk_id := message_id;
            trk_messages :=
              trk_messages (tracker_of N message_id gs)
              ++ [(grp_ts g, occurrences_in message_id g)];
            trk_ref_messages :=
              trk_ref_messages (tracker_of N message_id gs)
              ++ [(grp_ts g, grp_ref_message g)];
            trk_group_count := N |}
    else tracker_of N message_id gs.
Proof.
  unfold tracker_of. rewrite filter_app. cbn [filter].
  destruct (has_id message_id g); cbn [trk_messages trk_ref_messages].
  - now rewrite !map_app.
  - now rewrite app_nil_r.
Qed.

Lemma tracker_of_keys (N : Z) (message_id : string)
  (gs : list (MessageGroup Ts)) (k : Ts) :
  (In k (dict_keys (trk_messages (tracker_of N message_id gs)))
   \/ In k (dict_keys (trk_ref_messages (tracker_of N message_id gs)))) ->
  In k (map (@grp_ts Ts) gs).
Proof.
  unfold tracker_of, dict_keys. cbn [trk_messages trk_ref_messages].
  rewrite !map_map. cbn [fst].
  intros [H|H]; apply in_map_iff in H; destruct H as [g [<- Hg]];
    apply filter_In in Hg; apply in_map; ptauto.
Qed.

(** [add] of a group with a new time stamp that has the id. *)
Lemma MessageTracker_add_tracker_of (N : Z) (message_id : string)
  (gs : list (MessageGroup Ts)) (g : MessageGroup Ts) :
  has_id message_id g = true ->
  ~ In (grp_ts g) (map (@grp_ts Ts) gs) ->
  MessageTracker_add Ts_eq_dec (tracker_of N message_id gs) g
  = (tracker_of N message_id (gs ++ [g]), Ok tt).
Proof.
  intros Hhas Hnew. rewrite tracker_of_snoc, Hhas.
  assert (Hk1 : ~ In (grp_ts g)
                  (dict_keys (trk_messages (tracker_of N message_id gs)))).
  { intros H. apply Hnew. apply (tracker_of_keys N message_id). now left. }
  assert (Hk2 : ~ In (grp_ts g)
                  (dict_keys
                     (trk_ref_messages (tracker_of N message_id gs)))).
  { intros H. apply Hnew. apply (tracker_of_keys N message_id). now right. }
  apply has_id_true in Hhas.
  destruct (dict_get_In _ _ string_dec (grp_message_type_collections g)
              message_id Hhas) as [c Hc].
  unfold MessageTracker_add, with_id, enter_group, occurrences_in.
  change (trk_id (tracker_of N message_id gs)) with message_id.
  rewrite Hc.
  apply (dict_mem_false _ _ Ts_eq_dec) in Hk1 as Hmem. rewrite Hmem.
  cbn [trk_messages trk_ref_messages trk_id trk_group_count].
  change (trk_group_count (tracker_of N message_id gs)) with N.
  rewrite dict_get_set_same.
  rewrite (dict_set_new _ _ Ts_eq_dec _ (grp_ts g) [] Hk1).
  rewrite (dict_set_new _ _ Ts_eq_dec _ (grp_ts g) (grp_ref_message g) Hk2).
  rewrite dict_set_last by assumption. reflexivity.
Qed.

Lemma tracker_of_none (N : Z) (message_id : string)
  (gs : list (MessageGroup Ts)) :
  existsb (has_id message_id) gs = false ->
  tracker_of N message_id gs = MessageTracker_init Ts message_id N.
Proof.
  intros H. unfold tracker_of, MessageTracker_init.
  replace (filter (has_id message_id) gs) with (@nil (MessageGroup Ts));
    [reflexivity|].
  induction gs as [|g gs IH]; [reflexivity|].
  cbn [existsb filter] in *. apply orb_false_iff in H. destruct H as [-> H].
  now apply IH.
Qed.

Lemma track_group_ids_once (N : Z) (g : MessageGroup Ts) (ids : list string) :
  NoDup ids ->
  (forall id, In id ids -> In id (message_ids g)) ->
  forall td : dict string (MessageTracker Ts),
  (forall id t, dict_get string_dec td id = Some t -> trk_id t = id) ->
  exists td1,
    foldM (track_group_id Ts_eq_dec N g) ids td = Ok td1
    /\ (forall id, ~ In id ids ->
                   dict_get string_dec td1 id = dict_get string_dec td id)
    /\ (forall id, In id ids ->
          dict_get string_dec td1 id
          = Some (fst (MessageTracker_add Ts_eq_dec
                         match dict_get string_dec td id with
                         | Some t => t
                         | None => MessageTracker_init Ts id N
                         end g))).
Proof.
  intros Hnd. induction Hnd as [|id0 ids Hnot Hnd IH]; intros Hids td Hid.
  - exists td. cbn [foldM]. repeat split; auto. intros id [].
  - destruct (track_group_id_spec N g td id0 (Hids id0 (or_introl eq_refl))
                (Hid id0))
      as [td1 [t1 [E [_ [Hother [Hget [Hi [_ [_ Ht1]]]]]]]]].
    assert (Hid1 : forall id t,
               dict_get string_dec td1 id = Some t -> trk_id t = id).
    { intros id t Ht. destruct (string_dec id id0) as [->|Hne].
      - rewrite Hget in Ht. now injection Ht as <-.
      - rewrite Hother in Ht by assumption. now apply Hid. }
    destruct (IH (fun id H => Hids id (or_intror H)) td1 Hid1)
      as [td2 [E2 [Hout Hin]]].
    exists td2. cbn [foldM]. rewrite E. cbn [bind].
    split; [exact E2|]. split.
    + intros id Hn. rewrite Hout by (intros H; apply Hn; now right).
      apply Hother. intros ->. apply Hn. now left.
    + intros id [<-|Hin0].
      * rewrite (Hout id0 Hnot), Hget, Ht1. reflexivity.
      * rewrite (Hin id Hin0), Hother; [reflexivity|].
        intros ->. contradiction.
Qed.

Lemma existsb_snoc (A : Type) (f : A -> bool) (l : list A) (x : A) :
  existsb f (l ++ [x]) = existsb f l || f x.
Proof. rewrite existsb_app. cbn. now rewrite orb_false_r. Qed.

Lemma track_groups_contents (N : Z) (gs : list (MessageGroup Ts)) :
  forall (gs0 : list (MessageGroup Ts))
         (td : dict string (MessageTracker Ts)),
  NoDup (map (@grp_ts Ts) (gs0 ++ gs)) ->
  Forall (fun g => NoDup (message_ids g)) gs ->
  (forall id, dict_get string_dec td id
              = if existsb (has_id id) gs0
                then Some (tracker_of N id gs0) else None) ->
  exists td1,
    foldM (track_group Ts_eq_dec N) gs td = Ok td1
    /\ forall id, dict_get string_dec td1 id
                  = if existsb (has_id id) (gs0 ++ gs)
                    then Some (tracker_of N id (gs0 ++ gs)) else None.
Proof.
  induction gs as [|g gs IH]; intros gs0 td Hnd Hids Hc.
  - exists td. rewrite app_nil_r. auto.
  - inversion Hids as [|? ? Hg Hgs]; subst.
    assert (Hnew : ~ In (grp_ts g) (map (@grp_ts Ts) gs0)).
    { rewrite map_app in Hnd. cbn [map] in Hnd.
      apply NoDup_remove_2 in Hnd. intros H. apply Hnd.
      apply in_or_app. now left. }
    assert (Hid : forall id t,
               dict_get string_dec td id = Some t -> trk_id t = id).
    { intros id t Ht. rewrite Hc in Ht.
      destruct (existsb (has_id id) gs0); [|discriminate].
      now injection Ht as <-. }
    destruct (track_group_ids_once N g (message_ids g) Hg (fun id H => H)
                td Hid) as [td1 [E [Hout Hin]]].
    destruct (IH (gs0 ++ [g]) td1) as [td2 [E2 Hc2]].
    + now rewrite <- app_assoc.
    + assumption.
    + intros id. rewrite existsb_snoc.
      destruct (has_id id g) eqn:Ehas.
      * rewrite orb_true_r. apply has_id_true in Ehas as Hin0.
        rewrite (Hin id Hin0), (Hc id).
        assert (Et : (if existsb (has_id id) gs0
                      then Some (tracker_of N id gs0) else None)
                     = Some (tracker_of N id gs0)
                     \/ existsb (has_id id) gs0 = false).
        { destruct (existsb (has_id id) gs0); auto. }
        destruct Et as [->|Ef].
        -- now rewrite (MessageTracker_add_tracker_of N id gs0 g Ehas Hnew).
        -- rewrite Ef, <- (tracker_of_none N id gs0 Ef).
           now rewrite (MessageTracker_add_tracker_of N id gs0 g Ehas Hnew).
      * rewrite orb_false_r.
        assert (Hn : ~ In id (message_ids g)).
        { intros H. apply has_id_true in H. congruence. }
        rewrite (Hout id Hn), (Hc id), tracker_of_snoc, Ehas. reflexivity.
    + exists td2. cbn [foldM]. unfold track_group at 1. rewrite E.
      cbn [bind]. rewrite <- app_assoc in Hc2. auto.
Qed.

(** X14. What the trackers hold. When the time stamps of the groups are
    distinct, [TrackSignal] builds, for every id that some group has, the
    tracker that holds under the time stamp of each group with the id, in
    the order of the groups, the deduplicated messages of the id in that
    group and the reference message of that group; it builds no tracker
    for any other id. *)
Theorem build_trackers_contents (groups : list (MessageGroup Ts)) :
  NoDup (map (@grp_ts Ts) groups) ->
  Forall (fun g => NoDup (message_ids g)) groups ->
  exists trackers_dict,
    build_trackers Ts_eq_dec groups = Ok trackers_dict
    /\ forall message_id,
         dict_get string_dec trackers_dict message_id
         = if existsb (has_id message_id) groups
           then Some (tracker_of (Z.of_nat (List.length groups)) message_id
                                 groups)
           else None.
Proof.
  intros Hnd Hids. unfold build_trackers.
  apply (track_groups_contents (Z.of_nat (List.length groups)) groups [] []);
    try assumption.
  reflexivity.
Qed.

(** *** The filter of [TrackSignal], in terms of the groups *)

Lemma keep_changed_fold_In (l : list (Message Ts)) (m : Message Ts) :
  In m (fold_left (@keep_changed Ts) l []) -> In m l.
Proof.
  induction l as [|x l IH] using rev_ind; [trivial|].
  rewrite messages_with_change_snoc.
  destruct (keep_changed_cases (fold_left (@keep_changed Ts) l []) x)
    as [[-> _]|[-> _]]; rewrite !in_app_iff; [|auto].
  intros [H|H]; auto.
Qed.

Lemma filter_keeps_distinct (A B : Type) (key : A -> B) (keep : A -> bool)
  (items : list A) (H : NoDup (map key items)) :
  NoDup (map key (filter keep items)).
Proof.
  induction items as [|a l IH]; [constructor|].
  inversion H as [|? ? Hnot Hnd]; subst. cbn [filter].
  destruct (keep a); [|now apply IH].
  cbn [map]. constructor; [|now apply IH].
  intros Hin. apply Hnot. apply in_map_iff in Hin.
  destruct Hin as [x [E Hx]]. apply filter_In in Hx.
  apply in_map_iff. exists x. ptauto.
Qed.

Lemma filter_forallb (A : Type) (p : A -> bool) (l : list A) :
  (forallb p l = true /\ filter p l = l)
  \/ (forallb p l = false
      /\ (List.length (filter p l) < List.length l)%nat).
Proof.
  induction l as [|a l IH]; [now left|].
  cbn [forallb filter]. pose proof (filter_length_le p l) as Hle.
  destruct (p a); cbn [andb List.length].
  - destruct IH as [[-> ->]|[-> H]]; [now left | right; split; [reflexivity|lia]].
  - right. split; [reflexivity | lia].
Qed.

Lemma forallb_andb (A : Type) (p q : A -> bool) (l : list A) :
  forallb (fun x => p x && q x) l = forallb p l && forallb q l.
Proof.
  induction l as [|a l IH]; [reflexivity|]. cbn [forallb]. rewrite IH.
  destruct (p a), (q a), (forallb p l); reflexivity.
Qed.

Lemma forallb_map (A B : Type) (f : A -> B) (p : B -> bool) (l : list A) :
  forallb p (map f l) = forallb (fun x => p (f x)) l.
Proof.
  induction l as [|a l IH]; [reflexivity|]. cbn [map forallb]. now rewrite IH.
Qed.

Lemma occurrences_in_present (message_id : string) (g : MessageGroup Ts) :
  has_id message_id g = true ->
  exists c,
    In (message_id, c) (grp_message_type_collections g)
    /\ occurrences_in message_id g = messages_with_change c.
Proof.
  intros H. apply has_id_true in H.
  destruct (dict_get_In _ _ string_dec (grp_message_type_collections g)
              message_id H) as [c Hc].
  exists c. unfold occurrences_in. rewrite Hc. split; [|reflexivity].
  now apply dict_get_Some_In in Hc.
Qed.

(** The tracker of an id over well-formed groups with distinct time stamps
    is well formed, and its messages are messages of the groups. *)
Lemma tracker_of_wf (N : Z) (message_id : string)
  (groups : list (MessageGroup Ts)) (P : Message Ts -> Prop) :
  NoDup (map (@grp_ts Ts) groups) ->
  Forall (@group_wf Ts) groups ->
  Forall (group_messages_all P) groups ->
  tracker_wf Ts_eq_dec (tracker_of N message_id groups)
  /\ forall g m,
       In (g, m) (group_message_tuples (tracker_of N message_id groups)) ->
       P m.
Proof.
  intros Hnd Hwf HP. split; [split; [|split]|].
  - unfold tracker_of, dict_keys. cbn [trk_messages]. rewrite map_map.
    cbn [fst]. now apply filter_keeps_distinct.
  - intros k Hk Hnone.
    apply (dict_get_None _ _ Ts_eq_dec) in Hnone. apply Hnone.
    unfold tracker_of, dict_keys in *. cbn [trk_messages trk_ref_messages] in *.
    rewrite map_map in *. exact Hk.
  - unfold tracker_of. cbn [trk_messages]. apply Forall_forall.
    intros item Hin. apply in_map_iff in Hin.
    destruct Hin as [g [<- Hg]]. apply filter_In in Hg.
    destruct Hg as [Hg Hhas]. cbn [snd].
    destruct (occurrences_in_present message_id g Hhas) as [c [Hc ->]].
    apply messages_with_change_nonempty.
    rewrite Forall_forall in Hwf. destruct (Hwf g Hg) as [_ Hpop].
    unfold populated in Hpop. rewrite Forall_forall in Hpop.
    exact (Hpop _ Hc).
  - intros k m Hin. unfold group_message_tuples, tracker_of in Hin.
    cbn [trk_messages] in Hin. apply in_flat_map in Hin.
    destruct Hin as [item [Hitem Hm]]. apply in_map_iff in Hitem.
    destruct Hitem as [g [<- Hg]]. apply filter_In in Hg.
    destruct Hg as [Hg Hhas]. cbn [fst snd] in Hm.
    apply in_map_iff in Hm. destruct Hm as [m1 [Em Hm1]].
    injection Em as _ ->.
    destruct (occurrences_in_present message_id g Hhas) as [c [Hc Ho]].
    rewrite Ho in Hm1. apply keep_changed_fold_In in Hm1.
    rewrite Forall_forall in HP. specialize (HP g Hg).
    unfold group_messages_all in HP. rewrite Forall_forall in HP.
    specialize (HP _ Hc). cbn [snd] in HP. rewrite Forall_forall in HP.
    now apply HP.
Qed.

Lemma tracker_of_check (message_id : string)
  (groups : list (MessageGroup Ts)) :
  NoDup (map (@grp_ts Ts) groups) ->
  Forall (@group_wf Ts) groups ->
  Forall (group_messages_all (unsigned_payload hex_int)) groups ->
  existsb (has_id message_id) groups = true ->
  in_all_groups_with_change Ts_eq_dec hex_int
    (tracker_of (Z.of_nat (List.length groups)) message_id groups)
  = Ok (forallb (fun g => has_id message_id g
                          && changes_within hex_int
                               (occurrences_in message_id g)) groups).
Proof.
  intros Hnd Hwf HP Hex.
  destruct (tracker_of_wf (Z.of_nat (List.length groups)) message_id groups
              _ Hnd Hwf HP) as [Htwf Hpay].
  rewrite (check_by_group _ Htwf Hpay). f_equal.
  unfold in_all, MessageTracker_count, tracker_of, dict_keys.
  cbn [trk_messages trk_group_count]. rewrite !length_map, forallb_map.
  cbn [snd]. rewrite forallb_andb.
  destruct (filter_forallb _ (has_id message_id) groups) as [[Hall Hf]|[Hall Hlt]].
  - rewrite Hf, Hall. cbn [andb].
    assert (Hge : (Z.of_nat (List.length groups)
                   >=? Z.of_nat (List.length groups))%Z = true)
      by (apply Z.geb_le; lia).
    rewrite Hge. destruct groups; [discriminate | reflexivity].
  - rewrite Hall. cbn [andb].
    assert (Hge : (Z.of_nat (List.length (filter (has_id message_id) groups))
                   >=? Z.of_nat (List.length groups))%Z = false).
    { destruct (Z.geb_spec (Z.of_nat (List.length
                                        (filter (has_id message_id) groups)))
                  (Z.of_nat (List.length groups))); [lia | reflexivity]. }
    now rewrite Hge.
Qed.

(** X15. The filter of [TrackSignal], in terms of the groups. For groups as
    the segmenter makes them, with distinct time stamps and unsigned
    payloads, the tracker of an id passes [in_all_groups_with_change]
    exactly when every group has the id and, in every group, some
    deduplicated message of the id differs as a number from the one before
    it in that group. *)
Theorem consistency_filter (groups : list (MessageGroup Ts)) :
  NoDup (map (@grp_ts Ts) groups) ->
  Forall (@group_wf Ts) groups ->
  Forall (group_messages_all (unsigned_payload hex_int)) groups ->
  exists trackers_dict,
    build_trackers Ts_eq_dec groups = Ok trackers_dict
    /\ forall message_id t,
         dict_get string_dec trackers_dict message_id = Some t ->
         in_all_groups_with_change Ts_eq_dec hex_int t
         = Ok (forallb (fun g => has_id message_id g
                                 && changes_within hex_int
                                      (occurrences_in message_id g))
                       groups).
Proof.
  intros Hnd Hwf HP.
  destruct (track_groups_contents (Z.of_nat (List.length groups)) groups
              [] []) as [td [E Hc]].
  - exact Hnd.
  - eapply Forall_impl; [|exact Hwf]. intros g [H _]. exact H.
  - reflexivity.
  - exists td. split; [exact E|]. intros id t Ht.
    cbn [app] in Hc. rewrite Hc in Ht.
    destruct (existsb (has_id id) groups) eqn:Eex; [|discriminate].
    injection Ht as <-. now apply tracker_of_check.
Qed.

(** *** The groups of the segmenter are well formed *)





Lemma map_removelast (A B : Type) (f : A -> B) (l : list A) :
  map f (removelast l) = removelast (map f l).
Proof.
  induction l as [|a l IH]; [reflexivity|]. cbn [removelast map].
  destruct l as [|b l]; [reflexivity|]. cbn [map] in *. now rewrite IH.
Qed.


(** *** What is printed *)



(** *** [TrackSignal] from the log to what is printed *)


(** *** The messages that appear once in a group *)

Lemma appearing_once_fold (l : list (MessageTypeCollection Ts))
  (acc : list (Message Ts)) :
  fold_left
    (fun ret collection =>
       if Nat.eqb (MessageTypeCollection_count collection) 1
       then ret ++ mtc_messages collection else ret) l acc
  = acc ++ flat_map
             (fun c => if Nat.eqb (MessageTypeCollection_count c) 1
                       then mtc_messages c else []) l.
Proof.
  revert acc. induction l as [|c l IH]; intros acc; cbn [fold_left flat_map].
  - now rewrite app_nil_r.
  - rewrite IH. destruct (Nat.eqb (MessageTypeCollection_count c) 1).
    + now rewrite <- app_assoc.
    + reflexivity.
Qed.

Lemma flat_map_ext_In (A B : Type) (f g : A -> list B) (l : list A) :
  (forall a, In a l -> f a = g a) -> flat_map f l = flat_map g l.
Proof.
  induction l as [|a l IH]; intros H; [reflexivity|]. cbn [flat_map].
  rewrite (H a (or_introl eq_refl)), IH; [reflexivity|].
  intros b Hb. apply H. now right.
Qed.

Lemma group_of_has (ts : Ts) (ref_message : Message Ts)
  (ms : list (Message Ts)) (k : string) :
  In k (message_ids (group_of ts ref_message ms))
  <-> with_message_id k ms <> [].
Proof.
  destruct (group_of_collections ts ref_message ms) as [_ Hget].
  unfold message_ids. rewrite <- (dict_mem_true _ _ string_dec).
  unfold dict_mem. rewrite Hget.
  destruct (with_message_id k ms); split; intros H;
    try discriminate; try reflexivity; now destruct H.
Qed.

Lemma appearing_once_keys (ts : Ts) (ref_message : Message Ts)
  (ms : list (Message Ts)) :
  appearing_once (group_of ts ref_message ms)
  = flat_map (singles ms) (message_ids (group_of ts ref_message ms)).
Proof.
  destruct (group_of_collections ts ref_message ms) as [Hnd Hget].
  unfold appearing_once. rewrite appearing_once_fold. cbn [app].
  unfold message_ids, dict_keys, dict_values in *.
  rewrite !flat_map_concat_map, !map_map. f_equal.
  apply map_ext_in. intros [k c] Hin. cbn [fst snd].
  pose proof (dict_get_NoDup _ _ string_dec _ k c Hnd Hin) as Hk.
  rewrite Hget in Hk. unfold singles, MessageTypeCollection_count.
  destruct (with_message_id k ms) as [|a l] eqn:E; [discriminate|].
  injection Hk as <-. reflexivity.
Qed.

Lemma count_snoc (ms : list (Message Ts)) (m : Message Ts) (k : string) :
  Nat.eqb (List.length (with_message_id k (ms ++ [m]))) 1
  = if String.eqb (msg_id m) k
    then match with_message_id k ms with [] => true | _ :: _ => false end
    else Nat.eqb (List.length (with_message_id k ms)) 1.
Proof.
  rewrite with_message_id_snoc. destruct (String.eqb (msg_id m) k).
  - destruct (with_message_id k ms) as [|a l]; [reflexivity|].
    cbn [app List.length]. rewrite length_app. cbn [List.length].
    rewrite Nat.add_1_r. reflexivity.
  - now rewrite app_nil_r.
Qed.

Lemma singles_snoc (ms : list (Message Ts)) (m : Message Ts) (k : string) :
  singles (ms ++ [m]) k
  = if String.eqb (msg_id m) k
    then match with_message_id k ms with [] => [m] | _ :: _ => [] end
    else singles ms k.
Proof.
  unfold singles. rewrite count_snoc, with_message_id_snoc.
  destruct (String.eqb (msg_id m) k).
  - destruct (with_message_id k ms); reflexivity.
  - now rewrite app_nil_r.
Qed.

Lemma singles_filter (ts : Ts) (ref_message : Message Ts)
  (ms : list (Message Ts)) :
  forall q : string -> bool,
  flat_map (fun k => if q k then singles ms k else [])
           (message_ids (group_of ts ref_message ms))
  = filter (fun a => q (msg_id a) && once_in ms a) ms.
Proof.
  induction ms as [|m ms IH] using rev_ind; intros q; [reflexivity|].
  assert (Hin : forall a, In a ms ->
                  In (msg_id a) (message_ids (group_of ts ref_message ms))).
  { intros a Ha. apply group_of_has. intros E.
    assert (Hf : In a (with_message_id (msg_id a) ms)).
    { apply filter_In. split; [exact Ha | apply String.eqb_refl]. }
    rewrite E in Hf. destruct Hf. }
  rewrite group_of_snoc. unfold message_ids at 1.
  unfold MessageGroup_add. cbn [grp_message_type_collections].
  rewrite dict_keys_set. fold (message_ids (group_of ts ref_message ms)).
  rewrite filter_app. cbn [filter]. unfold once_in at 2.
  rewrite count_snoc, String.eqb_refl.
  destruct (dict_mem string_dec
              (grp_message_type_collections (group_of ts ref_message ms))
              (msg_id m)) eqn:Em.
  - apply dict_mem_true in Em. fold (message_ids (group_of ts ref_message ms)) in Em.
    apply group_of_has in Em.
    destruct (with_message_id (msg_id m) ms) as [|a0 l0] eqn:E0;
      [now destruct Em|].
    rewrite andb_false_r, app_nil_r.
    rewrite (flat_map_ext_In _ _ _
               (fun k => if q k && negb (String.eqb (msg_id m) k)
                         then singles ms k else [])).
    + rewrite IH. apply filter_ext. intros a. unfold once_in.
      rewrite count_snoc.
      destruct (String.eqb_spec (msg_id m) (msg_id a)) as [Ee|Ee].
      * rewrite <- Ee, E0. now rewrite !andb_false_r.
      * now rewrite andb_true_r.
    + intros k _. rewrite singles_snoc.
      destruct (String.eqb_spec (msg_id m) k) as [Ee|Ee].
      * rewrite <- Ee, E0. rewrite andb_false_r.
        destruct (q (msg_id m)); reflexivity.
      * now rewrite andb_true_r.
  - apply dict_mem_false in Em. fold (message_ids (group_of ts ref_message ms)) in Em.
    assert (E0 : with_message_id (msg_id m) ms = []).
    { destruct (with_message_id (msg_id m) ms) as [|a0 l0] eqn:E0;
        [reflexivity|]. exfalso. apply Em, group_of_has.
      rewrite E0. discriminate. }
    rewrite E0, andb_true_r. rewrite flat_map_app. cbn [flat_map].
    rewrite singles_snoc, String.eqb_refl, E0, app_nil_r.
    rewrite (flat_map_ext_In _ _ _
               (fun k => if q k then singles ms k else [])).
    + rewrite IH. f_equal.
      apply filter_ext_in. intros a Ha. unfold once_in.
      rewrite count_snoc.
      destruct (String.eqb_spec (msg_id m) (msg_id a)) as [Ee|Ee];
        [|reflexivity].
      exfalso. apply Em. rewrite Ee. now apply Hin.
    + intros k Hk. rewrite singles_snoc.
      destruct (String.eqb_spec (msg_id m) k) as [Ee|Ee]; [|reflexivity].
      exfalso. apply Em. now rewrite Ee.
Qed.

(** X18. The messages that appear once. After [add] of the messages [ms]
    to a new group, [appearing_once] gives the messages of [ms] whose id
    no other message of [ms] has, in the order of [ms]. *)
Theorem appearing_once_after_adds (ts : Ts) (ref_message : Message Ts)
  (ms : list (Message Ts)) :
  appearing_once (group_of ts ref_message ms) = filter (once_in ms) ms.
Proof.
  rewrite appearing_once_keys.
  exact (singles_filter ts ref_message ms (fun _ => true)).
Qed.

(** *** The rows of the report *)

Lemma string_length_app (a b : string) :
  String.length (a ++ b) = (String.length a + String.length b)%nat.
Proof. induction a as [|x a IH]; cbn; [reflexivity | now rewrite IH]. Qed.

Lemma count_str_fold (count : Z) (l : list Z) (acc : string) :
  fold_left
    (fun ret x =>
       if (0 <? x)%Z && (x <? count)%Z
       then (ret ++ fmt_02d x ++ "|")%string
       else (ret ++ "--|")%string) l acc
  = (acc ++ count_cells count l)%string.
Proof.
  revert acc. induction l as [|x l IH]; intros acc.
  - cbn. induction acc as [|c acc IHa]; cbn; [reflexivity|].
    now rewrite <- IHa.
  - cbn [fold_left]. rewrite IH. unfold count_cells. cbn [map fold_right].
    unfold count_cell at 2.
    destruct ((0 <? x)%Z && (x <? count)%Z); now rewrite string_app_assoc.
Qed.

Lemma fmt_02d_two_digits (x : Z) :
  (0 < x < 100)%Z -> String.length (fmt_02d x) = 2%nat.
Proof.
  intros H.
  assert (Hall : forallb (fun n => Nat.eqb (String.length
                                              (fmt_02d (Z.of_nat n))) 2)
                         (seq 1 99) = true) by (vm_compute; reflexivity).
  rewrite forallb_forall in Hall.
  specialize (Hall (Z.to_nat x)). rewrite Z2Nat.id in Hall by lia.
  apply Nat.eqb_eq, Hall, in_seq. lia.
Qed.

Lemma fmt_02d_no_dash (x : Z) (s : string) :
  (0 < x)%Z -> fmt_02d x <> String "-" s.
Proof.
  intros H. destruct x as [|p|p]; try lia. unfold fmt_02d.
  cbn [Z.to_int DecimalString.NilZero.string_of_int].
  destruct (String.length _ <? 2)%nat; [discriminate|].
  destruct (Pos.to_uint p); cbn; discriminate.
Qed.

(** X19. A row of the report. After the time stamp of the group and the
    payload of its reference message comes one cell for every count, in
    the order of the counts; the cell is the placeholder exactly when the
    count is not positive or not below the limit; and with a limit of 100
    or less every cell has three characters. *)
Theorem desc_with_less_than_cells (self : MessageChangeTracker Ts)
  (count : Z) :
  desc_with_less_than fmt_3f self count
  = (fmt_3f (mct_group_ts self) ++ " - "
     ++ msg_data (mct_ref_message self) ++ " - "
     ++ count_cells count (mct_bit_changes_count self))%string
  /\ (forall x, count_cell count x = "--|"%string
                <-> (x <= 0 \/ count <= x)%Z)
  /\ ((count <= 100)%Z ->
      String.length (count_cells count (mct_bit_changes_count self))
      = (3 * List.length (mct_bit_changes_count self))%nat).
Proof.
  split; [|split].
  - unfold desc_with_less_than. now rewrite count_str_fold.
  - intros x. unfold count_cell.
    destruct (Z.ltb_spec 0 x) as [H0|H0]; cbn [andb].
    + destruct (Z.ltb_spec x count) as [H1|H1].
      * split; [|lia]. intros E. exfalso.
        destruct (fmt_02d x) as [|c s] eqn:Ef; [discriminate|].
        cbn in E. injection E as Ec _.
        apply (fmt_02d_no_dash x s H0). now rewrite Ef, Ec.
      * split; [intros _; now right | reflexivity].
    + split; [intros _; now left | reflexivity].
  - intros Hc. induction (mct_bit_changes_count self) as [|x l IH];
      [reflexivity|].
    unfold count_cells in *. cbn [map fold_right List.length].
    rewrite string_length_app, IH.
    assert (Hx : String.length (count_cell count x) = 3%nat).
    { unfold count_cell.
      destruct (Z.ltb_spec 0 x) as [H0|H0]; cbn [andb]; [|reflexivity].
      destruct (Z.ltb_spec x count) as [H1|H1]; [|reflexivity].
      rewrite string_length_app, fmt_02d_two_digits by lia. reflexivity. }
    rewrite Hx. lia.
Qed.

(** *** The time range *)

Lemma split_on_nonempty (sep : ascii) (s : string) :
  (1 <= List.length (split_on sep s))%nat.
Proof.
  induction s as [|c s IH]; cbn [split_on]; [cbn; lia|].
  destruct (Ascii.eqb c sep); [cbn; lia|].
  destruct (split_on sep s); cbn in *; lia.
Qed.

Lemma split_on_app (sep : ascii) (a rest : string) :
  List.length (split_on sep (a ++ String sep rest))
  = (List.length (split_on sep a) + List.length (split_on sep rest))%nat.
Proof.
  induction a as [|c a IH].
  - cbn [String.append split_on]. rewrite Ascii.eqb_refl. reflexivity.
  - cbn [String.append split_on]. destruct (Ascii.eqb c sep).
    + cbn [List.length]. now rewrite IH.
    + pose proof (split_on_nonempty sep (a ++ String sep rest)) as H1.
      pose proof (split_on_nonempty sep a) as H2.
      destruct (split_on sep (a ++ String sep rest));
        destruct (split_on sep a); cbn [List.length] in *; lia.
Qed.

(** X20. A time range with more than one [-] is refused: [TrackSignal]
    raises [ValueError] before it reads the log, whatever the log is. So a
    bound below zero, or one with a negative exponent, cannot be given. *)
Theorem TrackSignal_two_dashes (rows : list (list string))
  (ref_message_id ref_bus a b c : string) :
  TrackSignal Ts_eq_dec Ts_ltb py_float py_int hex_int fmt_3f rows
    ref_message_id ref_bus (a ++ "-" ++ b ++ "-" ++ c)
  = ([], Raise ValueError).
Proof.
  unfold TrackSignal.
  pose proof (split_on_app "-" a (b ++ "-" ++ c)) as H1.
  pose proof (split_on_app "-" b c) as H2.
  pose proof (split_on_nonempty "-" a) as Ha.
  pose proof (split_on_nonempty "-" b) as Hb.
  pose proof (split_on_nonempty "-" c) as Hc.
  change (a ++ String "-" (b ++ "-" ++ c))%string
    with (a ++ "-" ++ b ++ "-" ++ c)%string in H1.
  change (b ++ String "-" c)%string with (b ++ "-" ++ c)%string in H2.
  destruct (split_on "-" (a ++ "-" ++ b ++ "-" ++ c))
    as [|x [|y [|z l]]]; cbn [List.length] in H1; try lia.
  cbn [map]. destruct (py_float x), (py_float y); reflexivity.
Qed.

End Proofs.

(** ** The examples *)

(** The groups and the trackers of [ex_rows]. *)
Lemma ex_groups_loaded :
  load Z.ltb ex_dec ex_dec [] ex_rows "10" "0" 0%Z 100%Z = Ok ex_groups
  /\ List.length ex_groups = 2%nat
  /\ nth_error ex_groups 1 = Some ex_group_6.
Proof. vm_compute. repeat split. Qed.

Lemma ex_trackers_built :
  build_trackers Z.eq_dec ex_groups = Ok ex_trackers
  /\ dict_get string_dec ex_trackers "0:20" = Some ex_tracker_20
  /\ dict_get string_dec ex_trackers "0:30" = Some ex_tracker_30.
Proof. vm_compute. repeat split. Qed.

Lemma ex_unsigned (data : string) (id : string) (ts : Z) :
  In data ["00"; "01"; "02"; "03"] ->
  unsigned_payload ex_hex (Message_init id ts data).
Proof.
  intros H. unfold unsigned_payload. cbn [msg_data Message_init].
  simpl in H.
  destruct H as [<-|[<-|[<-|[<-|[]]]]]; eexists; (split; [reflexivity|lia]).
Qed.

(** C1 fails as it is stated: the tracker of id [0:20], which [TrackSignal]
    builds from [ex_rows], has one run and its OR is 1, yet the check
    returns false, the id being in one group of two. *)
Lemma universal_change_counterexample :
  dict_get string_dec ex_trackers "0:20" = Some ex_tracker_20
  /\ group_message_tuples_with_bit_changes ex_hex ex_tracker_20
     = Ok ex_tuples_20
  /\ ~ (in_all_groups_with_change Z.eq_dec ex_hex ex_tracker_20 = Ok true
        <-> Forall (fun r => run_or r <> 0%Z) (runs Z.eq_dec ex_tuples_20)).
Proof.
  split; [reflexivity|]. split; [reflexivity|].
  intros [_ H].
  assert (Hruns : Forall (fun r => run_or r <> 0%Z)
                         (runs Z.eq_dec ex_tuples_20)).
  { vm_compute. repeat constructor. discriminate. }
  specialize (H Hruns). vm_compute in H. discriminate.
Qed.

(** The tracker of id [0:30] is in both groups and both its runs have a
    nonzero OR, 1 and 3; the check returns false, the second run having no
    message after its first. *)
Lemma universal_change_single_message_run :
  in_all ex_tracker_30 = true
  /\ group_message_tuples_with_bit_changes ex_hex ex_tracker_30
     = Ok ex_tuples_30
  /\ map (@run_or Z) (runs Z.eq_dec ex_tuples_30) = [1%Z; 3%Z]
  /\ in_all_groups_with_change Z.eq_dec ex_hex ex_tracker_30 = Ok false.
Proof. vm_compute. repeat split. Qed.

(** C1 at a tracker that changes inside both its groups. *)
Lemma universal_change_check_witness :
  in_all_groups_with_change Z.eq_dec ex_hex ex_tracker_40 = Ok true.
Proof.
  destruct (universal_change_check Z Z.eq_dec ex_hex ex_tracker_40)
    as [tuples [E [_ [_ [_ H]]]]].
  - intros g m Hin. simpl in Hin.
    destruct Hin as [H|[H|[H|[H|[]]]]]; injection H as _ <-;
      apply ex_unsigned; simpl; auto.
  - vm_compute in E. injection E as <-. apply H.
    + reflexivity.
    + discriminate.
    + vm_compute. repeat constructor; discriminate.
Defined.

Lemma ex_tracker_30_wf : tracker_wf Z.eq_dec ex_tracker_30.
Proof.
  unfold tracker_wf. simpl. split; [|split].
  - repeat constructor; simpl; intuition discriminate.
  - intros g [<-|[<-|[]]]; vm_compute; discriminate.
  - repeat constructor; discriminate.
Defined.

Lemma ex_tracker_40_wf : tracker_wf Z.eq_dec ex_tracker_40.
Proof.
  unfold tracker_wf. simpl. split; [|split].
  - repeat constructor; simpl; intuition discriminate.
  - intros g [<-|[<-|[]]]; vm_compute; discriminate.
  - repeat constructor; discriminate.
Defined.

(** C2 at the tracker of id [0:30]: bit 1 toggles once on entering the
    second group. *)
Lemma group_change_trackers_chained_witness :
  exists trackers,
    group_change_trackers Z.eq_dec ex_hex ex_tracker_30 = Ok trackers
    /\ map (@mct_group_ts Z) trackers = [1%Z; 6%Z]
    /\ map (fun ct => nth 62 (mct_bit_changes_count ct) 0%Z) trackers
       = [0%Z; 1%Z].
Proof.
  destruct (group_change_trackers_chained Z Z.eq_dec ex_hex ex_tracker_30)
    as [trackers [E [Hkeys _]]].
  - exact ex_tracker_30_wf.
  - intros g m Hin. simpl in Hin.
    destruct Hin as [H|[H|[H|[]]]]; injection H as _ <-; vm_compute;
      discriminate.
  - exists trackers. split; [exact E|]. split; [exact Hkeys|].
    vm_compute in E. injection E as <-. reflexivity.
Defined.

(** C3 at two occurrences of a new change tracker. *)
Lemma toggle_count_symmetry_witness :
  exists self,
    foldM (track_changes_to ex_hex) [ex_message 4 "00"; ex_message 5 "03"]
      (MessageChangeTracker_init 1%Z "0:30" (Message_init "0:10" 1%Z "aa")
         None)
    = Ok self
    /\ Forall (fun c => (0 <= c <= 2)%Z) (mct_bit_changes_count self).
Proof.
  destruct (toggle_count_symmetry Z ex_hex 1%Z "0:30"
              (Message_init "0:10" 1%Z "aa") None
              [ex_message 4 "00"; ex_message 5 "03"])
    as [self [E [Hb _]]].
  - discriminate.
  - repeat constructor; vm_compute; discriminate.
  - exists self. split; [exact E | exact Hb].
Defined.

(** C4 at [ex_rows]: three reference messages, two groups. *)
Lemma load_group_count_witness :
  exists groups,
    load Z.ltb ex_dec ex_dec [] ex_rows "10" "0" 0%Z 100%Z = Ok groups
    /\ (List.length groups + 1 = 3)%nat.
Proof.
  destruct (load_group_count Z Z.ltb ex_dec ex_dec "10" "0" 0%Z 100%Z
              (tl ex_header) (tl ex_rows) ex_stream)
    as [groups [E [Hn _]]].
  - vm_compute. reflexivity.
  - vm_compute. lia.
  - exists groups. split; [exact E | exact Hn].
Defined.

(** C5 at the groups of [ex_rows]. *)
Lemma presence_exact_witness :
  exists trackers_dict,
    build_trackers Z.eq_dec ex_groups = Ok trackers_dict
    /\ (in_all ex_tracker_30 = true
        <-> MessageTracker_count ex_tracker_30 = List.length ex_groups)
    /\ (in_all ex_tracker_20 = true
        <-> MessageTracker_count ex_tracker_20 = List.length ex_groups).
Proof.
  destruct (presence_exact Z Z.eq_dec ex_groups) as [td [E [_ H]]].
  - vm_compute. repeat constructor; simpl; intuition discriminate.
  - exists td. split; [exact E|].
    vm_compute in E. injection E as <-. split.
    + apply (H "0:30" ex_tracker_30). reflexivity.
    + apply (H "0:20" ex_tracker_20). reflexivity.
Defined.

(** C8 at a tracker of two groups: one row. *)
Lemma report_skips_first_group_witness :
  exists trackers rows,
    group_change_trackers Z.eq_dec ex_hex ex_tracker_40 = Ok trackers
    /\ bit_changes_rows Z.eq_dec ex_hex ex_fmt ex_tracker_40 4 = Ok rows
    /\ List.length rows = 1%nat.
Proof.
  destruct (report_skips_first_group Z Z.eq_dec ex_hex ex_fmt
              ex_tracker_40 4)
    as [trackers [rows [E [_ [Er [_ Hlen]]]]]].
  - exact ex_tracker_40_wf.
  - vm_compute. reflexivity.
  - exists trackers, rows. split; [exact E|]. split; [exact Er|exact Hlen].
Defined.

(** C10 at [ex_rows]. *)
Lemma reference_never_tracked_witness :
  Forall (anchored "0" "10") ex_groups
  /\ exists trackers_dict,
       build_trackers Z.eq_dec ex_groups = Ok trackers_dict
       /\ dict_get string_dec trackers_dict (reference_key "0" "10") = None.
Proof.
  destruct (reference_never_tracked Z Z.eq_dec Z.ltb ex_dec ex_dec ex_hex
              ex_fmt "10" "0" 0%Z 100%Z ex_rows ex_groups)
    as [Ha [td [E [Hn _]]]].
  - vm_compute. reflexivity.
  - split; [exact Ha|]. exists td. split; [exact E | exact Hn].
Defined.

(** C9 fails as it is stated: the id of [ex_row_upper] is the reference id
    [1a] but for the case of its letter; the row does not open a group, and
    a log of two such rows gives no group. *)
Lemma reference_match_counterexample :
  same_up_to_case "1A" "1a"
  /\ read_row Z.ltb ex_dec ex_dec "0" 0%Z 100%Z ex_row_upper
     = Ok (Some ex_entry_upper)
  /\ ~ opens_group "1a" ([], None) ex_entry_upper
  /\ load Z.ltb ex_dec ex_dec [] [ex_header; ex_row_upper; ex_row_upper]
          "1a" "0" 0%Z 100%Z = Ok []
  /\ load Z.ltb ex_dec ex_dec [] [ex_header; ex_row_upper; ex_row_upper]
          "1A" "0" 0%Z 100%Z
     = Ok [MessageGroup_init 1%Z (Message_init "0:1A" 1%Z "00")].
Proof.
  split; [reflexivity|]. split; [reflexivity|]. split.
  - unfold opens_group. vm_compute. discriminate.
  - split; reflexivity.
Qed.

(** C6 fails on the program. The group [ex_group_6] has no message of id
    [0:20]: [with_id] gives the empty list, and [add] on a new tracker of
    that id enters the group with an empty list of occurrences and then
    raises [AttributeError]. *)
Theorem add_absent_id_raises :
  with_id ex_group_6 "0:20" = IsList []
  /\ MessageTracker_add Z.eq_dec (MessageTracker_init Z "0:20" 2) ex_group_6
     = ({| trk_id := "0:20";
           trk_messages := [(6%Z, [])];
           trk_ref_messages := [(6%Z, Message_init "0:10" 6%Z "ab")];
           trk_group_count := 2 |}, Raise AttributeError).
Proof. split; reflexivity. Qed.

(** ** More examples *)

(** X5 at the first two reference messages of [ex_rows]: the four messages
    between them make the first group. *)
Lemma group_between_references_witness :
  segment "10" (firstn 6 ex_stream)
  = [group_of 1%Z (Message_init "0:10" 1%Z "aa")
       (map snd (firstn 4 (skipn 1 ex_stream)))].
Proof.
  apply (group_between_references Z "10" []
           (firstn 4 (skipn 1 ex_stream))
           ("10", 1%Z, Message_init "0:10" 1%Z "aa")
           ("10", 6%Z, Message_init "0:10" 6%Z "ab")).
  - reflexivity.
  - reflexivity.
  - vm_compute. repeat constructor.
Defined.

(** X10 at a group given twice to a new tracker of id [0:30]. *)
Lemma add_same_key_merges_witness :
  dict_get Z.eq_dec
    (trk_messages
       (fst (MessageTracker_add Z.eq_dec
               (fst (MessageTracker_add Z.eq_dec
                       (MessageTracker_init Z "0:30" 2) ex_group_6))
               ex_group_6)))
    6%Z
  = Some [ex_message 7 "02"; ex_message 7 "02"].
Proof.
  pose proof (add_same_key_merges Z Z.eq_dec
                (MessageTracker_init Z "0:30" 2) ex_group_6 ex_group_6
                {| mtc_id := "0:30"; mtc_messages := [ex_message 7 "02"] |}
                {| mtc_id := "0:30"; mtc_messages := [ex_message 7 "02"] |}
                eq_refl eq_refl eq_refl (fun H : False => H)) as H.
  cbv zeta in H. destruct H as [_ [_ [_ [H _]]]]. exact H.
Defined.

(** X11 at a new change tracker and one occurrence. *)
Lemma track_changes_to_low_bits_witness :
  exists self,
    foldM (track_changes_to ex_hex) [ex_message 4 "00"]
      (MessageChangeTracker_init 1%Z "0:30" (Message_init "0:10" 1%Z "aa")
         None)
    = Ok self
    /\ List.length (mct_bit_changes_count self) = 64%nat.
Proof.
  destruct (track_changes_to_low_bits Z ex_hex 1%Z "0:30"
              (Message_init "0:10" 1%Z "aa") None [ex_message 4 "00"])
    as [self [E [Hlen _]]].
  - discriminate.
  - repeat constructor; vm_compute; discriminate.
  - exists self. split; [exact E | exact Hlen].
Defined.

(** X12 at the tracker of id [0:30]: bit 0 changes twice over its three
    occurrences. *)
Lemma group_change_trackers_total_witness :
  exists trackers,
    group_change_trackers Z.eq_dec ex_hex ex_tracker_30 = Ok trackers
    /\ fold_right Z.add 0%Z
         (map (fun ct => nth 63 (mct_bit_changes_count ct) 0%Z) trackers)
       = 2%Z.
Proof.
  destruct (group_change_trackers_total Z Z.eq_dec ex_hex ex_tracker_30 0)
    as [trackers [E H]].
  - exact ex_tracker_30_wf.
  - intros g m Hin. simpl in Hin.
    destruct Hin as [H|[H|[H|[]]]]; injection H as _ <-; vm_compute;
      discriminate.
  - lia.
  - exists trackers. split; [exact E|].
    vm_compute in E. injection E as <-. reflexivity.
Defined.

(** X13 at the tracker of id [0:30]: its second group has one occurrence
    only, and the check is false. *)
Lemma in_all_groups_with_change_by_group_witness :
  in_all_groups_with_change Z.eq_dec ex_hex ex_tracker_30 = Ok false.
Proof.
  rewrite (in_all_groups_with_change_by_group Z Z.eq_dec ex_hex
             ex_tracker_30).
  - reflexivity.
  - exact ex_tracker_30_wf.
  - intros g m Hin. simpl in Hin.
    destruct Hin as [H|[H|[H|[]]]]; injection H as _ <-;
      apply ex_unsigned; simpl; auto.
Defined.

(** X14 at the groups of [ex_rows]. *)
Lemma build_trackers_contents_witness :
  exists trackers_dict,
    build_trackers Z.eq_dec ex_groups = Ok trackers_dict
    /\ dict_get string_dec trackers_dict "0:30" = Some ex_tracker_30
    /\ dict_get string_dec trackers_dict "0:10" = None.
Proof.
  destruct (build_trackers_contents Z Z.eq_dec ex_groups) as [td [E H]].
  - vm_compute. repeat constructor; simpl; intuition discriminate.
  - vm_compute. repeat constructor; simpl; intuition discriminate.
  - exists td. split; [exact E|]. split.
    + rewrite (H "0:30"). reflexivity.
    + rewrite (H "0:10"). reflexivity.
Defined.


(** X15 at the groups of [ex_rows_changing]: id [0:30] passes, id [0:20]
    does not. *)
Lemma consistency_filter_witness :
  exists trackers_dict t30 t20,
    build_trackers Z.eq_dec ex_groups_changing = Ok trackers_dict
    /\ dict_get string_dec trackers_dict "0:30" = Some t30
    /\ dict_get string_dec trackers_dict "0:20" = Some t20
    /\ in_all_groups_with_change Z.eq_dec ex_hex t30 = Ok true
    /\ in_all_groups_with_change Z.eq_dec ex_hex t20 = Ok false.
Proof.
  destruct (consistency_filter Z Z.eq_dec ex_hex ex_groups_changing)
    as [td [E H]].
  - vm_compute. repeat constructor; simpl; intuition discriminate.
  - vm_compute. repeat (constructor || split); simpl; intuition discriminate.
  - vm_compute.
    repeat constructor; eexists; (split; [reflexivity | discriminate]).
  - destruct (dict_get string_dec td "0:30") as [t30|] eqn:E30;
      [|vm_compute in E; injection E as <-; discriminate].
    destruct (dict_get string_dec td "0:20") as [t20|] eqn:E20;
      [|vm_compute in E; injection E as <-; discriminate].
    exists td, t30, t20. split; [exact E|]. split; [exact E30|].
    split; [exact E20|]. split.
    + rewrite (H "0:30" t30 E30). reflexivity.
    + rewrite (H "0:20" t20 E20). reflexivity.
Defined.

